(** * Philippine labor-market analytics: the data pipeline

    Shallow embedding of the quarter parser ([src/utils/helpers.py]), the
    loader ([src/data/data_loader.py]), the validator
    ([src/data/data_validator.py]) and the preprocessor
    ([src/data/data_preprocessor.py]).

    Conventions of the embedding.
    - A Python [str] is a [string] whose characters are the code points
      0..255.
    - A float64 is a [float]: NaN, a signed infinity, or a finite value
      idealised as an exact rational (no rounding, no overflow, no
      signed zero).
    - A pandas [DataFrame] is a list of column names and a list of rows of
      [cell]s; its index is the row position (a RangeIndex).
    - A raised exception is an [Err] of the [result] monad; [try]/[except]
      is a match on the result.
    - Lags, windows and periods are natural numbers. *)

From Stdlib Require Import ZArith QArith Qabs Qround String Ascii List Bool Lia.
From Stdlib Require Import Permutation Sorted DecimalString.
From Stdlib Require DecimalNat Lqa.
From stdpp Require Import base list strings gmap sorting.

Local Open Scope string_scope.
Local Open Scope list_scope.
Local Open Scope Z_scope.

(** ** Exceptions and the result monad *)

Inductive exn : Type :=
| MissingRequiredColumns (missing : gset string)
    (* ValueError(f"Missing required columns: {missing_cols}") *)
| InvalidQuarterFormat (* ValueError(f"Invalid quarter format: {quarter_str}") *)
| TimestampOutOfRange  (* ValueError raised by pd.Timestamp(year=, month=, day=) *)
| IntNaN               (* ValueError: cannot convert float NaN to integer *)
| KeyError (name : string)
| IndexError
| TypeError
| AttributeError
| DataError
| ReadError.           (* whatever pd.read_csv raises *)

Inductive result (A : Type) : Type :=
| Ok (a : A)
| Err (e : exn).
Arguments Ok {A} a.
Arguments Err {A} e.

#[global] Instance result_ret : MRet result := fun A a => Ok a.
#[global] Instance result_bind : MBind result := fun A B f m =>
  match m with
  | Ok a => f a
  | Err e => Err e
  end.

Definition is_ok {A} (r : result A) : bool :=
  match r with Ok _ => true | Err _ => false end.

(** [for x in l: f x] where [f] may raise. *)
Fixpoint mapM {A B} (f : A -> result B) (l : list A) : result (list B) :=
  match l with
  | [] => Ok []
  | x :: l' => y ← f x; ys ← mapM f l'; Ok (y :: ys)
  end.

(** ** Python strings *)

Module PyStr.

(** [str.isspace] on the code points below 256. *)
Definition isspace (c : ascii) : bool :=
  let n := N_of_ascii c in
  ((9 <=? n) && (n <=? 13) || (28 <=? n) && (n <=? 32)
   || (n =? 133) || (n =? 160))%N.

(** The decimal digits below code point 256 are the ASCII ones. *)
Definition digit_value (c : ascii) : option Z :=
  let n := N_of_ascii c in
  if ((48 <=? n) && (n <=? 57))%N then Some (Z.of_N n - 48) else None.

Definition flush (tok : list ascii) : list string :=
  match tok with
  | [] => []
  | _ => [string_of_list_ascii (rev tok)]
  end.

(** [s.split()]: maximal runs of non-whitespace characters. *)
Fixpoint split_go (s : string) (tok : list ascii) : list string :=
  match s with
  | EmptyString => flush tok
  | String c s' =>
      if isspace c then flush tok ++ split_go s' []
      else split_go s' (c :: tok)
  end.

Definition split (s : string) : list string := split_go s [].

Fixpoint lstrip (s : list ascii) : list ascii :=
  match s with
  | c :: s' => if isspace c then lstrip s' else s
  | [] => []
  end.

(** [s.strip()] *)
Definition strip (s : string) : string :=
  string_of_list_ascii
    (rev (lstrip (rev (lstrip (list_ascii_of_string s))))).

(** [s.replace(c, '')] for a one-character [c]. *)
Fixpoint remove_char (c : ascii) (s : string) : string :=
  match s with
  | EmptyString => EmptyString
  | String d s' =>
      if Ascii.eqb d c then remove_char c s' else String d (remove_char c s')
  end.

(** Digits of a base-10 literal after the sign: a digit, then digits each
    optionally preceded by one underscore.  [acc] is the value read so
    far and [after_digit] tells whether the previous character was a
    digit. *)
Fixpoint digits_go (s : list ascii) (acc : Z) (after_digit : bool)
  : option Z :=
  match s with
  | [] => if after_digit then Some acc else None
  | c :: s' =>
      match digit_value c with
      | Some d => digits_go s' (10 * acc + d) true
      | None =>
          if Ascii.eqb c "_" && after_digit
          then match s' with
               | [] => None
               | c' :: _ =>
                   match digit_value c' with
                   | Some _ => digits_go s' acc false
                   | None => None
                   end
               end
          else None
      end
  end.

(** [int(s)]: surrounding whitespace is ignored, then an optional sign
    and the digits; [None] is [ValueError].  (The cap on the number of
    digits of recent interpreters, 4300 by default, is left out.) *)
Definition int (s : string) : option Z :=
  match list_ascii_of_string (strip s) with
  | [] => None
  | c :: s' =>
      if Ascii.eqb c "-" then Z.opp <$> digits_go s' 0 false
      else if Ascii.eqb c "+" then digits_go s' 0 false
      else digits_go (c :: s') 0 false
  end.

End PyStr.

(** ** Quarter parser ([helpers.py]) *)

(** [parse_quarter]: every exception raised in the [try] block
    ([IndexError] of [parts[0]] and [parts[1]], [ValueError] of [int]) is
    replaced by the one [ValueError]. *)
Definition parse_quarter (quarter_str : string) : result (Z * Z) :=
  let parts := PyStr.split (PyStr.strip quarter_str) in
  match parts with
  | p0 :: p1 :: _ =>
      match PyStr.int p0, PyStr.int (PyStr.remove_char "Q" p1) with
      | Some year, Some quarter => Ok (year, quarter)
      | _, _ => Err InvalidQuarterFormat
      end
  | _ => Err InvalidQuarterFormat
  end.


(** ** Timestamps *)

(** A [pd.Timestamp] at midnight. *)
Record Timestamp : Type := mkTimestamp {
  ts_year : Z;
  ts_month : Z;
  ts_day : Z
}.

Module Calendar.

Definition is_leap (y : Z) : bool :=
  (y mod 4 =? 0) && (negb (y mod 100 =? 0) || (y mod 400 =? 0)).

Definition days_in_month (y m : Z) : Z :=
  if m =? 2 then (if is_leap y then 29 else 28)
  else if (m =? 4) || (m =? 6) || (m =? 9) || (m =? 11) then 30
  else 31.

Definition days_before_year (y : Z) : Z :=
  let y1 := y - 1 in
  y1 * 365 + y1 / 4 - y1 / 100 + y1 / 400.

(** Days of the year before the first day of month [m]. *)
Definition days_before_month (y m : Z) : Z :=
  let cumulative :=
    nth (Z.to_nat (m - 1))
      [0; 31; 59; 90; 120; 151; 181; 212; 243; 273; 304; 334] 0 in
  cumulative + (if (2 <? m) && is_leap y then 1 else 0).

(** Proleptic Gregorian ordinal, as [datetime.toordinal]. *)
Definition toordinal (t : Timestamp) : Z :=
  days_before_year (ts_year t) + days_before_month (ts_year t) (ts_month t)
  + ts_day t.

(** [pd.Timestamp(year=, month=, day=)] builds a [datetime] first, which
    accepts years 1..9999, months 1..12 and the days of the month.
    (pandas releases before 2.0 also reject dates outside 1677..2262;
    nothing below depends on that bound.) *)
Definition make (year month day : Z) : result Timestamp :=
  if (1 <=? year) && (year <=? 9999) && (1 <=? month) && (month <=? 12)
     && (1 <=? day) && (day <=? days_in_month year month)
  then Ok (mkTimestamp year month day)
  else Err TimestampOutOfRange.

(** [.dt.quarter] *)
Definition quarter (t : Timestamp) : Z := (ts_month t - 1) / 3 + 1.

End Calendar.

(** [quarter_to_date] *)
Definition quarter_to_date (quarter_str : string) : result Timestamp :=
  '(year, quarter) ← parse_quarter quarter_str;
  let month := (quarter - 1) * 3 + 1 in
  Calendar.make year month 1.

(** ** Floats and cells *)

Inductive float : Type :=
| NaN
| Inf (negative : bool)
| Num (x : Q).

Module Float.

Definition isnan (a : float) : bool :=
  match a with NaN => true | _ => false end.

Definition is_zero (x : Q) : bool := Qeq_bool x 0.
Definition is_neg (x : Q) : bool := negb (Qle_bool 0 x).

Definition neg (a : float) : float :=
  match a with
  | NaN => NaN
  | Inf s => Inf (negb s)
  | Num x => Num (- x)
  end.

Definition add (a b : float) : float :=
  match a, b with
  | NaN, _ | _, NaN => NaN
  | Num x, Num y => Num (x + y)
  | Inf s, Num _ | Num _, Inf s => Inf s
  | Inf s, Inf s' => if Bool.eqb s s' then Inf s else NaN
  end.

Definition sub (a b : float) : float := add a (neg b).

Definition mul (a b : float) : float :=
  match a, b with
  | NaN, _ | _, NaN => NaN
  | Num x, Num y => Num (x * y)
  | Inf s, Num x | Num x, Inf s =>
      if is_zero x then NaN else Inf (xorb s (is_neg x))
  | Inf s, Inf s' => Inf (xorb s s')
  end.

(** IEEE division: [x / 0] is an infinity for [x <> 0] and NaN for
    [x = 0]; nothing raises. *)
Definition div (a b : float) : float :=
  match a, b with
  | NaN, _ | _, NaN => NaN
  | Num x, Num y =>
      if is_zero y
      then (if is_zero x then NaN else Inf (is_neg x))
      else Num (x / y)
  | Num _, Inf _ => Num 0
  | Inf s, Num y => Inf (xorb s (is_neg y))
  | Inf _, Inf _ => NaN
  end.

(** [a <= b]; false as soon as one side is NaN. *)
Definition le (a b : float) : bool :=
  match a, b with
  | NaN, _ | _, NaN => false
  | Num x, Num y => Qle_bool x y
  | Inf s, Inf s' => s || negb s'
  | Inf s, Num _ => s
  | Num _, Inf s => negb s
  end.

Definition lt (a b : float) : bool :=
  match a, b with
  | NaN, _ | _, NaN => false
  | _, _ => negb (le b a)
  end.

Definition gt (a b : float) : bool := lt b a.

Definition abs (a : float) : float :=
  match a with
  | NaN => NaN
  | Inf _ => Inf false
  | Num x => Num (Qabs x)
  end.

Definition of_Z (n : Z) : float := Num (inject_Z n).
Definition of_nat (n : nat) : float := Num (inject_Z (Z.of_nat n)).

End Float.

(** A value held in a DataFrame; [Flt NaN] is also how a missing string
    or a blank field is stored. *)
Inductive cell : Type :=
| Flt (a : float)
| Str (s : string)
| Date (t : Timestamp).

(** [pd.isna] *)
Definition isna (c : cell) : bool :=
  match c with
  | Flt NaN => true
  | _ => false
  end.

Definition Series : Type := list cell.

(** A column used in arithmetic must have a numeric dtype; a column that
    holds strings or timestamps makes the operation raise [e]. *)
Definition to_float (e : exn) (c : cell) : result float :=
  match c with
  | Flt a => Ok a
  | _ => Err e
  end.

Definition numeric (e : exn) (s : Series) : result (list float) :=
  mapM (to_float e) s.

Definition of_floats (l : list float) : Series := Flt <$> l.

(** ** DataFrames *)

Record DataFrame : Type := mkDataFrame {
  columns : list string;
  rows : list (list cell)
}.

Module DF.

(** [len(df)] *)
Definition len (df : DataFrame) : nat := length (rows df).

Fixpoint index_of (name : string) (cols : list string) : option nat :=
  match cols with
  | [] => None
  | c :: cols' =>
      if String.eqb c name then Some 0%nat else S <$> index_of name cols'
  end.

Definition cell_at (j : nat) (row : list cell) : cell := nth j row (Flt NaN).

(** [df[name]]; [KeyError] when there is no such column. *)
Definition get (name : string) (df : DataFrame) : result Series :=
  match index_of name (columns df) with
  | Some j => Ok (cell_at j <$> rows df)
  | None => Err (KeyError name)
  end.

(** [df[name] = s]: an existing column is overwritten in place, a new
    one is appended; [s] is aligned on the index, rows it does not cover
    get NaN. *)
Definition set (name : string) (s : Series) (df : DataFrame) : DataFrame :=
  match index_of name (columns df) with
  | Some j =>
      mkDataFrame (columns df)
        (imap (fun i row => <[j := nth i s (Flt NaN)]> row) (rows df))
  | None =>
      mkDataFrame (columns df ++ [name])
        (imap (fun i row => row ++ [nth i s (Flt NaN)]) (rows df))
  end.

(** [pd.concat([df1, df2], axis=1)] of two frames on the same index. *)
Definition concat (df1 df2 : DataFrame) : DataFrame :=
  mkDataFrame (columns df1 ++ columns df2)
    (zip_with app (rows df1) (rows df2)).

(** [df.take(indexer)] followed by [reset_index(drop=True)]. *)
Definition take_rows (indexer : list nat) (df : DataFrame) : DataFrame :=
  mkDataFrame (columns df) ((fun i => nth i (rows df) []) <$> indexer).

Definition row_complete (row : list cell) : bool :=
  forallb (fun c => negb (isna c)) row.

(** [df.dropna()]: keeps the rows without any missing value. *)
Definition dropna (df : DataFrame) : DataFrame :=
  mkDataFrame (columns df) (List.filter row_complete (rows df)).

(** [s.iloc[0]] and [s.iloc[-1]] *)
Definition iloc_first (s : Series) : result cell :=
  match s with
  | c :: _ => Ok c
  | [] => Err IndexError
  end.

Definition iloc_last (s : Series) : result cell :=
  match last s with
  | Some c => Ok c
  | None => Err IndexError
  end.

End DF.

(** ** Series operations of pandas *)

Module Ser.

(** [s.shift(k)] *)
Definition shift {A} (missing : A) (k : nat) (s : list A) : list A :=
  replicate (min k (length s)) missing ++ take (length s - k) s.

Definition sum (l : list float) : float := foldr Float.add (Num 0) l.

Definition dropnan (l : list float) : list float :=
  List.filter (fun a => negb (Float.isnan a)) l.

(** [s.mean()], skipping NaN *)
Definition mean (l : list float) : float :=
  let v := dropnan l in
  Float.div (sum v) (Float.of_nat (length v)).

(** [s.rolling(window=w, center=False).mean()]: defined from the row
    where a full window of present values is available. *)
Definition rolling_mean (w : nat) (l : list float) : list float :=
  imap (fun i _ =>
          if (S i <? w)%nat then NaN
          else let win := take w (drop (S i - w) l) in
               Float.div (sum win) (Float.of_nat w))
       l.

(** Forward fill: [s.ffill()] *)
Fixpoint ffill_from (prev : float) (l : list float) : list float :=
  match l with
  | [] => []
  | a :: l' =>
      let a' := if Float.isnan a then prev else a in
      a' :: ffill_from a' l'
  end.

Definition ffill (l : list float) : list float := ffill_from NaN l.

(** [s.pct_change(periods=p)]: [data / data.shift(p) - 1], where [data]
    is [s] forward-filled when [pad] holds. *)
Definition pct_change (pad : bool) (p : nat) (l : list float) : list float :=
  let data := if pad then ffill l else l in
  zip_with (fun a b => Float.sub (Float.div a b) (Num 1))
    data (shift NaN p data).

Fixpoint insert_sorted (a : float) (l : list float) : list float :=
  match l with
  | [] => [a]
  | b :: l' => if Float.le a b then a :: l else b :: insert_sorted a l'
  end.

Definition sorted (l : list float) : list float :=
  foldr insert_sorted [] l.

(** [s.quantile(q)] with linear interpolation, skipping NaN. *)
Definition quantile (q : Q) (l : list float) : float :=
  let v := sorted (dropnan l) in
  match v with
  | [] => NaN
  | _ =>
      let pos := (q * inject_Z (Z.of_nat (length v) - 1))%Q in
      let lo := Qfloor pos in
      let frac := (pos - inject_Z lo)%Q in
      let a := nth (Z.to_nat lo) v NaN in
      let b := nth (Z.to_nat (Z.min (lo + 1) (Z.of_nat (length v) - 1))) v NaN in
      Float.add a (Float.mul (Float.sub b a) (Num frac))
  end.

Definition fmin (a b : float) : float := if Float.le a b then a else b.
Definition fmax (a b : float) : float := if Float.le a b then b else a.

(** [s.min()] and [s.max()], skipping NaN *)
Definition smin (l : list float) : float :=
  match dropnan l with
  | [] => NaN
  | a :: v => foldl fmin a v
  end.

Definition smax (l : list float) : float :=
  match dropnan l with
  | [] => NaN
  | a :: v => foldl fmax a v
  end.

(** [s.between(lo, hi)] (both ends included) *)
Definition between (lo hi : float) (l : list float) : list bool :=
  (fun a => Float.le lo a && Float.le a hi) <$> l.

(** [s.all()], [s.any()] and [s.sum()] of a boolean Series *)
Definition all (l : list bool) : bool := forallb id l.
Definition any (l : list bool) : bool := existsb id l.
Definition count_true (l : list bool) : nat := length (List.filter id l).

(** Positions where a boolean Series holds: the index of [df[mask]]. *)
Definition where_true (l : list bool) : list nat :=
  fst <$> List.filter snd (imap pair l).

End Ser.

(** ** Helper functions ([helpers.py]) *)

(** [calculate_change] *)
Definition calculate_change (current previous : float) : float :=
  match previous with
  | Num y =>
      if Float.is_zero y then Num 0
      else Float.mul (Float.div (Float.sub current previous) previous) (Num 100)
  | _ => Float.mul (Float.div (Float.sub current previous) previous) (Num 100)
  end.

(** [safe_divide] *)
Definition safe_divide (numerator denominator default : float) : float :=
  match denominator with
  | Num y => if Float.is_zero y then default else Float.div numerator denominator
  | _ => Float.div numerator denominator
  end.

(** [validate_data_range] *)
Definition validate_data_range (data : Series) (min_val max_val : float)
  : result bool :=
  v ← numeric TypeError data;
  Ok (Ser.all (Ser.between min_val max_val v)).

(** [detect_outliers_iqr] *)
Definition detect_outliers_iqr (data : Series) (factor : float)
  : result (list bool) :=
  v ← numeric TypeError data;
  let Q1 := Ser.quantile (1 # 4) v in
  let Q3 := Ser.quantile (3 # 4) v in
  let IQR := Float.sub Q3 Q1 in
  let lower_bound := Float.sub Q1 (Float.mul factor IQR) in
  let upper_bound := Float.add Q3 (Float.mul factor IQR) in
  Ok ((fun a => Float.lt a lower_bound || Float.gt a upper_bound) <$> v).

Definition nat_to_string (n : nat) : string :=
  NilEmpty.string_of_uint (Nat.to_uint n).

(** [create_lag_features]: the frame starts without columns and takes the
    index of [data]; each lag adds (or overwrites) the column [lag_k]. *)
Definition create_lag_features (data : Series) (lags : list nat) : DataFrame :=
  foldl (fun df lag =>
           DF.set ("lag_" +:+ nat_to_string lag) (Ser.shift (Flt NaN) lag data) df)
        (mkDataFrame [] (replicate (length data) []))
        lags.

(** [calculate_moving_average] *)
Definition calculate_moving_average (data : Series) (window : nat)
  : result Series :=
  v ← numeric DataError data;
  Ok (of_floats (Ser.rolling_mean window v)).

(** ** Configuration ([config.py]) *)

Module Config.

Definition REQUIRED_COLUMNS : list string :=
  ["Quarter"; "LFPR"; "ER"; "UR"; "UER"].

(** [Config.REQUIRED_COLUMNS[1:]] *)
Definition INDICATORS : list string := drop 1 REQUIRED_COLUMNS.

End Config.

(** ** Loader ([data_loader.py]) *)

Record Metadata : Type := mkMetadata {
  file_path : string;
  n_records : nat;
  start_date : cell;
  end_date : cell;
  meta_columns : list string
}.

(** The attributes of a [DataLoader]; [None] is the initial [None] of
    [self.data] and the initial [{}] of [self.metadata]. *)
Record DataLoader : Type := mkDataLoader {
  data : option DataFrame;
  metadata : option Metadata
}.

Definition new_loader : DataLoader := mkDataLoader None None.

(** Methods of the loader run in a state-and-exception monad: an
    exception leaves the attributes as they are when it is raised. *)
Definition LoaderM (A : Type) : Type := DataLoader -> result A * DataLoader.

#[global] Instance loader_ret : MRet LoaderM := fun A a self => (Ok a, self).
#[global] Instance loader_bind : MBind LoaderM := fun A B f m self =>
  match m self with
  | (Ok a, self') => f a self'
  | (Err e, self') => (Err e, self')
  end.

Definition lift {A} (r : result A) : LoaderM A := fun self => (r, self).
Definition raise {A} (e : exn) : LoaderM A := fun self => (Err e, self).
Definition set_metadata (m : Metadata) : LoaderM unit :=
  fun self => (Ok tt, mkDataLoader (data self) (Some m)).
Definition set_data (df : DataFrame) : LoaderM unit :=
  fun self => (Ok tt, mkDataLoader (Some df) (metadata self)).

(** [df['Quarter'].apply(quarter_to_date)] on one element: a value that
    is not a string has no [strip], which [parse_quarter] reports as an
    invalid format like any other failure. *)
Definition apply_quarter_to_date (c : cell) : result Timestamp :=
  match c with
  | Str s => quarter_to_date s
  | _ => Err InvalidQuarterFormat
  end.

(** Sort key of a cell of a datetime column. *)
Definition date_key (c : cell) : Z :=
  match c with
  | Date t => Calendar.toordinal t
  | _ => 0
  end.

Section Loader.

(** [pd.read_csv]: the table stored under a path, or an exception. *)
Variable read_csv : string -> result DataFrame.

(** The indexer computed by [sort_values] with its default
    [kind='quicksort']: for a list of keys, the positions in the order
    of the sorted result. *)
Variable argsort : list Z -> list nat.

(** [df.sort_values(by_).reset_index(drop=True)] on a datetime column *)
Definition sort_values (by_ : string) (df : DataFrame) : result DataFrame :=
  col ← DF.get by_ df;
  Ok (DF.take_rows (argsort (date_key <$> col)) df).

(** [DataLoader.load_csv] *)
Definition load_csv (path : string) : LoaderM DataFrame :=
  df ← lift (read_csv path);
  let missing_cols : gset string :=
    list_to_set Config.REQUIRED_COLUMNS ∖ list_to_set (columns df) in
  if decide (missing_cols = ∅) then
    quarter ← lift (DF.get "Quarter" df);
    dates ← lift (mapM apply_quarter_to_date quarter);
    let df := DF.set "Date" (Date <$> dates) df in
    df ← lift (sort_values "Date" df);
    quarter ← lift (DF.get "Quarter" df);
    first ← lift (DF.iloc_first quarter);
    last ← lift (DF.iloc_last quarter);
    _ ← set_metadata (mkMetadata path (DF.len df) first last (columns df));
    _ ← set_data df;
    mret df
  else raise (MissingRequiredColumns missing_cols).

End Loader.

(** ** Validator ([data_validator.py]) *)

Record MissingValues : Type := mkMissingValues {
  has_missing : bool;
  counts : list (string * nat);
  total_missing : nat
}.

Record RangeInfo : Type := mkRangeInfo {
  valid : bool;
  range_min : float;
  range_max : float
}.

Record DataRanges : Type := mkDataRanges {
  all_valid : bool;
  indicators : list (string * RangeInfo)
}.

Record TemporalContinuity : Type := mkTemporalContinuity {
  is_continuous : bool;
  expected_quarters : Z;
  actual_quarters : nat;
  gaps_found : nat;
  gap_locations : list cell
}.

Record OutlierInfo : Type := mkOutlierInfo {
  count : nat;
  percentage : float;
  quarters : list cell;
  values : list cell
}.

Record Consistency : Type := mkConsistency {
  er_ur_consistent : bool;
  inconsistent_count : nat;
  inconsistent_quarters : list cell
}.

Record ValidationResults : Type := mkValidationResults {
  missing_values : MissingValues;
  data_ranges : DataRanges;
  temporal_continuity : TemporalContinuity;
  outliers : list (string * OutlierInfo);
  consistency : Consistency;
  overall_valid : bool
}.

Record DataValidator : Type := mkDataValidator {
  v_data : DataFrame;
  validation_results : option ValidationResults
}.

Module Validator.

(** [[self.data.loc[idx, name] for idx in indices]]: the column is only
    looked up when there is an index to read. *)
Definition loc (df : DataFrame) (indices : list nat) (name : string)
  : result (list cell) :=
  match indices with
  | [] => Ok []
  | _ => col ← DF.get name df; Ok ((fun i => nth i col (Flt NaN)) <$> indices)
  end.

(** [check_missing_values] *)
Definition check_missing_values (df : DataFrame) : result MissingValues :=
  missing_counts ←
    mapM (fun name => col ← DF.get name df;
                      Ok (name, length (List.filter isna col)))
         Config.REQUIRED_COLUMNS;
  let total := foldr Nat.add 0%nat (snd <$> missing_counts) in
  Ok (mkMissingValues (0 <? total)%nat missing_counts total).

(** The loop of [check_data_ranges]: [results] and [all_valid] are the
    two variables it updates. *)
Fixpoint check_data_ranges_loop (df : DataFrame) (names : list string)
    (results : list (string * RangeInfo)) (all_valid : bool)
  : result DataRanges :=
  match names with
  | [] => Ok (mkDataRanges all_valid results)
  | indicator :: names' =>
      col ← DF.get indicator df;
      is_valid ← validate_data_range col (Num 0) (Num 100);
      v ← numeric TypeError col;
      let info := mkRangeInfo is_valid (Ser.smin v) (Ser.smax v) in
      check_data_ranges_loop df names' (results ++ [(indicator, info)])
        (if is_valid then all_valid else false)
  end.

(** [check_data_ranges] *)
Definition check_data_ranges (df : DataFrame) : result DataRanges :=
  check_data_ranges_loop df Config.INDICATORS [] true.

(** [pd.to_datetime] on a column that already holds timestamps; [None]
    is NaT.  The parsing of strings and numbers into dates is not part
    of the embedding: such a cell is an error here. *)
Definition to_datetime (c : cell) : result (option Z) :=
  match c with
  | Date t => Ok (Some (Calendar.toordinal t))
  | Flt NaN => Ok None
  | _ => Err TypeError
  end.

Definition present (l : list (option Z)) : list Z := omap id l.

(** [dates.diff()[1:]]: the difference in days to the previous row,
    paired with the row position; [None] is NaT. *)
Definition diffs (dates : list (option Z)) : list (nat * option Z) :=
  imap (fun i '(prev, cur) =>
          (S i, match prev, cur with
                | Some a, Some b => Some (b - a)
                | _, _ => None
                end))
       (zip dates (drop 1 dates)).

(** [check_temporal_continuity]; a gap is a step of more than
    [1.5 * 90 = 135] days. *)
Definition check_temporal_continuity (df : DataFrame)
  : result TemporalContinuity :=
  col ← DF.get "Date" df;
  dates ← mapM to_datetime col;
  let gaps :=
    List.filter (fun '(_, d) => match d with
                                | Some days => 135 <? days
                                | None => false
                                end)
                (diffs dates) in
  expected ←
    match present dates with
    | [] => Err IntNaN
    | d :: ds =>
        let date_range := foldl Z.max d ds - foldl Z.min d ds in
        Ok (date_range / 90 + 1)
    end;
  locations ← loc df (fst <$> gaps) "Quarter";
  Ok (mkTemporalContinuity (Nat.eqb (length gaps) 0) expected
        (length dates) (length gaps) locations).

(** The loop of [detect_outliers] *)
Fixpoint detect_outliers_loop (df : DataFrame) (names : list string)
    (results : list (string * OutlierInfo))
  : result (list (string * OutlierInfo)) :=
  match names with
  | [] => Ok results
  | indicator :: names' =>
      col ← DF.get indicator df;
      flags ← detect_outliers_iqr col (Num (3 # 2));
      let outlier_indices := Ser.where_true flags in
      let n := Ser.count_true flags in
      qs ← loc df outlier_indices "Quarter";
      vs ← loc df outlier_indices indicator;
      let info :=
        mkOutlierInfo n
          (Float.mul (Float.div (Float.of_nat n) (Float.of_nat (DF.len df)))
                     (Num 100))
          qs vs in
      detect_outliers_loop df names' (results ++ [(indicator, info)])
  end.

(** [detect_outliers] *)
Definition detect_outliers (df : DataFrame)
  : result (list (string * OutlierInfo)) :=
  detect_outliers_loop df Config.INDICATORS [].

(** [check_consistency] *)
Definition check_consistency (df : DataFrame) : result Consistency :=
  er ← DF.get "ER" df;
  ur ← DF.get "UR" df;
  er ← numeric TypeError er;
  ur ← numeric TypeError ur;
  let er_ur_sum := zip_with Float.add er ur in
  let tolerance := Num 2 in
  let inconsistent :=
    (fun s => Float.gt (Float.abs (Float.sub s (Num 100))) tolerance)
      <$> er_ur_sum in
  qs ← (if Ser.any inconsistent
        then loc df (Ser.where_true inconsistent) "Quarter"
        else Ok []);
  Ok (mkConsistency (negb (Ser.any inconsistent))
        (Ser.count_true inconsistent) qs).

(** The dictionary built by [validate_all], with its [overall_valid]
    entry as finally assigned. *)
Definition run_checks (df : DataFrame) : result ValidationResults :=
  mv ← check_missing_values df;
  dr ← check_data_ranges df;
  tc ← check_temporal_continuity df;
  ol ← detect_outliers df;
  cs ← check_consistency df;
  Ok (mkValidationResults mv dr tc ol cs
        (negb (has_missing mv) && all_valid dr && is_continuous tc)).

(** [validate_all]: the results are also stored in the validator. *)
Definition validate_all (self : DataValidator)
  : result ValidationResults * DataValidator :=
  match run_checks (v_data self) with
  | Ok results => (Ok results, mkDataValidator (v_data self) (Some results))
  | Err e => (Err e, self)
  end.

End Validator.

(** ** Preprocessor ([data_preprocessor.py]) *)

(** [DataPreprocessor.__init__] stores a copy of the table; values are
    immutable here, so the copy is the table itself. *)
Record DataPreprocessor : Type := mkDataPreprocessor {
  p_data : DataFrame
}.

(** The [.dt] accessor on one element; [None] is NaT. *)
Definition dt (c : cell) : result (option Timestamp) :=
  match c with
  | Date t => Ok (Some t)
  | Flt NaN => Ok None
  | _ => Err AttributeError
  end.

Definition dt_field (f : Timestamp -> Z) (t : option Timestamp) : cell :=
  match t with
  | Some t => Flt (Float.of_Z (f t))
  | None => Flt NaN
  end.

(** [np.sin(2 * np.pi * q / 4)] and [np.cos(2 * np.pi * q / 4)] at a whole
    quarter number [q], as exact values. *)
Definition quarter_sin (a : float) : float :=
  match a with
  | Num x => let k := Qfloor x mod 4 in
             Num (if k =? 1 then 1 else if k =? 3 then -1 else 0)
  | _ => NaN
  end.

Definition quarter_cos (a : float) : float :=
  match a with
  | Num x => let k := Qfloor x mod 4 in
             Num (if k =? 0 then 1 else if k =? 2 then -1 else 0)
  | _ => NaN
  end.

Section Preprocessor.

(** Whether [pct_change] forward-fills missing values before dividing:
    its default [fill_method] does up to pandas 2, and does not from
    pandas 3 on. *)
Variable fill_method_pad : bool.

(** The square root of floats, on the finite values. *)
Variable sqrt : Q -> Q.

Definition fsqrt (a : float) : float :=
  match a with
  | Num x => if Float.is_neg x then NaN else Num (sqrt x)
  | Inf false => Inf false
  | _ => NaN
  end.

(** [s.std()]: sample standard deviation (ddof = 1), skipping NaN. *)
Definition std (l : list float) : float :=
  let v := Ser.dropnan l in
  if (length v <=? 1)%nat then NaN
  else
    let m := Ser.mean v in
    let sq := (fun a => Float.mul (Float.sub a m) (Float.sub a m)) <$> v in
    fsqrt (Float.div (Ser.sum sq) (Float.of_nat (length v - 1))).

(** [create_temporal_features] *)
Definition create_temporal_features (self : DataPreprocessor)
  : result DataFrame :=
  let df := p_data self in
  col ← DF.get "Date" df;
  ts ← mapM dt col;
  let df := DF.set "Year" (dt_field ts_year <$> ts) df in
  col ← DF.get "Date" df;
  ts ← mapM dt col;
  let df := DF.set "QuarterNum" (dt_field Calendar.quarter <$> ts) df in
  col ← DF.get "Date" df;
  ts ← mapM dt col;
  let df := DF.set "Month" (dt_field ts_month <$> ts) df in
  col ← DF.get "QuarterNum" df;
  q ← numeric TypeError col;
  let df := DF.set "Quarter_sin" (of_floats (quarter_sin <$> q)) df in
  col ← DF.get "QuarterNum" df;
  q ← numeric TypeError col;
  let df := DF.set "Quarter_cos" (of_floats (quarter_cos <$> q)) df in
  Ok df.

(** The loop of [add_lag_features] *)
Fixpoint add_lag_features_loop (df : DataFrame) (names : list string)
    (lags : list nat) : result DataFrame :=
  match names with
  | [] => Ok df
  | indicator :: names' =>
      col ← DF.get indicator df;
      let lag_df := create_lag_features col lags in
      let lag_df :=
        mkDataFrame ((fun c => indicator +:+ "_" +:+ c) <$> columns lag_df)
                    (rows lag_df) in
      add_lag_features_loop (DF.concat df lag_df) names' lags
  end.

(** [add_lag_features] *)
Definition add_lag_features (self : DataPreprocessor)
    (names : list string) (lags : list nat) : result DataFrame :=
  add_lag_features_loop (p_data self) names lags.

(** The inner and the outer loop of [add_moving_averages] *)
Fixpoint add_moving_averages_inner (df : DataFrame) (indicator : string)
    (windows : list nat) : result DataFrame :=
  match windows with
  | [] => Ok df
  | window :: windows' =>
      col ← DF.get indicator df;
      ma ← calculate_moving_average col window;
      add_moving_averages_inner
        (DF.set (indicator +:+ "_ma" +:+ nat_to_string window) ma df)
        indicator windows'
  end.

Fixpoint add_moving_averages_loop (df : DataFrame) (names : list string)
    (windows : list nat) : result DataFrame :=
  match names with
  | [] => Ok df
  | indicator :: names' =>
      df ← add_moving_averages_inner df indicator windows;
      add_moving_averages_loop df names' windows
  end.

(** [add_moving_averages] *)
Definition add_moving_averages (self : DataPreprocessor)
    (names : list string) (windows : list nat) : result DataFrame :=
  add_moving_averages_loop (p_data self) names windows.

(** [df[indicator].pct_change(periods=period) * 100] *)
Definition change_column (col : Series) (period : nat) : result Series :=
  v ← numeric TypeError col;
  Ok (of_floats
        ((fun a => Float.mul a (Num 100))
           <$> Ser.pct_change fill_method_pad period v)).

(** The inner and the outer loop of [add_rate_of_change] *)
Fixpoint add_rate_of_change_inner (df : DataFrame) (indicator : string)
    (periods : list nat) : result DataFrame :=
  match periods with
  | [] => Ok df
  | period :: periods' =>
      col ← DF.get indicator df;
      change ← change_column col period;
      add_rate_of_change_inner
        (DF.set (indicator +:+ "_change" +:+ nat_to_string period) change df)
        indicator periods'
  end.

Fixpoint add_rate_of_change_loop (df : DataFrame) (names : list string)
    (periods : list nat) : result DataFrame :=
  match names with
  | [] => Ok df
  | indicator :: names' =>
      df ← add_rate_of_change_inner df indicator periods;
      add_rate_of_change_loop df names' periods
  end.

(** [add_rate_of_change]; the default of [periods] is [[1, 4]]. *)
Definition add_rate_of_change (self : DataPreprocessor)
    (names : list string) (periods : list nat) : result DataFrame :=
  add_rate_of_change_loop (p_data self) names periods.

Definition default_periods : list nat := [1; 4]%nat.

(** One iteration of the loop of [normalize_indicators]; a [method]
    that is neither of the two names falls through both tests. *)
Definition normalize_step (method : string) (df : DataFrame)
    (indicator : string) : result DataFrame :=
  if String.eqb method "zscore" then
    col ← DF.get indicator df;
    v ← numeric TypeError col;
    let mean := Ser.mean v in
    let sd := std v in
    Ok (DF.set (indicator +:+ "_norm")
          (of_floats ((fun a => Float.div (Float.sub a mean) sd) <$> v)) df)
  else if String.eqb method "minmax" then
    col ← DF.get indicator df;
    v ← numeric TypeError col;
    let min_val := Ser.smin v in
    let max_val := Ser.smax v in
    Ok (DF.set (indicator +:+ "_norm")
          (of_floats
             ((fun a => Float.div (Float.sub a min_val)
                                  (Float.sub max_val min_val)) <$> v)) df)
  else Ok df.

Fixpoint normalize_loop (method : string) (df : DataFrame)
    (names : list string) : result DataFrame :=
  match names with
  | [] => Ok df
  | indicator :: names' =>
      df ← normalize_step method df indicator;
      normalize_loop method df names'
  end.

(** [normalize_indicators] *)
Definition normalize_indicators (self : DataPreprocessor)
    (names : list string) (method : string) : result DataFrame :=
  normalize_loop method (p_data self) names.

(** [prepare_for_modeling] *)
Definition prepare_for_modeling (self : DataPreprocessor)
    (target_indicator : string)
    (include_lags include_ma include_temporal : bool) : result DataFrame :=
  let df := p_data self in
  df ← (if include_temporal then create_temporal_features self else Ok df);
  df ← (if include_lags
        then add_lag_features self [target_indicator] [1; 2; 4]%nat
        else Ok df);
  df ← (if include_ma
        then add_moving_averages self [target_indicator] [2; 4]%nat
        else Ok df);
  df ← add_rate_of_change self [target_indicator] default_periods;
  let df := DF.dropna df in
  Ok df.

End Preprocessor.

(** ** Reference definitions used to state the properties *)

(** The shape of a quarter label as the specification words it: split on
    whitespace, exactly a four-digit year token followed by a token made
    of the letter Q and one digit among 1, 2, 3, 4. *)
Definition spec_label_shape (label : string) : bool :=
  match PyStr.split label with
  | [y; q] =>
      match list_ascii_of_string y, list_ascii_of_string q with
      | [a; b; c; d], [letter; n] =>
          forallb (fun x => bool_decide (is_Some (PyStr.digit_value x)))
                  [a; b; c; d]
          && Ascii.eqb letter "Q"
          && bool_decide (n ∈ ["1"; "2"; "3"; "4"]%char)
      | _, _ => false
      end
  | _ => false
  end.

(** ** Sorting algorithms

    [sort_values] is called with its default [kind='quicksort'], which
    for a datetime column is numpy's indirect quicksort: an insertion
    sort on every stretch of at most 17 positions, and a median-of-three
    partition on longer ones. *)

(** The insertion sort over (key, position) pairs: an element is put
    before the first one whose key is greater or equal, which keeps rows
    of equal key in their input order. *)
Fixpoint insert_key (x : Z * nat) (l : list (Z * nat)) : list (Z * nat) :=
  match l with
  | [] => [x]
  | y :: l' => if fst x <=? fst y then x :: l else y :: insert_key x l'
  end.

(** The order the sort establishes. *)
Definition key_le (a b : Z * nat) : Prop := a.1 ≤ b.1.

Definition insertion_argsort (keys : list Z) : list nat :=
  snd <$> foldr insert_key [] (zip keys (seq 0 (length keys))).

Definition stable_argsort : list Z -> list nat := insertion_argsort.

(** numpy's [aquicksort] on the keys [v] ([npysort/quicksort.cpp]).  The
    array [tosort] of positions is a list, and the pointers [pl], [pr],
    [pm], [pi], [pj] and [pk] into it are indexes. *)
Module NumpySort.

Definition SMALL_QUICKSORT : nat := 16.

Section Keys.

Variable v : list Z.

(** [v[*p]] *)
Definition key_at (tosort : list nat) (p : nat) : Z :=
  nth (nth p tosort 0%nat) v 0.

(** [INTP_SWAP] of the positions held at [p] and [q] *)
Definition swap (tosort : list nat) (p q : nat) : list nat :=
  <[p := nth q tosort 0%nat]> (<[q := nth p tosort 0%nat]> tosort).

(** [if (less(v[*p], v[*q]))] swap the positions held at [p] and [q] *)
Definition swap_if_less (tosort : list nat) (p q : nat) : list nat :=
  if key_at tosort p <? key_at tosort q then swap tosort p q else tosort.

(** [do { ++pi; } while (less(v[*pi], vp))] *)
Fixpoint scan_up (fuel : nat) (vp : Z) (tosort : list nat) (pi : nat) : nat :=
  match fuel with
  | O => pi
  | S fuel' =>
      if key_at tosort (S pi) <? vp then scan_up fuel' vp tosort (S pi)
      else S pi
  end.

(** [do { --pj; } while (less(vp, v[*pj]))] *)
Fixpoint scan_down (vp : Z) (tosort : list nat) (pj : nat) : nat :=
  match pj with
  | O => O
  | S pj' =>
      if vp <? key_at tosort pj' then scan_down vp tosort pj' else pj'
  end.

(** The [for (;;)] loop of the partition; returns the array and [pi]. *)
Fixpoint hoare (fuel : nat) (vp : Z) (tosort : list nat) (pi pj : nat)
  : list nat * nat :=
  match fuel with
  | O => (tosort, pi)
  | S fuel' =>
      let pi := scan_up (length tosort) vp tosort pi in
      let pj := scan_down vp tosort pj in
      if (pj <=? pi)%nat then (tosort, pi)
      else hoare fuel' vp (swap tosort pi pj) pi pj
  end.

(** One partition of the positions [pl .. pr]: median of three, the
    pivot parked at [pr - 1], the scan, and the pivot put in its place
    [pi]. *)
Definition partition (tosort : list nat) (pl pr : nat) : list nat * nat :=
  let pm := (pl + (pr - pl) / 2)%nat in
  let tosort := swap_if_less tosort pm pl in
  let tosort := swap_if_less tosort pr pm in
  let tosort := swap_if_less tosort pm pl in
  let vp := key_at tosort pm in
  let tosort := swap tosort pm (pr - 1) in
  let '(tosort, pi) := hoare (length tosort) vp tosort pl (pr - 1) in
  (swap tosort pi (pr - 1), pi).

(** [while ((pr - pl) > SMALL_QUICKSORT)]: partition, push the larger
    part with the depth left, go on with the smaller one. *)
Fixpoint partition_loop (fuel : nat) (tosort : list nat) (pl pr : nat)
    (stack : list (nat * nat * Z)) (cdepth : Z)
  : list nat * nat * nat * list (nat * nat * Z) * Z :=
  match fuel with
  | O => (tosort, pl, pr, stack, cdepth)
  | S fuel' =>
      if (SMALL_QUICKSORT <? pr - pl)%nat then
        let '(tosort, pi) := partition tosort pl pr in
        let cdepth := cdepth - 1 in
        if (pi - pl <? pr - pi)%nat
        then partition_loop fuel' tosort pl (pi - 1)
               ((S pi, pr, cdepth) :: stack) cdepth
        else partition_loop fuel' tosort (S pi) pr
               ((pl, (pi - 1)%nat, cdepth) :: stack) cdepth
      else (tosort, pl, pr, stack, cdepth)
  end.

(** [while (pj > pl && less(vp, v[*pk])) { *pj-- = *pk--; }] *)
Fixpoint shift_down (vp : Z) (pl : nat) (tosort : list nat) (pj : nat)
  : list nat * nat :=
  match pj with
  | O => (tosort, O)
  | S pk =>
      if (pl <? pj)%nat && (vp <? key_at tosort pk)
      then shift_down vp pl (<[pj := nth pk tosort 0%nat]> tosort) pk
      else (tosort, pj)
  end.

(** One step of the insertion sort, for the position [pi]. *)
Definition insert_at (pl : nat) (tosort : list nat) (pi : nat) : list nat :=
  let vi := nth pi tosort 0%nat in
  let vp := nth vi v 0 in
  let '(tosort, pj) := shift_down vp pl tosort pi in
  <[pj := vi]> tosort.

(** [for (pi = pl + 1; pi <= pr; ++pi)] *)
Definition insertion_sort (tosort : list nat) (pl pr : nat) : list nat :=
  foldl (insert_at pl) tosort (seq (S pl) (pr - pl)).

(** The outer [while (1)].  When the depth allowance is used up numpy
    sorts the stretch by heapsort, which is not part of the embedding:
    the result is [None] there. *)
Fixpoint run (fuel : nat) (tosort : list nat) (pl pr : nat)
    (stack : list (nat * nat * Z)) (cdepth : Z) : option (list nat) :=
  match fuel with
  | O => None
  | S fuel' =>
      if cdepth <? 0 then None
      else
        let '(tosort, pl, pr, stack, cdepth) :=
          partition_loop (length tosort) tosort pl pr stack cdepth in
        let tosort := insertion_sort tosort pl pr in
        match stack with
        | [] => Some tosort
        | (pl, pr, cdepth) :: stack => run fuel' tosort pl pr stack cdepth
        end
  end.

(** [aquicksort(v, tosort, num)] on [tosort = 0 .. num - 1]; the depth
    allowance is [npy_get_msb(num) * 2]. *)
Definition aquicksort : option (list nat) :=
  let num := length v in
  run (S num) (seq 0 num) 0 (num - 1) [] (2 * Z.log2 (Z.of_nat num)).

End Keys.

(** [keys.argsort(kind='quicksort')], where the embedding covers it. *)
Definition argsort (keys : list Z) : list nat :=
  default (seq 0 (length keys)) (aquicksort keys).

End NumpySort.

(** ** Sample tables *)

Module Sample.

Definition num (x : Z) : cell := Flt (Num (inject_Z x)).
Definition day1 (y m : Z) : cell := Date (mkTimestamp y m 1).

(** Three quarters out of order, as read from a CSV file. *)
Definition unsorted : DataFrame :=
  mkDataFrame ["Quarter"; "LFPR"; "ER"; "UR"; "UER"]
    [[Str "2015 Q2"; num 64; num 94; num 6; num 18];
     [Str "2014 Q1"; num 63; num 93; num 7; num 19];
     [Str "2014 Q4"; num 65; num 95; num 5; num 17]].

Definition sorted : DataFrame :=
  mkDataFrame ["Quarter"; "LFPR"; "ER"; "UR"; "UER"; "Date"]
    [[Str "2014 Q1"; num 63; num 93; num 7; num 19; day1 2014 1];
     [Str "2014 Q4"; num 65; num 95; num 5; num 17; day1 2014 10];
     [Str "2015 Q2"; num 64; num 94; num 6; num 18; day1 2015 4]].

(** Eighteen rows in the order of their quarters, two of them (LFPR 67
    and 68) of the same quarter 2015 Q4. *)
Definition repeated : DataFrame :=
  mkDataFrame ["Quarter"; "LFPR"; "ER"; "UR"; "UER"]
    [[Str "2014 Q1"; num 60; num 94; num 6; num 18];
     [Str "2014 Q2"; num 61; num 94; num 6; num 18];
     [Str "2014 Q3"; num 62; num 94; num 6; num 18];
     [Str "2014 Q4"; num 63; num 94; num 6; num 18];
     [Str "2015 Q1"; num 64; num 94; num 6; num 18];
     [Str "2015 Q2"; num 65; num 94; num 6; num 18];
     [Str "2015 Q3"; num 66; num 94; num 6; num 18];
     [Str "2015 Q4"; num 67; num 94; num 6; num 18];
     [Str "2015 Q4"; num 68; num 94; num 6; num 18];
     [Str "2016 Q1"; num 69; num 94; num 6; num 18];
     [Str "2016 Q2"; num 70; num 94; num 6; num 18];
     [Str "2016 Q3"; num 71; num 94; num 6; num 18];
     [Str "2016 Q4"; num 72; num 94; num 6; num 18];
     [Str "2017 Q1"; num 73; num 94; num 6; num 18];
     [Str "2017 Q2"; num 74; num 94; num 6; num 18];
     [Str "2017 Q3"; num 75; num 94; num 6; num 18];
     [Str "2017 Q4"; num 76; num 94; num 6; num 18];
     [Str "2018 Q1"; num 77; num 94; num 6; num 18]].

(** A table without the UR and UER columns. *)
Definition two_missing : DataFrame :=
  mkDataFrame ["Quarter"; "LFPR"; "ER"]
    [[Str "2014 Q1"; num 63; num 93]].

(** A table whose second label cannot be parsed. *)
Definition bad_label : DataFrame :=
  mkDataFrame ["Quarter"; "LFPR"; "ER"; "UR"; "UER"]
    [[Str "2014 Q1"; num 63; num 93; num 7; num 19];
     [Str "2014-Q2"; num 63; num 93; num 7; num 19]].

(** Six consecutive quarters as the loader leaves them. *)
Definition loaded : DataFrame :=
  mkDataFrame ["Quarter"; "LFPR"; "ER"; "UR"; "UER"; "Date"]
    [[Str "2014 Q1"; num 63; num 93; num 7; num 19; day1 2014 1];
     [Str "2014 Q2"; num 64; num 94; num 6; num 18; day1 2014 4];
     [Str "2014 Q3"; num 65; num 95; num 5; num 17; day1 2014 7];
     [Str "2014 Q4"; num 64; num 94; num 6; num 18; day1 2014 10];
     [Str "2015 Q1"; num 63; num 93; num 7; num 19; day1 2015 1];
     [Str "2015 Q2"; num 64; num 94; num 6; num 20; day1 2015 4]].

(** The loaded table with one more column, blank in one row. *)
Definition with_notes : DataFrame :=
  mkDataFrame ["Quarter"; "LFPR"; "ER"; "UR"; "UER"; "Notes"; "Date"]
    [[Str "2014 Q1"; num 63; num 93; num 7; num 19; Str "a"; day1 2014 1];
     [Str "2014 Q2"; num 64; num 94; num 6; num 18; Str "b"; day1 2014 4];
     [Str "2014 Q3"; num 65; num 95; num 5; num 17; Str "c"; day1 2014 7];
     [Str "2014 Q4"; num 64; num 94; num 6; num 18; Str "d"; day1 2014 10];
     [Str "2015 Q1"; num 63; num 93; num 7; num 19; Flt NaN; day1 2015 1];
     [Str "2015 Q2"; num 64; num 94; num 6; num 20; Str "f"; day1 2015 4]].

(** A loaded table whose UR is 0 in one quarter. *)
Definition with_zero : DataFrame :=
  mkDataFrame ["Quarter"; "LFPR"; "ER"; "UR"; "UER"; "Date"]
    [[Str "2014 Q1"; num 63; num 93; num 7; num 19; day1 2014 1];
     [Str "2014 Q2"; num 64; num 94; num 6; num 18; day1 2014 4];
     [Str "2014 Q3"; num 65; num 95; num 5; num 17; day1 2014 7];
     [Str "2014 Q4"; num 64; num 100; num 0; num 18; day1 2014 10];
     [Str "2015 Q1"; num 63; num 95; num 5; num 19; day1 2015 1];
     [Str "2015 Q2"; num 64; num 94; num 6; num 20; day1 2015 4]].

(** A loaded table with an inconsistent row (ER + UR = 93) and an
    outlying UER. *)
Definition with_outlier : DataFrame :=
  mkDataFrame ["Quarter"; "LFPR"; "ER"; "UR"; "UER"; "Date"]
    [[Str "2014 Q1"; num 63; num 93; num 7; num 19; day1 2014 1];
     [Str "2014 Q2"; num 63; num 93; num 7; num 19; day1 2014 4];
     [Str "2014 Q3"; num 63; num 93; num 0; num 20; day1 2014 7];
     [Str "2014 Q4"; num 63; num 93; num 7; num 19; day1 2014 10];
     [Str "2015 Q1"; num 63; num 93; num 7; num 19; day1 2015 1];
     [Str "2015 Q2"; num 63; num 93; num 7; num 38; day1 2015 4]].

(** A crude square root, enough to run the z-score branch. *)
Definition sqrt (x : Q) : Q :=
  Qred (fold_right (fun _ g => (g + x / g) / 2)%Q 1%Q (seq 0 6)).

End Sample.

(** Every row of a table has one cell per column. *)
Definition rectangular (df : DataFrame) : bool :=
  forallb (fun row => (length row =? length (columns df))%nat) (rows df).

(** ** Shapes of columns *)

Definition is_flt (c : cell) : bool :=
  match c with Flt _ => true | _ => false end.

(** A cell of a datetime column: a timestamp or NaT. *)
Definition is_datetime (c : cell) : bool :=
  match c with Date _ | Flt NaN => true | _ => false end.

(** A finite number other than zero. *)
Definition is_nonzero (c : cell) : bool :=
  match c with
  | Flt (Num x) => negb (Float.is_zero x)
  | _ => false
  end.

(** The column [name] exists and all its cells satisfy [p]. *)
Definition column_all (p : cell -> bool) (name : string) (df : DataFrame)
  : bool :=
  match DF.get name df with
  | Ok col => forallb p col
  | Err _ => false
  end.

(** No cell of the table is missing. *)
Definition complete (df : DataFrame) : bool :=
  forallb DF.row_complete (rows df).

(** Values that are finite and not zero. *)
Definition nonzero (a : float) : Prop :=
  ∃ x, a = Num x ∧ Float.is_zero x = false.

(** None of the four indicator columns has a missing value. *)
Definition no_missing_indicators (df : DataFrame) : bool :=
  forallb (fun name => column_all (fun c => is_flt c && negb (isna c)) name df)
          Config.INDICATORS.

Definition is_date (c : cell) : bool :=
  match c with Date _ => true | _ => false end.

(** A dataset as the validator expects it: the required columns, numeric
    indicators, a [Date] column of timestamps and at least one row. *)
Definition is_dataset (df : DataFrame) : bool :=
  column_all (fun _ => true) "Quarter" df
  && forallb (fun name => column_all is_flt name df) Config.INDICATORS
  && column_all is_date "Date" df
  && negb (Nat.eqb (DF.len df) 0).

(** ** Queries of the loader ([data_loader.py]) *)

(** The errors of the query methods: their two [ValueError]s, and whatever
    the column access raises. *)
Inductive loader_exn : Type :=
| NoDataLoaded                           (* ValueError("No data loaded...") *)
| InvalidIndicator (indicator : string)  (* ValueError(f"Invalid indicator: ...") *)
| Raised (e : exn).

(** [DataLoader.get_indicator_data] *)
Definition get_indicator_data (self : DataLoader) (indicator : string)
  : loader_exn + Series :=
  match data self with
  | None => inl NoDataLoaded
  | Some df =>
      if bool_decide (indicator ∈ Config.INDICATORS)
      then match DF.get indicator df with
           | Ok col => inr col
           | Err e => inl (Raised e)
           end
      else inl (InvalidIndicator indicator)
  end.

(** [DataLoader.get_date_range]; [None] is Python's [None]. *)
Definition get_date_range (self : DataLoader)
  : result (option cell * option cell) :=
  match data self with
  | None => Ok (None, None)
  | Some df =>
      quarter ← DF.get "Quarter" df;
      first ← DF.iloc_first quarter;
      quarter ← DF.get "Quarter" df;
      last ← DF.iloc_last quarter;
      Ok (Some first, Some last)
  end.

(** The first day of the quarter number [k] counted from year 0: quarter
    [k mod 4 + 1] of year [k / 4]. *)
Definition quarter_start (k : Z) : Timestamp :=
  mkTimestamp (k / 4) (3 * (k mod 4) + 1) 1.

(** A finite number within the valid range 0..100 of an indicator. *)
Definition in_range (c : cell) : bool :=
  match c with
  | Flt (Num x) => Qle_bool 0 x && Qle_bool x 100
  | _ => false
  end.

(** The ordinal of the first day of quarter number [k]. *)
Definition quarter_ordinal (k : Z) : Z := Calendar.toordinal (quarter_start k).

(** A [Date] column that holds the first days of the quarters [ks]. *)
Definition quarter_dates (ks : list Z) : Series :=
  (fun k => Date (quarter_start k)) <$> ks.

(** Two successive rows that are at least two quarters apart. *)
Definition skips_quarter (step : Z * Z) : bool := 2 <=? step.2 - step.1.

(** * Properties *)

(** Closed decidable goals (membership in a concrete list, ...). *)
Ltac by_compute := apply (bool_decide_unpack _); vm_compute; exact I.

(** ** The result monad *)

Lemma bind_Ok {A B} (m : result A) (f : A -> result B) (b : B) :
  m ≫= f = Ok b ↔ ∃ a, m = Ok a ∧ f a = Ok b.
Proof.
  destruct m as [a|e]; simpl.
  - split; [eauto | intros (a' & [= <-] & ?); done].
  - split; [done | intros (a' & ? & ?); done].
Qed.

Lemma mapM_Ok_length {A B} (f : A -> result B) (l : list A) (k : list B) :
  mapM f l = Ok k → length k = length l.
Proof.
  revert k; induction l as [|x l IH]; intros k; simpl.
  - intros [= <-]; done.
  - destruct (f x) as [y|]; simpl; [|done].
    destruct (mapM f l) as [ys|]; simpl; [|done].
    intros [= <-]; simpl; f_equal; auto.
Qed.

Lemma mapM_Ok_lookup {A B} (f : A -> result B) (l : list A) (k : list B) i x :
  mapM f l = Ok k → l !! i = Some x → ∃ y, k !! i = Some y ∧ f x = Ok y.
Proof.
  revert k i; induction l as [|a l IH]; intros k i; simpl; [done|].
  destruct (f a) as [y|] eqn:Hy; simpl; [|done].
  destruct (mapM f l) as [ys|]; simpl; [|done].
  intros [= <-]. destruct i as [|i]; simpl.
  - intros [= <-]; eauto.
  - intros Hx. eapply IH; eauto.
Qed.

Lemma mapM_total {A B} (f : A -> result B) (l : list A) :
  Forall (fun x => is_ok (f x) = true) l → ∃ k, mapM f l = Ok k.
Proof.
  induction 1 as [|x l Hx _ [k IH]]; simpl; [eauto|].
  destruct (f x) as [y|]; [|done]. simpl. rewrite IH. simpl; eauto.
Qed.

(** ** DataFrames *)

Lemma rectangular_Forall df :
  rectangular df = true ↔
  Forall (fun row => length row = length (columns df)) (rows df).
Proof.
  unfold rectangular. rewrite forallb_forall, Forall_forall.
  split; intros H row Hrow.
  - apply Nat.eqb_eq, H, list_elem_of_In, Hrow.
  - apply Nat.eqb_eq, H, list_elem_of_In, Hrow.
Qed.

Lemma index_of_Some name cols j :
  DF.index_of name cols = Some j → cols !! j = Some name.
Proof.
  revert j; induction cols as [|c cols IH]; intros j; simpl; [done|].
  destruct (String.eqb_spec c name) as [->|Hne].
  - intros [= <-]; done.
  - destruct (DF.index_of name cols) as [j'|]; simpl; [|done].
    intros [= <-]; simpl; auto.
Qed.

Lemma index_of_app_other name name' cols :
  name' ≠ name →
  DF.index_of name' (cols ++ [name]) = DF.index_of name' cols.
Proof.
  intros Hne. induction cols as [|c cols IH]; simpl.
  - destruct (String.eqb_spec name name'); [congruence|done].
  - destruct (String.eqb c name'); [done|]. by rewrite IH.
Qed.

Lemma index_of_app_fresh name cols :
  DF.index_of name cols = None →
  DF.index_of name (cols ++ [name]) = Some (length cols).
Proof.
  induction cols as [|c cols IH]; simpl.
  - by rewrite String.eqb_refl.
  - destruct (String.eqb c name); [done|].
    destruct (DF.index_of name cols); simpl; [done|].
    intros _. by rewrite IH.
Qed.

Lemma len_set name s df : DF.len (DF.set name s df) = DF.len df.
Proof.
  unfold DF.len, DF.set.
  destruct (DF.index_of name (columns df)); simpl; by rewrite length_imap.
Qed.

Lemma rectangular_set name s df :
  rectangular df = true → rectangular (DF.set name s df) = true.
Proof.
  rewrite !rectangular_Forall, !Forall_lookup. intros H i row.
  unfold DF.set.
  destruct (DF.index_of name (columns df)) as [j|]; simpl;
    rewrite list_lookup_imap; intros Hrow;
    apply fmap_Some in Hrow as (row0 & Hrow0 & ->);
    apply H in Hrow0.
  - by rewrite length_insert.
  - rewrite !length_app; simpl; lia.
Qed.

Lemma get_set_ne name name' s df :
  rectangular df = true → name' ≠ name →
  DF.get name' (DF.set name s df) = DF.get name' df.
Proof.
  rewrite rectangular_Forall, Forall_lookup. intros Hrect Hne.
  unfold DF.get, DF.set.
  destruct (DF.index_of name (columns df)) as [j|] eqn:Hj; simpl.
  - destruct (DF.index_of name' (columns df)) as [j'|] eqn:Hj'; [|done].
    f_equal. apply list_eq; intros i.
    rewrite !list_lookup_fmap, list_lookup_imap.
    destruct (rows df !! i) as [row|]; simpl; [|done].
    f_equal. unfold DF.cell_at. rewrite !nth_lookup.
    rewrite list_lookup_insert_ne; [done|].
    intros ->. apply index_of_Some in Hj, Hj'. congruence.
  - rewrite index_of_app_other by done.
    destruct (DF.index_of name' (columns df)) as [j'|] eqn:Hj'; [|done].
    f_equal. apply list_eq; intros i.
    rewrite !list_lookup_fmap, list_lookup_imap.
    destruct (rows df !! i) as [row|] eqn:Hrow; simpl; [|done].
    f_equal. unfold DF.cell_at. rewrite !nth_lookup.
    rewrite lookup_app_l; [done|].
    rewrite (Hrect _ _ Hrow). apply index_of_Some in Hj'.
    by apply lookup_lt_Some in Hj'.
Qed.

Lemma get_set_eq name s df :
  rectangular df = true →
  DF.get name (DF.set name s df)
  = Ok (imap (fun i _ => nth i s (Flt NaN)) (rows df)).
Proof.
  rewrite rectangular_Forall, Forall_lookup. intros Hrect.
  unfold DF.get, DF.set.
  destruct (DF.index_of name (columns df)) as [j|] eqn:Hj; simpl.
  - rewrite Hj. f_equal. apply list_eq; intros i.
    rewrite !list_lookup_fmap, !list_lookup_imap.
    destruct (rows df !! i) as [row|] eqn:Hrow; simpl; [|done].
    f_equal. unfold DF.cell_at. rewrite nth_lookup.
    rewrite list_lookup_insert_eq; [done|].
    rewrite (Hrect _ _ Hrow). apply index_of_Some in Hj.
    by apply lookup_lt_Some in Hj.
  - rewrite index_of_app_fresh by done. f_equal. apply list_eq; intros i.
    rewrite !list_lookup_fmap, !list_lookup_imap.
    destruct (rows df !! i) as [row|] eqn:Hrow; simpl; [|done].
    f_equal. unfold DF.cell_at. rewrite nth_lookup.
    rewrite list_lookup_middle; [done|]. symmetry; eauto.
Qed.

Lemma imap_nth_same {A B} (d : A) (s : list A) (l : list B) :
  length s = length l → imap (fun i _ => nth i s d) l = s.
Proof.
  intros Hlen. apply list_eq; intros i. rewrite list_lookup_imap.
  destruct (l !! i) as [x|] eqn:Hx; simpl.
  - apply lookup_lt_Some in Hx.
    destruct (lookup_lt_is_Some_2 s i) as [y Hy]; [lia|].
    by rewrite nth_lookup, Hy.
  - apply lookup_ge_None in Hx. symmetry. apply lookup_ge_None. lia.
Qed.

Lemma get_length name df col :
  DF.get name df = Ok col → length col = DF.len df.
Proof.
  unfold DF.get, DF.len. destruct (DF.index_of name (columns df)); [|done].
  intros [= <-]. by rewrite length_fmap.
Qed.

(** ** Quarter parser *)

(** C4, as amended: [parse_quarter] fails exactly when the label has
    fewer than two whitespace-separated tokens, or its first token is not
    an integer literal, or its second token is not an integer literal once
    every Q is deleted; each failure is the one invalid-format error, and
    in every other case the pair of the two integers is returned, whatever
    their range and whatever follows the second token. *)
Theorem parse_quarter_fails_iff (label : string) :
  let parts := PyStr.split (PyStr.strip label) in
  (is_ok (parse_quarter label) = false ↔
     (length parts < 2)%nat
     ∨ (∃ p0, parts !! 0%nat = Some p0 ∧ PyStr.int p0 = None)
     ∨ (∃ p1, parts !! 1%nat = Some p1
              ∧ PyStr.int (PyStr.remove_char "Q" p1) = None))
  ∧ (is_ok (parse_quarter label) = false ↔
       parse_quarter label = Err InvalidQuarterFormat)
  ∧ (∀ p0 p1 year quarter,
       parts !! 0%nat = Some p0 → parts !! 1%nat = Some p1 →
       PyStr.int p0 = Some year →
       PyStr.int (PyStr.remove_char "Q" p1) = Some quarter →
       parse_quarter label = Ok (year, quarter)).
Proof.
  unfold parse_quarter.
  destruct (PyStr.split (PyStr.strip label)) as [|p0 [|p1 rest]]; simpl.
  - repeat split; try done; intros; try (left; lia).
  - repeat split; try done; intros; try (left; lia).
  - destruct (PyStr.int p0) as [y|] eqn:H0;
      destruct (PyStr.int (PyStr.remove_char "Q" p1)) as [q|] eqn:H1; simpl.
    + repeat split; try done.
      * intros [?|[(? & [= <-] & ?)|(? & [= <-] & ?)]]; [lia|congruence..].
      * intros; simplify_eq; done.
    + repeat split; try done; intros; simplify_eq.
      right; right; eauto.
    + repeat split; try done; intros; simplify_eq.
      right; left; eauto.
    + repeat split; try done; intros; simplify_eq.
      right; left; eauto.
Qed.

(** C4, as stated, fails: the label "2014 Q5" has a quarter digit outside
    1..4 and is parsed to the pair (2014, 5). *)
Lemma parse_quarter_accepts_out_of_range :
  ¬ (∀ label, spec_label_shape label = false →
              is_ok (parse_quarter label) = false).
Proof.
  intros H. specialize (H "2014 Q5" eq_refl). vm_compute in H. done.
Qed.

(** ** Normalization *)

Section NormalizeProperties.

Variable sqrt : Q -> Q.

Lemma normalize_loop_unknown method df names :
  method ≠ "zscore" → method ≠ "minmax" →
  normalize_loop sqrt method df names = Ok df.
Proof.
  intros Hz Hm. induction names as [|indicator names IH]; simpl; [done|].
  unfold normalize_step.
  destruct (String.eqb_spec method "zscore"); [done|].
  destruct (String.eqb_spec method "minmax"); [done|].
  simpl. exact IH.
Qed.

(** C9, as amended: for a method that is neither 'zscore' nor 'minmax',
    [normalize_indicators] raises nothing and returns the stored table
    unchanged, for any list of indicator names. *)
Theorem normalize_indicators_unknown_method self names method :
  method ≠ "zscore" → method ≠ "minmax" →
  normalize_indicators sqrt self names method = Ok (p_data self).
Proof. apply normalize_loop_unknown. Qed.

End NormalizeProperties.

(** C9, as stated, fails: with the unknown method 'robust' a table comes
    back and no error is raised. *)
Lemma normalize_indicators_unknown_method_no_error :
  ¬ (∀ self names method,
       method ≠ "zscore" → method ≠ "minmax" →
       is_ok (normalize_indicators Sample.sqrt self names method) = false).
Proof.
  intros H.
  specialize (H (mkDataPreprocessor Sample.loaded) ["UR"] "robust").
  vm_compute in H. by discriminate H.
Qed.

Lemma normalize_indicators_unknown_method_witness :
  normalize_indicators Sample.sqrt (mkDataPreprocessor Sample.loaded)
    ["UR"; "UER"] "robust" = Ok Sample.loaded.
Proof.
  apply (normalize_indicators_unknown_method Sample.sqrt
           (mkDataPreprocessor Sample.loaded) ["UR"; "UER"] "robust");
    discriminate.
Defined.

(** ** Loader *)

Ltac unfold_loader :=
  unfold load_csv, sort_values, mbind, loader_bind, mret, loader_ret, lift,
    raise, set_metadata, set_data.

Section LoaderProperties.

Variable read_csv : string -> result DataFrame.
Variable argsort : list Z -> list nat.

(** C5: when a required column is absent from the table read, [load_csv]
    fails with the missing-columns error, which carries exactly the
    required columns that the table lacks; no dataset is returned and
    the loader is left as it was. *)
Theorem load_csv_missing_columns path df self :
  read_csv path = Ok df →
  (∃ c, c ∈ Config.REQUIRED_COLUMNS ∧ c ∉ columns df) →
  ∃ missing : gset string,
    load_csv read_csv argsort path self
      = (Err (MissingRequiredColumns missing), self)
    ∧ ∀ c, c ∈ missing ↔ c ∈ Config.REQUIRED_COLUMNS ∧ c ∉ columns df.
Proof.
  intros Hread (c & Hc & Hnc).
  exists (list_to_set Config.REQUIRED_COLUMNS ∖ list_to_set (columns df)).
  split.
  - unfold_loader. rewrite Hread. case_decide as Hempty; [|done].
    exfalso. eapply (not_elem_of_empty (C := gset string) c).
    rewrite <- Hempty. set_solver.
  - intros c'. set_solver.
Qed.

(** C8: whatever makes [load_csv] fail (the read, a missing column, a
    label that does not parse, a date out of range, an empty table), the
    loader keeps the dataset and the metadata it had before the call,
    and the result carries no dataset. *)
Theorem load_csv_failure_keeps_state path self e self' :
  load_csv read_csv argsort path self = (Err e, self') → self' = self.
Proof.
  unfold_loader. intros H.
  repeat (case_match; simplify_eq/=; try done).
Qed.

End LoaderProperties.

Lemma load_csv_missing_columns_witness :
  ∃ missing : gset string,
    load_csv (fun _ => Ok Sample.two_missing) stable_argsort "data.csv"
      new_loader = (Err (MissingRequiredColumns missing), new_loader)
    ∧ ∀ c, c ∈ missing ↔
           c ∈ Config.REQUIRED_COLUMNS ∧ c ∉ columns Sample.two_missing.
Proof.
  apply (load_csv_missing_columns (fun _ => Ok Sample.two_missing)
           stable_argsort "data.csv" Sample.two_missing new_loader).
  - reflexivity.
  - exists "UR". split; by_compute.
Defined.

Lemma load_csv_failure_keeps_state_witness :
  let self := mkDataLoader (Some Sample.sorted) None in
  load_csv (fun _ => Ok Sample.bad_label) stable_argsort "data.csv" self
    = (Err InvalidQuarterFormat, self)
  ∧ self = self.
Proof.
  intros self.
  assert (H : load_csv (fun _ => Ok Sample.bad_label) stable_argsort
                "data.csv" self = (Err InvalidQuarterFormat, self))
    by (vm_compute; reflexivity).
  split; [exact H|].
  exact (load_csv_failure_keeps_state (fun _ => Ok Sample.bad_label)
           stable_argsort "data.csv" self InvalidQuarterFormat self H).
Defined.

(** ** Sorting *)

Lemma insert_key_perm x l : insert_key x l ≡ₚ x :: l.
Proof.
  induction l as [|y l IH]; simpl; [done|].
  destruct (x.1 <=? y.1); [done|].
  rewrite IH. apply Permutation_swap.
Qed.

Lemma insertion_sort_perm l : foldr insert_key [] l ≡ₚ l.
Proof.
  induction l as [|x l IH]; simpl; [done|].
  by rewrite insert_key_perm, IH.
Qed.

Lemma insert_key_cases (x y : Z * nat) :
  (x.1 <=? y.1) = true ∧ key_le x y ∨ (x.1 <=? y.1) = false ∧ key_le y x.
Proof. unfold key_le. destruct (Z.leb_spec x.1 y.1); lia. Qed.

Lemma insert_key_sorted x l :
  Sorted key_le l → Sorted key_le (insert_key x l).
Proof.
  induction 1 as [|y l Hl IH Hhd]; simpl.
  - repeat constructor.
  - destruct (insert_key_cases x y) as [[-> Hxy]|[-> Hyx]].
    + constructor; [by constructor|by constructor].
    + constructor; [done|].
      destruct l as [|z l]; simpl in *; [by constructor|].
      inversion Hhd; subst.
      destruct (x.1 <=? z.1); by constructor.
Qed.

Lemma insertion_sort_sorted l : Sorted key_le (foldr insert_key [] l).
Proof.
  induction l as [|x l IH]; simpl; [constructor|by apply insert_key_sorted].
Qed.

Lemma zip_seq_keys (ks : list Z) :
  Forall (fun p : Z * nat => nth p.2 ks 0 = p.1) (zip ks (seq 0 (length ks))).
Proof.
  apply Forall_lookup. intros i [k j] Hi.
  apply lookup_zip_with_Some in Hi as (k' & j' & [= <- <-] & Hk & Hj).
  apply lookup_seq in Hj as [-> _]. simpl. by rewrite nth_lookup, Hk.
Qed.

Lemma insertion_argsort_perm ks :
  insertion_argsort ks ≡ₚ seq 0 (length ks).
Proof.
  unfold insertion_argsort. rewrite insertion_sort_perm.
  rewrite snd_zip; [done|]. by rewrite length_seq.
Qed.

Lemma insertion_argsort_sorted ks :
  Sorted Z.le ((fun i => nth i ks 0) <$> insertion_argsort ks).
Proof.
  unfold insertion_argsort.
  set (l := foldr insert_key [] (zip ks (seq 0 (length ks)))).
  assert (Hkeys : Forall (fun p : Z * nat => nth p.2 ks 0 = p.1) l).
  { unfold l. rewrite insertion_sort_perm. apply zip_seq_keys. }
  assert (Heq : (fun i => nth i ks 0) <$> l.*2 = l.*1).
  { clear -Hkeys. induction Hkeys as [|p l Hp _ IH]; [done|].
    rewrite !fmap_cons. by rewrite Hp, IH. }
  rewrite Heq. apply (Sorted_fmap fst key_le Z.le); [done|].
  apply insertion_sort_sorted.
Qed.

Lemma Sorted_fmap_inv {A B} (R : relation B) (f : A -> B) (l : list A) :
  Sorted R (f <$> l) → Sorted (fun x y => R (f x) (f y)) l.
Proof.
  induction l as [|x l IH]; simpl; [constructor|].
  intros H. inversion H as [|? ? Hl Hhd]; subst. constructor; [auto|].
  destruct l; simpl in *; [constructor|]. inversion Hhd; by constructor.
Qed.

(** With pairwise different keys there is one sorted order only. *)
Lemma sorted_indexer_unique (ks : list Z) (p1 p2 : list nat) :
  NoDup ks →
  p1 ≡ₚ seq 0 (length ks) → p2 ≡ₚ seq 0 (length ks) →
  Sorted Z.le ((fun i => nth i ks 0) <$> p1) →
  Sorted Z.le ((fun i => nth i ks 0) <$> p2) →
  p1 = p2.
Proof.
  intros Hnd Hp1 Hp2 Hs1 Hs2.
  apply Sorted_fmap_inv in Hs1, Hs2.
  set (R := fun i j : nat => nth i ks 0 ≤ nth j ks 0) in *.
  assert (Transitive R) by (intros x y z; unfold R; lia).
  apply (Sorted_unique_strong R p1 p2); [|done|done|by rewrite Hp1, Hp2].
  intros i j Hi Hj Hij Hji. unfold R in Hij, Hji.
  rewrite Hp1 in Hi. rewrite Hp2 in Hj.
  apply elem_of_seq in Hi, Hj.
  destruct (lookup_lt_is_Some_2 ks i) as [a Ha]; [lia|].
  destruct (lookup_lt_is_Some_2 ks j) as [c Hc]; [lia|].
  rewrite !nth_lookup, Ha, Hc in Hij, Hji. simpl in *.
  assert (a = c) as -> by lia.
  eapply NoDup_lookup; eauto.
Qed.

Lemma fmap_nth_seq {A} (d : A) (l : list A) :
  (fun i => nth i l d) <$> seq 0 (length l) = l.
Proof.
  apply list_eq; intros i. rewrite list_lookup_fmap.
  destruct (l !! i) as [x|] eqn:Hx.
  - rewrite (proj2 (lookup_seq 0 (length l) i i)).
    + simpl. by rewrite nth_lookup, Hx.
    + split; [done|]. by apply lookup_lt_Some in Hx.
  - apply lookup_ge_None in Hx.
    rewrite (proj2 (lookup_ge_None (seq 0 (length l)) i)); [done|].
    by rewrite length_seq.
Qed.

Lemma nth_fmap_default {A B} (f : A -> B) (l : list A) (d : A) i :
  nth i (f <$> l) (f d) = f (nth i l d).
Proof.
  rewrite !nth_lookup, list_lookup_fmap. by destruct (l !! i).
Qed.

Lemma get_take_rows name indexer df col :
  DF.get name df = Ok col →
  DF.get name (DF.take_rows indexer df)
  = Ok ((fun i => nth i col (Flt NaN)) <$> indexer).
Proof.
  unfold DF.get, DF.take_rows; simpl.
  destruct (DF.index_of name (columns df)) as [j|]; [|done].
  intros [= <-]. f_equal. rewrite <- list_fmap_compose.
  apply list_fmap_ext. intros _ i _. simpl.
  replace (Flt NaN) with (DF.cell_at j []) at 1
    by (unfold DF.cell_at; by destruct j).
  by rewrite nth_fmap_default.
Qed.

Section LoaderOrder.

Variable read_csv : string -> result DataFrame.
Variable argsort : list Z -> list nat.

(** What every sorting algorithm behind [sort_values] guarantees: the
    indexer is a rearrangement of the positions and lists the keys in
    non-decreasing order. *)
Hypothesis argsort_perm : ∀ keys, argsort keys ≡ₚ seq 0 (length keys).
Hypothesis argsort_sorted :
  ∀ keys, Sorted Z.le ((fun i => nth i keys 0) <$> argsort keys).

Lemma load_csv_Ok path self df self' :
  load_csv read_csv argsort path self = (Ok df, self') →
  ∃ raw quarter ts dates,
    read_csv path = Ok raw
    ∧ DF.get "Quarter" raw = Ok quarter
    ∧ mapM apply_quarter_to_date quarter = Ok ts
    ∧ DF.get "Date" (DF.set "Date" (Date <$> ts) raw) = Ok dates
    ∧ df = DF.take_rows (argsort (date_key <$> dates))
             (DF.set "Date" (Date <$> ts) raw).
Proof.
  unfold_loader. intros H.
  repeat (case_match; simplify_eq/=; try done).
  repeat match goal with
         | H : _ ≫= _ = Ok _ |- _ => apply bind_Ok in H as (? & ? & ?)
         end.
  simplify_eq. eauto 10.
Qed.

(** C6, as amended: after a successful load the rows are a rearrangement
    of the rows read (each with its derived date), in non-decreasing
    order of that date; when no two rows have the same date this is
    exactly the order of a stable sort.  Nothing is promised about the
    relative order of rows whose dates tie. *)
Theorem load_csv_sorted path self df self' :
  load_csv read_csv argsort path self = (Ok df, self') →
  ∃ raw quarter ts,
    read_csv path = Ok raw
    ∧ DF.get "Quarter" raw = Ok quarter
    ∧ mapM apply_quarter_to_date quarter = Ok ts
    ∧ let dated := DF.set "Date" (Date <$> ts) raw in
      columns df = columns dated
      ∧ rows df ≡ₚ rows dated
      ∧ (∃ dates, DF.get "Date" df = Ok dates
                  ∧ Sorted Z.le (date_key <$> dates))
      ∧ (rectangular raw = true → DF.get "Date" dated = Ok (Date <$> ts))
      ∧ (∀ col, DF.get "Date" dated = Ok col →
                NoDup (date_key <$> col) →
                df = DF.take_rows (stable_argsort (date_key <$> col)) dated).
Proof using argsort_perm argsort_sorted.
  intros Hload.
  apply load_csv_Ok in Hload
    as (raw & quarter & ts & dates & Hread & Hq & Hts & Hdates & ->).
  exists raw, quarter, ts. repeat split; try done.
  - simpl. rewrite (argsort_perm (date_key <$> dates)).
    rewrite length_fmap, (get_length _ _ _ Hdates). unfold DF.len.
    by rewrite fmap_nth_seq.
  - eexists. split; [by apply get_take_rows|].
    rewrite <- list_fmap_compose.
    erewrite list_fmap_ext; [apply (argsort_sorted (date_key <$> dates))|].
    intros _ i _. simpl.
    by rewrite <- (nth_fmap_default date_key dates (Flt NaN)).
  - intros Hrect. rewrite get_set_eq by done. f_equal.
    apply imap_nth_same. rewrite length_fmap.
    rewrite (mapM_Ok_length _ _ _ Hts). by apply get_length in Hq.
  - intros col Hcol Hnd. rewrite Hdates in Hcol. simplify_eq. f_equal.
    apply (sorted_indexer_unique (date_key <$> col)); auto.
    + apply insertion_argsort_perm.
    + apply insertion_argsort_sorted.
Qed.

End LoaderOrder.

Lemma load_csv_sorted_witness :
  ∃ raw quarter ts,
    Ok Sample.unsorted = Ok raw
    ∧ DF.get "Quarter" raw = Ok quarter
    ∧ mapM apply_quarter_to_date quarter = Ok ts
    ∧ let dated := DF.set "Date" (Date <$> ts) raw in
      columns Sample.sorted = columns dated
      ∧ rows Sample.sorted ≡ₚ rows dated
      ∧ (∃ dates, DF.get "Date" Sample.sorted = Ok dates
                  ∧ Sorted Z.le (date_key <$> dates))
      ∧ (rectangular raw = true → DF.get "Date" dated = Ok (Date <$> ts))
      ∧ (∀ col, DF.get "Date" dated = Ok col →
                NoDup (date_key <$> col) →
                Sample.sorted
                = DF.take_rows (stable_argsort (date_key <$> col)) dated).
Proof.
  apply (load_csv_sorted (fun _ => Ok Sample.unsorted) stable_argsort
           insertion_argsort_perm insertion_argsort_sorted
           "data.csv" new_loader Sample.sorted
           (mkDataLoader (Some Sample.sorted)
              (Some (mkMetadata "data.csv" 3 (Str "2014 Q1") (Str "2015 Q2")
                       (columns Sample.sorted))))).
  vm_compute. reflexivity.
Defined.

(** C6, as stated, fails at [Sample.repeated], a table of eighteen rows
    already in the order of their quarters: the quicksort partitions the
    eighteen positions once, and the two rows of 2015 Q4 (LFPR 67, then
    68 in the input) come out in the other order. *)
Lemma load_csv_ties_can_swap :
  ∃ df self' dates quarters lfpr_in lfpr_out,
    load_csv (fun _ => Ok Sample.repeated) NumpySort.argsort "data.csv"
      new_loader = (Ok df, self')
    ∧ DF.get "Date" df = Ok dates
    ∧ NumpySort.aquicksort (date_key <$> dates)
      = Some [0; 1; 2; 3; 4; 5; 6; 8; 7; 9; 10; 11; 12; 13; 14; 15; 16; 17]%nat
    ∧ DF.get "Quarter" Sample.repeated = Ok quarters
    ∧ quarters !! 7%nat = Some (Str "2015 Q4")
    ∧ quarters !! 8%nat = Some (Str "2015 Q4")
    ∧ DF.get "LFPR" Sample.repeated = Ok lfpr_in
    ∧ lfpr_in !! 7%nat = Some (Sample.num 67)
    ∧ lfpr_in !! 8%nat = Some (Sample.num 68)
    ∧ dates !! 7%nat = Some (Sample.day1 2015 10)
    ∧ dates !! 8%nat = Some (Sample.day1 2015 10)
    ∧ DF.get "LFPR" df = Ok lfpr_out
    ∧ lfpr_out !! 7%nat = Some (Sample.num 68)
    ∧ lfpr_out !! 8%nat = Some (Sample.num 67).
Proof.
  do 6 eexists. split; [vm_compute; reflexivity|].
  split; [vm_compute; reflexivity|].
  split; [vm_compute; reflexivity|].
  split; [vm_compute; reflexivity|].
  repeat split; vm_compute; reflexivity.
Qed.

(** ** Columns of a given shape *)

Lemma column_all_get p name df :
  column_all p name df = true →
  ∃ col, DF.get name df = Ok col ∧ forallb p col = true.
Proof.
  unfold column_all. destruct (DF.get name df) as [col|]; [eauto|done].
Qed.

Lemma numeric_total e col :
  forallb is_flt col = true → ∃ v, numeric e col = Ok v ∧ col = of_floats v.
Proof.
  unfold numeric, of_floats.
  induction col as [|c col IH]; simpl; [by exists []|].
  intros [Hc Hcol]%andb_prop. destruct (IH Hcol) as (v & -> & Hv).
  destruct c as [a| |]; try done. exists (a :: v). simpl. by rewrite Hv at 1.
Qed.

Lemma numeric_of_floats e v : numeric e (of_floats v) = Ok v.
Proof.
  unfold numeric, of_floats. induction v as [|a v IH]; [done|].
  rewrite fmap_cons. cbn [mapM]. by rewrite IH.
Qed.

Lemma dt_total col : forallb is_datetime col = true → ∃ ts, mapM dt col = Ok ts.
Proof.
  induction col as [|c col IH]; simpl; [by exists []|].
  intros [Hc Hcol]%andb_prop. destruct (IH Hcol) as (ts & ->).
  destruct c as [[]| |]; try done; simpl; eauto.
Qed.

Lemma forallb_imap_nth (p : cell -> bool) (s : list cell) {B} (l : list B) :
  p (Flt NaN) = true → forallb p s = true →
  forallb p (imap (fun i _ => nth i s (Flt NaN)) l) = true.
Proof.
  intros Hd Hs. apply forallb_forall. intros c Hc.
  apply list_elem_of_In, list_elem_of_lookup in Hc as [i Hi].
  rewrite list_lookup_imap in Hi.
  apply fmap_Some in Hi as (_ & _ & ->).
  rewrite nth_lookup. destruct (s !! i) as [x|] eqn:Hx; simpl; [|done].
  rewrite forallb_forall in Hs. apply Hs, list_elem_of_In.
  by eapply list_elem_of_lookup_2.
Qed.

Lemma column_all_set_other p name name' s df :
  rectangular df = true → name ≠ name' →
  column_all p name (DF.set name' s df) = column_all p name df.
Proof.
  intros Hrect Hne. unfold column_all. by rewrite get_set_ne.
Qed.

(** Assigning a column of floats leaves every numeric column numeric. *)
Lemma column_all_flt_set name name' v df :
  rectangular df = true → column_all is_flt name df = true →
  column_all is_flt name (DF.set name' (of_floats v) df) = true.
Proof.
  intros Hrect Hcol. destruct (decide (name = name')) as [<-|Hne].
  - unfold column_all. rewrite get_set_eq by done.
    apply forallb_imap_nth; [done|].
    unfold of_floats. apply forallb_forall. intros c Hc.
    apply list_elem_of_In, list_elem_of_fmap in Hc as (a & -> & _). done.
  - by rewrite column_all_set_other.
Qed.

(** ** Feature steps of the preprocessor *)

Lemma bind_Ok_l {A B} (a : A) (f : A -> result B) : Ok a ≫= f = f a.
Proof. reflexivity. Qed.

Lemma is_ok_Ok {A} (r : result A) : is_ok r = true → ∃ a, r = Ok a.
Proof. destruct r; [eauto|done]. Qed.

Lemma create_temporal_features_total self :
  rectangular (p_data self) = true →
  column_all is_datetime "Date" (p_data self) = true →
  is_ok (create_temporal_features self) = true.
Proof.
  intros Hrect Hdate. unfold create_temporal_features.
  destruct (column_all_get _ _ _ Hdate) as (col & Hget & Hcol).
  destruct (dt_total _ Hcol) as (ts & Hts).
  assert (Hne : ∀ name s df,
             rectangular df = true → name ≠ "Date" →
             DF.get "Date" (DF.set name s df) = DF.get "Date" df).
  { intros name s df ? ?. by apply get_set_ne. }
  rewrite Hget, bind_Ok_l, Hts, bind_Ok_l.
  set (df1 := DF.set "Year" _ _).
  assert (Hrect1 : rectangular df1 = true) by by apply rectangular_set.
  assert (Hget1 : DF.get "Date" df1 = Ok col) by by (unfold df1; rewrite Hne).
  rewrite Hget1, bind_Ok_l, Hts, bind_Ok_l.
  set (df2 := DF.set "QuarterNum" _ _).
  assert (Hrect2 : rectangular df2 = true) by by apply rectangular_set.
  assert (Hget2 : DF.get "Date" df2 = Ok col) by by (unfold df2; rewrite Hne).
  assert (Hq2 : column_all is_flt "QuarterNum" df2 = true).
  { unfold column_all, df2. rewrite get_set_eq by done.
    apply forallb_imap_nth; [done|]. apply forallb_forall. intros c Hc.
    apply list_elem_of_In, list_elem_of_fmap in Hc as ([t|] & -> & _); done. }
  rewrite Hget2, bind_Ok_l, Hts, bind_Ok_l.
  set (df3 := DF.set "Month" _ _).
  assert (Hrect3 : rectangular df3 = true) by by apply rectangular_set.
  assert (Hq3 : column_all is_flt "QuarterNum" df3 = true).
  { unfold df3. by rewrite column_all_set_other. }
  destruct (column_all_get _ _ _ Hq3) as (q & Hgetq & Hq).
  destruct (numeric_total TypeError _ Hq) as (v & Hv & _).
  rewrite Hgetq, bind_Ok_l, Hv, bind_Ok_l.
  set (df4 := DF.set "Quarter_sin" _ _).
  assert (Hq4 : column_all is_flt "QuarterNum" df4 = true).
  { unfold df4. by apply column_all_flt_set. }
  destruct (column_all_get _ _ _ Hq4) as (q' & Hgetq' & Hq').
  destruct (numeric_total TypeError _ Hq') as (v' & Hv' & _).
  by rewrite Hgetq', bind_Ok_l, Hv', bind_Ok_l.
Qed.

Lemma add_lag_features_total self target lags :
  column_all is_flt target (p_data self) = true →
  is_ok (add_lag_features self [target] lags) = true.
Proof.
  intros Hcol. destruct (column_all_get _ _ _ Hcol) as (col & Hget & _).
  unfold add_lag_features. cbn [add_lag_features_loop].
  by rewrite Hget, bind_Ok_l.
Qed.

Lemma add_moving_averages_inner_total df target windows :
  rectangular df = true → column_all is_flt target df = true →
  is_ok (add_moving_averages_inner df target windows) = true.
Proof.
  revert df. induction windows as [|w windows IH]; intros df Hrect Hcol;
    [done|].
  destruct (column_all_get _ _ _ Hcol) as (col & Hget & Hflt).
  destruct (numeric_total DataError _ Hflt) as (v & Hv & _).
  cbn [add_moving_averages_inner]. unfold calculate_moving_average.
  rewrite Hget, bind_Ok_l, Hv, !bind_Ok_l.
  apply IH; [by apply rectangular_set|by apply column_all_flt_set].
Qed.

Lemma add_moving_averages_total self target windows :
  rectangular (p_data self) = true →
  column_all is_flt target (p_data self) = true →
  is_ok (add_moving_averages self [target] windows) = true.
Proof.
  intros Hrect Hcol. unfold add_moving_averages.
  cbn [add_moving_averages_loop].
  destruct (is_ok_Ok _ (add_moving_averages_inner_total _ _ windows Hrect Hcol))
    as (df & ->).
  done.
Qed.

Section PreprocessorProperties.

Variable fill_method_pad : bool.

Lemma prepare_for_modeling_eq self target lags ma temporal :
  rectangular (p_data self) = true →
  column_all is_datetime "Date" (p_data self) = true →
  column_all is_flt target (p_data self) = true →
  prepare_for_modeling fill_method_pad self target lags ma temporal
  = (df ← add_rate_of_change fill_method_pad self [target] default_periods;
     Ok (DF.dropna df)).
Proof.
  intros Hrect Hdate Hcol. unfold prepare_for_modeling.
  destruct (is_ok_Ok _ (create_temporal_features_total _ Hrect Hdate))
    as (df1 & H1).
  destruct (is_ok_Ok _ (add_lag_features_total _ _ [1; 2; 4]%nat Hcol))
    as (df2 & H2).
  destruct (is_ok_Ok _ (add_moving_averages_total _ _ [2; 4]%nat Hrect Hcol))
    as (df3 & H3).
  rewrite H1, H2, H3. by destruct lags, ma, temporal.
Qed.

End PreprocessorProperties.

(** ** Rate of change *)

Lemma append_neq (a : string) c s : a ≠ a +:+ String c s.
Proof. induction a as [|x a IH]; simpl; [done|]. intros [= H]. by apply IH. Qed.

Lemma ffill_from_id prev (v : list float) :
  forallb (fun a => negb (Float.isnan a)) v = true → Ser.ffill_from prev v = v.
Proof.
  revert prev. induction v as [|a v IH]; intros prev; simpl; [done|].
  intros [Ha Hv]%andb_prop. destruct (Float.isnan a); [done|].
  by rewrite IH.
Qed.

Lemma length_shift {A} (d : A) k (s : list A) :
  length (Ser.shift d k s) = length s.
Proof.
  unfold Ser.shift. rewrite length_app, length_replicate, length_take. lia.
Qed.

Lemma shift_lookup_lt {A} (d : A) k (s : list A) i :
  (i < k)%nat → (i < length s)%nat → Ser.shift d k s !! i = Some d.
Proof.
  intros Hk Hi. unfold Ser.shift.
  rewrite lookup_app_l by (rewrite length_replicate; lia).
  apply lookup_replicate_2. lia.
Qed.

Lemma shift_lookup_ge {A} (d : A) k (s : list A) i :
  (k ≤ i)%nat → (i < length s)%nat → Ser.shift d k s !! i = s !! (i - k)%nat.
Proof.
  intros Hk Hi. unfold Ser.shift.
  rewrite lookup_app_r by (rewrite length_replicate; lia).
  rewrite length_replicate, lookup_take_lt by lia. f_equal. lia.
Qed.

Lemma nonzero_of_cells col v :
  forallb is_nonzero col = true → col = of_floats v → Forall nonzero v.
Proof.
  intros Hcol ->. apply Forall_forall. intros a Ha.
  rewrite forallb_forall in Hcol.
  specialize (Hcol (Flt a)). destruct a as [| |x]; simpl in Hcol.
  - discriminate Hcol. apply list_elem_of_In, list_elem_of_fmap; eauto.
  - discriminate Hcol. apply list_elem_of_In, list_elem_of_fmap; eauto.
  - exists x. split; [done|]. apply negb_true_iff, Hcol.
    apply list_elem_of_In, list_elem_of_fmap; eauto.
Qed.

Lemma nonzero_notnan v :
  Forall nonzero v → forallb (fun a => negb (Float.isnan a)) v = true.
Proof.
  intros H. apply forallb_forall. intros a Ha%list_elem_of_In.
  rewrite Forall_forall in H. by destruct (H a Ha) as (x & -> & _).
Qed.

(** The rows in which a change column of a series of finite non-zero
    values is undefined are exactly the first [p] ones. *)
Lemma change_cell_isnan pad p v i :
  Forall nonzero v → (i < length v)%nat →
  ∃ c, ((fun a => Float.mul a (Num 100)) <$> Ser.pct_change pad p v) !! i
       = Some c
       ∧ Float.isnan c = bool_decide (i < p)%nat.
Proof.
  intros Hnz Hi. unfold Ser.pct_change.
  assert ((if pad then Ser.ffill v else v) = v) as ->.
  { destruct pad; [|done]. by apply ffill_from_id, nonzero_notnan. }
  rewrite list_lookup_fmap, lookup_zip_with.
  destruct (lookup_lt_is_Some_2 v i Hi) as [a Ha]. rewrite Ha. simpl.
  rewrite Forall_lookup in Hnz.
  destruct (Hnz _ _ Ha) as (x & -> & Hx).
  destruct (decide (i < p)%nat) as [Hlt|Hge].
  - rewrite shift_lookup_lt by done. simpl. eexists; split; [done|].
    by rewrite bool_decide_eq_true_2.
  - rewrite shift_lookup_ge by lia.
    destruct (lookup_lt_is_Some_2 v (i - p)%nat) as [b Hb]; [lia|].
    rewrite Hb. destruct (Hnz _ _ Hb) as (y & -> & Hy). simpl.
    rewrite Hy. simpl. eexists; split; [done|].
    by rewrite bool_decide_eq_false_2.
Qed.

(** Where the value [p] rows earlier is present and not zero, the change
    is the relative difference in percent. *)
Lemma change_cell_formula pad p v i a b :
  forallb (fun x => negb (Float.isnan x)) v = true →
  (p ≤ i)%nat → v !! i = Some (Num a) → v !! (i - p)%nat = Some (Num b) →
  Float.is_zero b = false →
  ∃ r, ((fun x => Float.mul x (Num 100)) <$> Ser.pct_change pad p v) !! i
       = Some (Num r)
       ∧ (r == (a - b) / b * 100)%Q.
Proof.
  intros Hv Hp Ha Hb Hz. unfold Ser.pct_change.
  assert ((if pad then Ser.ffill v else v) = v) as ->.
  { destruct pad; [|done]. by apply ffill_from_id. }
  rewrite list_lookup_fmap, lookup_zip_with, Ha. simpl.
  rewrite shift_lookup_ge; [|done|by apply lookup_lt_Some in Ha].
  rewrite Hb. simpl. rewrite Hz. simpl. eexists; split; [done|].
  unfold Float.is_zero in Hz. apply Qeq_bool_neq in Hz. by field.
Qed.

Lemma change_column_isna pad p col v i :
  col = of_floats v → Forall nonzero v → (i < length v)%nat →
  ∃ change, change_column pad col p = Ok change
    ∧ length change = length v
    ∧ isna (nth i change (Flt NaN)) = bool_decide (i < p)%nat.
Proof.
  intros -> Hnz Hi. unfold change_column.
  rewrite numeric_of_floats, bind_Ok_l. eexists; split; [done|].
  split.
  - unfold of_floats, Ser.pct_change. rewrite !length_fmap, length_zip_with.
    assert ((if pad then Ser.ffill v else v) = v) as ->.
    { destruct pad; [|done]. by apply ffill_from_id, nonzero_notnan. }
    rewrite length_shift. lia.
  - destruct (change_cell_isnan pad p v i Hnz Hi) as (c & Hc & Hnan).
    unfold of_floats. rewrite nth_lookup, list_lookup_fmap, Hc. simpl.
    by destruct c.
Qed.

(** ** Dropping incomplete rows *)

Lemma set_row_lookup name s df i row :
  rows df !! i = Some row →
  ∃ row', rows (DF.set name s df) !! i = Some row'
    ∧ (row' = row ++ [nth i s (Flt NaN)]
       ∨ ∃ j, row' = <[j := nth i s (Flt NaN)]> row
              ∧ DF.index_of name (columns df) = Some j).
Proof.
  intros Hrow. unfold DF.set.
  destruct (DF.index_of name (columns df)) as [j|]; simpl;
    rewrite list_lookup_imap, Hrow; simpl.
  - eexists; split; [done|]. right. by exists j.
  - eexists; split; [done|]. by left.
Qed.

Lemma row_complete_set name s df i row row' :
  rectangular df = true →
  rows df !! i = Some row →
  rows (DF.set name s df) !! i = Some row' →
  (DF.row_complete row' = true → isna (nth i s (Flt NaN)) = false)
  ∧ (DF.row_complete row = true → isna (nth i s (Flt NaN)) = false →
     DF.row_complete row' = true).
Proof.
  intros Hrect Hrow Hrow'.
  destruct (set_row_lookup name s df i row Hrow) as (r & Hr & Hcase).
  rewrite Hrow' in Hr. injection Hr as <-.
  unfold DF.row_complete.
  destruct Hcase as [->|(j & -> & Hj)].
  - rewrite forallb_app. simpl. split.
    + intros [_ H]%andb_prop. by destruct (isna _).
    + intros -> ->. done.
  - assert (Hlt : (j < length row)%nat).
    { apply rectangular_Forall in Hrect. rewrite Forall_lookup in Hrect.
      rewrite (Hrect _ _ Hrow). apply index_of_Some in Hj.
      by apply lookup_lt_Some in Hj. }
    split.
    + intros H. rewrite forallb_forall in H.
      apply negb_true_iff, H, list_elem_of_In.
      eapply list_elem_of_lookup_2. by apply list_lookup_insert_eq.
    + intros H Hc. apply forallb_forall. intros c Hin%list_elem_of_In.
      apply list_elem_of_lookup in Hin as [k Hk].
      destruct (decide (j = k)) as [->|Hne].
      * rewrite list_lookup_insert_eq in Hk by done. injection Hk as <-.
        by rewrite Hc.
      * rewrite list_lookup_insert_ne in Hk by done.
        rewrite forallb_forall in H. apply H, list_elem_of_In.
        by eapply list_elem_of_lookup_2.
Qed.

Lemma filter_from {A} (p : A -> bool) (l : list A) (n : nat) :
  (∀ i x, l !! i = Some x → p x = bool_decide (n ≤ i)%nat) →
  List.filter p l = drop n l.
Proof.
  revert n. induction l as [|x l IH]; intros n H; simpl.
  - by destruct n.
  - pose proof (H 0%nat x eq_refl) as Hx. destruct n as [|n].
    + rewrite Hx. simpl. f_equal. rewrite (IH 0%nat); [done|].
      intros i y Hy. rewrite (H (S i) y Hy). done.
    + rewrite Hx. simpl. apply IH.
      intros i y Hy. rewrite (H (S i) y Hy).
      apply bool_decide_ext. lia.
Qed.

(** ** Modeling table *)

Lemma forallb_impl {A} (p q : A -> bool) (l : list A) :
  (∀ x, p x = true → q x = true) → forallb p l = true → forallb q l = true.
Proof.
  intros Hpq. rewrite !forallb_forall. auto.
Qed.

Lemma is_nonzero_flt c : is_nonzero c = true → is_flt c = true.
Proof. by destruct c. Qed.

Section ModelingProperties.

Variable fill_method_pad : bool.

Lemma add_rate_of_change_default self target col :
  rectangular (p_data self) = true →
  DF.get target (p_data self) = Ok col →
  forallb is_flt col = true →
  ∃ change1 change4,
    change_column fill_method_pad col 1 = Ok change1
    ∧ change_column fill_method_pad col 4 = Ok change4
    ∧ add_rate_of_change fill_method_pad self [target] default_periods
      = Ok (DF.set (target +:+ "_change" +:+ nat_to_string 4) change4
              (DF.set (target +:+ "_change" +:+ nat_to_string 1) change1
                 (p_data self))).
Proof.
  intros Hrect Hget Hflt.
  destruct (numeric_total TypeError _ Hflt) as (v & Hv & _).
  assert (Hchange : ∀ p, ∃ c, change_column fill_method_pad col p = Ok c).
  { intros p. unfold change_column. rewrite Hv, bind_Ok_l. eauto. }
  destruct (Hchange 1%nat) as (change1 & H1).
  destruct (Hchange 4%nat) as (change4 & H4).
  exists change1, change4. repeat split; try done.
  unfold add_rate_of_change, default_periods.
  cbn [add_rate_of_change_loop add_rate_of_change_inner].
  rewrite Hget, bind_Ok_l, H1, bind_Ok_l.
  rewrite get_set_ne; [|done|apply append_neq].
  by rewrite Hget, bind_Ok_l, H4, !bind_Ok_l.
Qed.

(** C10: on a table with a datetime [Date] column and a numeric target
    column, [prepare_for_modeling] returns for all eight settings of its
    three flags the same table: the stored table with the rate-of-change
    columns of the target, without its incomplete rows. *)
Theorem prepare_for_modeling_ignores_flags self target :
  rectangular (p_data self) = true →
  column_all is_datetime "Date" (p_data self) = true →
  column_all is_flt target (p_data self) = true →
  ∃ changed,
    add_rate_of_change fill_method_pad self [target] default_periods
      = Ok changed
    ∧ ∀ include_lags include_ma include_temporal,
        prepare_for_modeling fill_method_pad self target
          include_lags include_ma include_temporal
        = Ok (DF.dropna changed).
Proof.
  intros Hrect Hdate Hcol.
  destruct (column_all_get _ _ _ Hcol) as (col & Hget & Hflt).
  destruct (add_rate_of_change_default self target col Hrect Hget Hflt)
    as (c1 & c4 & _ & _ & Hroc).
  eexists. split; [exact Hroc|]. intros lags ma temporal.
  rewrite prepare_for_modeling_eq by done. by rewrite Hroc.
Qed.

(** C2, as amended: on a table without any missing value in any column,
    whose target column holds finite non-zero numbers,
    [prepare_for_modeling] with its default options returns the rows from
    the fifth one on, so the row count is the input count minus 4 (and 0
    for fewer than 4 rows). *)
Theorem prepare_for_modeling_row_count self target :
  rectangular (p_data self) = true →
  complete (p_data self) = true →
  column_all is_datetime "Date" (p_data self) = true →
  column_all is_nonzero target (p_data self) = true →
  ∃ changed table,
    add_rate_of_change fill_method_pad self [target] default_periods
      = Ok changed
    ∧ prepare_for_modeling fill_method_pad self target true true true
      = Ok table
    ∧ rows table = drop 4 (rows changed)
    ∧ DF.len table = (DF.len (p_data self) - 4)%nat.
Proof.
  intros Hrect Hcomplete Hdate Hcol.
  destruct (column_all_get _ _ _ Hcol) as (col & Hget & Hnz).
  pose proof (forallb_impl _ _ _ is_nonzero_flt Hnz) as Hflt.
  assert (Hcolflt : column_all is_flt target (p_data self) = true).
  { unfold column_all. by rewrite Hget. }
  destruct (add_rate_of_change_default self target col Hrect Hget Hflt)
    as (c1 & c4 & Hc1 & Hc4 & Hroc).
  destruct (numeric_total TypeError _ Hflt) as (v & _ & Hv).
  pose proof (nonzero_of_cells _ _ Hnz Hv) as Hnzv.
  assert (Hlen : length v = DF.len (p_data self)).
  { apply get_length in Hget. rewrite <- Hget, Hv.
    unfold of_floats. by rewrite length_fmap. }
  set (df1 := DF.set (target +:+ "_change" +:+ nat_to_string 1) c1
                (p_data self)) in *.
  set (df2 := DF.set (target +:+ "_change" +:+ nat_to_string 4) c4 df1) in *.
  assert (Hrows : rows (DF.dropna df2) = drop 4 (rows df2)).
  { simpl. apply filter_from. intros i row2 Hrow2.
    assert (Hi : (i < DF.len (p_data self))%nat).
    { apply lookup_lt_Some in Hrow2. fold (DF.len df2) in Hrow2.
      unfold df2, df1 in Hrow2. by rewrite !len_set in Hrow2. }
    destruct (lookup_lt_is_Some_2 (rows (p_data self)) i Hi) as [row Hrow].
    destruct (set_row_lookup (target +:+ "_change" +:+ nat_to_string 1)
                c1 _ i row Hrow) as (row1 & Hrow1 & _).
    fold df1 in Hrow1.
    destruct (row_complete_set _ _ _ _ _ _ Hrect Hrow Hrow1) as [_ H01].
    destruct (row_complete_set _ c4 df1 _ _ _
                (rectangular_set _ _ _ Hrect) Hrow1 Hrow2) as [H2 H12].
    destruct (change_column_isna fill_method_pad 1 col v i Hv Hnzv)
      as (c1' & Hc1' & _ & Hna1); [lia|].
    destruct (change_column_isna fill_method_pad 4 col v i Hv Hnzv)
      as (c4' & Hc4' & _ & Hna4); [lia|].
    rewrite Hc1 in Hc1'. rewrite Hc4 in Hc4'. simplify_eq.
    assert (Hrowc : DF.row_complete row = true).
    { unfold complete in Hcomplete. rewrite forallb_forall in Hcomplete.
      apply Hcomplete, list_elem_of_In. by eapply list_elem_of_lookup_2. }
    destruct (decide (4 ≤ i)%nat) as [Hge|Hlt].
    - rewrite bool_decide_eq_true_2 by done.
      apply H12; [apply H01; [done|]|].
      + rewrite Hna1. apply bool_decide_eq_false_2. lia.
      + rewrite Hna4. apply bool_decide_eq_false_2. lia.
    - rewrite bool_decide_eq_false_2 by done.
      destruct (DF.row_complete row2) eqn:Hc; [|done].
      specialize (H2 eq_refl). rewrite Hna4 in H2.
      apply bool_decide_eq_false_1 in H2. lia. }
  exists df2, (DF.dropna df2). repeat split; try done.
  - rewrite prepare_for_modeling_eq by done. by rewrite Hroc.
  - unfold DF.len at 1. rewrite Hrows, length_drop.
    fold (DF.len df2). unfold df2, df1. by rewrite !len_set.
Qed.

End ModelingProperties.

Lemma prepare_for_modeling_ignores_flags_witness :
  ∃ changed,
    add_rate_of_change true (mkDataPreprocessor Sample.loaded) ["UER"]
      default_periods = Ok changed
    ∧ ∀ include_lags include_ma include_temporal,
        prepare_for_modeling true (mkDataPreprocessor Sample.loaded) "UER"
          include_lags include_ma include_temporal
        = Ok (DF.dropna changed).
Proof.
  apply (prepare_for_modeling_ignores_flags true
           (mkDataPreprocessor Sample.loaded) "UER"); reflexivity.
Defined.

Lemma prepare_for_modeling_row_count_witness :
  ∃ changed table,
    add_rate_of_change true (mkDataPreprocessor Sample.loaded) ["UER"]
      default_periods = Ok changed
    ∧ prepare_for_modeling true (mkDataPreprocessor Sample.loaded) "UER"
        true true true = Ok table
    ∧ rows table = drop 4 (rows changed)
    ∧ DF.len table = (6 - 4)%nat.
Proof.
  apply (prepare_for_modeling_row_count true
           (mkDataPreprocessor Sample.loaded) "UER"); reflexivity.
Defined.

(** C2, as stated, fails: the table [Sample.with_notes] has six rows and
    no missing indicator value, and only one row is returned, because the
    row whose Notes field is blank is dropped too. *)
Lemma prepare_for_modeling_drops_blank_notes :
  ¬ (∀ pad self target table,
       target ∈ Config.INDICATORS →
       rectangular (p_data self) = true →
       column_all is_datetime "Date" (p_data self) = true →
       no_missing_indicators (p_data self) = true →
       (4 ≤ DF.len (p_data self))%nat →
       prepare_for_modeling pad self target true true true = Ok table →
       DF.len table = (DF.len (p_data self) - 4)%nat).
Proof.
  intros H.
  destruct (prepare_for_modeling true (mkDataPreprocessor Sample.with_notes)
              "UER" true true true) as [table|] eqn:E;
    [|by vm_compute in E].
  specialize (H true (mkDataPreprocessor Sample.with_notes) "UER" table).
  vm_compute in E. injection E as <-.
  assert (Hin : "UER" ∈ Config.INDICATORS).
  { by_compute. }
  specialize (H Hin eq_refl eq_refl eq_refl).
  assert (Hlen : (4 ≤ DF.len (p_data (mkDataPreprocessor Sample.with_notes)))%nat)
    by (vm_compute; lia).
  specialize (H Hlen eq_refl). vm_compute in H. discriminate H.
Qed.

(** C1 at [Sample.loaded] with all three flags set: the table returned has
    the columns of the stored table and the two rate-of-change columns
    only, though each of the three feature steps on the same table
    produces its columns. *)
Theorem prepare_for_modeling_all_flags_sample (pad : bool) :
  let self := mkDataPreprocessor Sample.loaded in
  ∃ table temporal lagged averaged,
    prepare_for_modeling pad self "UER" true true true = Ok table
    ∧ columns table
      = ["Quarter"; "LFPR"; "ER"; "UR"; "UER"; "Date";
         "UER_change1"; "UER_change4"]
    ∧ create_temporal_features self = Ok temporal
    ∧ ("Year" ∈ columns temporal) ∧ ("Year" ∉ columns table)
    ∧ add_lag_features self ["UER"] [1; 2; 4]%nat = Ok lagged
    ∧ ("UER_lag_1" ∈ columns lagged) ∧ ("UER_lag_1" ∉ columns table)
    ∧ add_moving_averages self ["UER"] [2; 4]%nat = Ok averaged
    ∧ ("UER_ma2" ∈ columns averaged) ∧ ("UER_ma2" ∉ columns table).
Proof.
  destruct pad; do 4 eexists;
    (split; [vm_compute; reflexivity|]);
    repeat split; try reflexivity; by_compute.
Qed.

(** C7 at [Sample.with_zero], whose UR is 0 in the fourth row and 5 in
    the fifth: the rate of change over one period is infinite in the
    fifth row, and the row stays in the modeling table; the helper
    [calculate_change] returns 0 for the same two values. *)
Theorem add_rate_of_change_zero_sample (pad : bool) :
  let self := mkDataPreprocessor Sample.with_zero in
  ∃ changed table,
    add_rate_of_change pad self ["UR"] default_periods = Ok changed
    ∧ DF.get "UR" changed
      = Ok [Sample.num 7; Sample.num 6; Sample.num 5; Sample.num 0;
            Sample.num 5; Sample.num 6]
    ∧ (DF.get "UR_change1" changed ≫= fun col => Ok (col !! 4%nat))
      = Ok (Some (Flt (Inf false)))
    ∧ prepare_for_modeling pad self "UR" true true true = Ok table
    ∧ (DF.get "UR_change1" table ≫= fun col => Ok (col !! 0%nat))
      = Ok (Some (Flt (Inf false)))
    ∧ calculate_change (Num 5) (Num 0) = Num 0.
Proof.
  destruct pad; do 2 eexists;
    (split; [vm_compute; reflexivity|]);
    repeat split; vm_compute; reflexivity.
Qed.

(** ** Validator *)

Lemma loc_total df indices name col :
  DF.get name df = Ok col → is_ok (Validator.loc df indices name) = true.
Proof.
  intros Hget. unfold Validator.loc. destruct indices; [done|].
  by rewrite Hget, bind_Ok_l.
Qed.

Lemma check_data_ranges_loop_spec df names results ok :
  Forall (fun name => column_all is_flt name df = true) names →
  ∃ infos,
    Validator.check_data_ranges_loop df names results ok
    = Ok (mkDataRanges (ok && forallb (fun x => valid x.2) infos)
            (results ++ infos))
    ∧ infos.*1 = names.
Proof.
  intros Hnames. revert results ok.
  induction Hnames as [|name names Hname _ IH]; intros results ok.
  - exists []. simpl. by rewrite andb_true_r, app_nil_r.
  - destruct (column_all_get _ _ _ Hname) as (col & Hget & Hflt).
    destruct (numeric_total TypeError _ Hflt) as (v & Hv & _).
    cbn [Validator.check_data_ranges_loop]. unfold validate_data_range.
    rewrite Hget, bind_Ok_l, Hv, !bind_Ok_l.
    set (is_valid := Ser.all _).
    set (info := mkRangeInfo _ _ _).
    destruct (IH (results ++ [(name, info)])
                 (if is_valid then ok else false)) as (infos & -> & Hinfos).
    exists ((name, info) :: infos). split.
    + rewrite <- app_assoc. subst info. simpl.
      by destruct is_valid, ok.
    + rewrite fmap_cons. by rewrite Hinfos.
Qed.

Lemma detect_outliers_loop_total df names results qcol :
  DF.get "Quarter" df = Ok qcol →
  Forall (fun name => column_all is_flt name df = true) names →
  is_ok (Validator.detect_outliers_loop df names results) = true.
Proof.
  intros Hq Hnames. revert results.
  induction Hnames as [|name names Hname _ IH]; intros results; [done|].
  destruct (column_all_get _ _ _ Hname) as (col & Hget & Hflt).
  destruct (numeric_total TypeError _ Hflt) as (v & Hv & _).
  cbn [Validator.detect_outliers_loop]. unfold detect_outliers_iqr.
  rewrite Hget, bind_Ok_l, Hv, !bind_Ok_l.
  match goal with
  | |- context [Validator.loc df ?idx "Quarter"] =>
      destruct (is_ok_Ok _ (loc_total df idx "Quarter" _ Hq)) as (qs & ->);
      destruct (is_ok_Ok _ (loc_total df idx name _ Hget)) as (vs & ->)
  end.
  rewrite !bind_Ok_l. apply IH.
Qed.

Lemma to_datetime_total col :
  forallb is_date col = true →
  ∃ dates, mapM Validator.to_datetime col = Ok dates
    ∧ length (Validator.present dates) = length col.
Proof.
  induction col as [|c col IH]; [by exists []|].
  intros [Hc Hcol]%andb_prop. destruct (IH Hcol) as (dates & Hd & Hlen).
  destruct c as [| |t]; try done.
  exists (Some (Calendar.toordinal t) :: dates). cbn [mapM].
  rewrite Hd. split; [done|].
  transitivity (S (length (Validator.present dates))); [reflexivity|].
  by rewrite Hlen.
Qed.

Lemma is_dataset_columns df :
  is_dataset df = true →
  (∃ qcol, DF.get "Quarter" df = Ok qcol)
  ∧ Forall (fun name => column_all is_flt name df = true) Config.INDICATORS
  ∧ column_all is_date "Date" df = true
  ∧ (0 < DF.len df)%nat.
Proof.
  unfold is_dataset.
  intros [[[Hq Hind]%andb_prop Hdate]%andb_prop Hlen]%andb_prop.
  repeat split.
  - destruct (column_all_get _ _ _ Hq) as (qcol & ? & _). eauto.
  - apply Forall_forall. intros name Hname%list_elem_of_In.
    rewrite forallb_forall in Hind. auto.
  - done.
  - apply negb_true_iff, Nat.eqb_neq in Hlen. lia.
Qed.



(** A dataset with an outlier and an inconsistent row is still valid
    overall. *)
Lemma validate_all_outlier_inconsistent_sample :
  ∃ r info,
    Validator.run_checks Sample.with_outlier = Ok r
    ∧ overall_valid r = true
    ∧ er_ur_consistent (consistency r) = false
    ∧ outliers r !! 3%nat = Some ("UER", info)
    ∧ count info = 1%nat.
Proof. do 2 eexists. split; [vm_compute; reflexivity|]. done. Qed.

(** * Further properties of the code *)

(** ** Quarter dates *)

(** X1: a label that parses to a quarter number outside 1..4 is rejected
    when the date is built, and a label that does not parse is rejected
    with the parser's error: [quarter_to_date] returns a date for neither. *)
Theorem quarter_to_date_rejects (label : string) :
  (∀ year quarter,
     parse_quarter label = Ok (year, quarter) →
     ¬ (1 ≤ quarter ≤ 4) →
     quarter_to_date label = Err TimestampOutOfRange)
  ∧ (∀ e, parse_quarter label = Err e → quarter_to_date label = Err e).
Proof.
  unfold quarter_to_date. split.
  - intros year quarter -> Hq. rewrite bind_Ok_l. unfold Calendar.make.
    destruct ((1 <=? (quarter - 1) * 3 + 1)
              && ((quarter - 1) * 3 + 1 <=? 12)) eqn:Hm.
    + apply andb_prop in Hm as [H1 H2]. lia.
    + replace ((1 <=? year) && (year <=? 9999)
               && (1 <=? (quarter - 1) * 3 + 1)
               && ((quarter - 1) * 3 + 1 <=? 12))
        with ((1 <=? year) && (year <=? 9999)
              && ((1 <=? (quarter - 1) * 3 + 1)
                  && ((quarter - 1) * 3 + 1 <=? 12)))
        by (by rewrite !andb_assoc).
      rewrite Hm, andb_false_r. done.
  - by intros e ->.
Qed.

Lemma quarter_to_date_rejects_witness :
  quarter_to_date "2014 Q5" = Err TimestampOutOfRange
  ∧ quarter_to_date "2014-Q1" = Err InvalidQuarterFormat.
Proof.
  destruct (quarter_to_date_rejects "2014 Q5") as [H _].
  destruct (quarter_to_date_rejects "2014-Q1") as [_ H'].
  split.
  - apply (H 2014 5); [reflexivity|lia].
  - apply H'. reflexivity.
Defined.

(** X2: when [quarter_to_date] returns a date, it is the first day of
    month 1, 4, 7 or 10 of the parsed year, and the year and the quarter
    read back from the date ([.dt.year], [.dt.quarter]) are the parsed
    ones. *)
Theorem quarter_to_date_round_trip (label : string) (t : Timestamp) :
  quarter_to_date label = Ok t →
  parse_quarter label = Ok (ts_year t, Calendar.quarter t)
  ∧ 1 ≤ Calendar.quarter t ≤ 4
  ∧ ts_month t = 3 * (Calendar.quarter t - 1) + 1
  ∧ ts_day t = 1.
Proof.
  unfold quarter_to_date.
  destruct (parse_quarter label) as [[year quarter]|e]; [|done].
  rewrite bind_Ok_l. unfold Calendar.make.
  destruct (_ && _) eqn:Hc; [|done]. intros [= <-].
  repeat (apply andb_prop in Hc as [Hc ?]).
  unfold Calendar.quarter. simpl.
  replace ((quarter - 1) * 3 + 1 - 1) with ((quarter - 1) * 3) by lia.
  rewrite Z.div_mul by done.
  replace (quarter - 1 + 1) with quarter by lia.
  repeat split; try done; lia.
Qed.

Lemma quarter_to_date_round_trip_witness :
  parse_quarter "2014 Q3" = Ok (2014, 3)
  ∧ 1 ≤ 3 ≤ 4 ∧ 7 = 3 * (3 - 1) + 1 ∧ 1 = 1.
Proof.
  apply (quarter_to_date_round_trip "2014 Q3" (mkTimestamp 2014 7 1)).
  reflexivity.
Defined.

(** ** Zero tests *)

Lemma is_zero_spec (x : Q) :
  (Float.is_zero x = true ↔ (x == 0)%Q)
  ∧ (Float.is_zero x = false ↔ ¬ (x == 0)%Q).
Proof.
  unfold Float.is_zero. split; [apply Qeq_bool_iff|].
  split; [apply Qeq_bool_neq|].
  intros H. destruct (Qeq_bool x 0) eqn:E; [|done].
  by apply Qeq_bool_iff in E.
Qed.

(** ** Loading *)

Lemma index_of_elem name cols :
  name ∈ cols → ∃ j, DF.index_of name cols = Some j.
Proof.
  induction cols as [|c cols IH]; [by intros ?%elem_of_nil|].
  intros H. simpl. destruct (String.eqb_spec c name) as [->|Hne]; [eauto|].
  apply elem_of_cons in H as [->|H]; [done|].
  destruct (IH H) as [j ->]. simpl. eauto.
Qed.

Lemma index_of_None name cols :
  DF.index_of name cols = None → name ∉ cols.
Proof.
  intros H Hin. destruct (index_of_elem _ _ Hin) as [j Hj]. congruence.
Qed.

Lemma get_elem name df :
  name ∈ columns df → ∃ col, DF.get name df = Ok col.
Proof.
  intros H. unfold DF.get. destruct (index_of_elem _ _ H) as [j ->]. eauto.
Qed.

Lemma get_Ok_elem name df col : DF.get name df = Ok col → name ∈ columns df.
Proof.
  unfold DF.get. destruct (DF.index_of name (columns df)) as [j|] eqn:Hj;
    [|done].
  intros _. eapply list_elem_of_lookup_2. by apply index_of_Some.
Qed.

Lemma columns_set name s df :
  name ∈ columns (DF.set name s df)
  ∧ (∀ c, c ∈ columns df → c ∈ columns (DF.set name s df))
  ∧ (∀ c, c ∈ columns (DF.set name s df) → c = name ∨ c ∈ columns df).
Proof.
  unfold DF.set.
  destruct (DF.index_of name (columns df)) as [j|] eqn:Hj; simpl.
  - repeat split; auto.
    eapply list_elem_of_lookup_2. by apply index_of_Some.
  - repeat split; intros; set_solver.
Qed.

Lemma load_csv_inv read_csv argsort path self df self' :
  load_csv read_csv argsort path self = (Ok df, self') →
  ∃ raw quarter ts dates sorted_quarter first last,
    read_csv path = Ok raw
    ∧ (∀ c, c ∈ Config.REQUIRED_COLUMNS → c ∈ columns raw)
    ∧ DF.get "Quarter" raw = Ok quarter
    ∧ mapM apply_quarter_to_date quarter = Ok ts
    ∧ DF.get "Date" (DF.set "Date" (Date <$> ts) raw) = Ok dates
    ∧ df = DF.take_rows (argsort (date_key <$> dates))
             (DF.set "Date" (Date <$> ts) raw)
    ∧ DF.get "Quarter" df = Ok sorted_quarter
    ∧ DF.iloc_first sorted_quarter = Ok first
    ∧ DF.iloc_last sorted_quarter = Ok last
    ∧ self' = mkDataLoader (Some df)
                (Some (mkMetadata path (DF.len df) first last (columns df))).
Proof.
  unfold_loader. intros H.
  destruct (read_csv path) as [raw|] eqn:Hread; [|done].
  case_decide as Hmissing; [|done].
  repeat (case_match; simplify_eq/=; try done).
  repeat match goal with
         | H : _ ≫= _ = Ok _ |- _ => apply bind_Ok in H as (? & ? & ?)
         end.
  simplify_eq. do 7 eexists. repeat split; try done.
  intros c Hc. destruct (decide (c ∈ columns raw)) as [|Hn]; [done|].
  exfalso. eapply (not_elem_of_empty (C := gset string) c).
  rewrite <- Hmissing. set_solver.
Qed.

Section LoaderResults.

Variable read_csv : string -> result DataFrame.
Variable argsort : list Z -> list nat.
Hypothesis argsort_perm : ∀ keys, argsort keys ≡ₚ seq 0 (length keys).

Lemma len_take_rows_argsort df col :
  DF.get "Date" df = Ok col →
  DF.len (DF.take_rows (argsort (date_key <$> col)) df) = DF.len df.
Proof using argsort_perm.
  intros Hcol. unfold DF.len at 1. simpl.
  rewrite length_fmap, (argsort_perm (date_key <$> col)).
  rewrite length_seq, length_fmap. by apply get_length in Hcol.
Qed.

(** X4: after a successful load the loader holds the table it returns
    and metadata that agree with it: the record count is the number of
    rows, which is the number of rows read and is not zero; the column
    list is that of the table, which keeps every column read and has a
    [Date] column; and [get_date_range] returns the first and last
    quarter recorded in the metadata. *)
Theorem load_csv_success path self df self' :
  load_csv read_csv argsort path self = (Ok df, self') →
  ∃ raw meta,
    read_csv path = Ok raw
    ∧ self' = mkDataLoader (Some df) (Some meta)
    ∧ file_path meta = path
    ∧ n_records meta = DF.len df
    ∧ DF.len df = DF.len raw
    ∧ (0 < DF.len raw)%nat
    ∧ meta_columns meta = columns df
    ∧ "Date" ∈ columns df
    ∧ (∀ c, c ∈ columns raw → c ∈ columns df)
    ∧ (∀ c, c ∈ Config.REQUIRED_COLUMNS → c ∈ columns df)
    ∧ get_date_range self'
      = Ok (Some (start_date meta), Some (end_date meta)).
Proof using argsort_perm.
  intros Hload.
  apply load_csv_inv in Hload
    as (raw & quarter & ts & dates & sq & first & last & Hread & Hreq & Hq
        & Hts & Hdates & -> & Hsq & Hfirst & Hlast & ->).
  set (dated := DF.set "Date" (Date <$> ts) raw) in *.
  set (df := DF.take_rows _ dated) in *.
  assert (Hlen : DF.len df = DF.len raw).
  { unfold df. rewrite len_take_rows_argsort by done.
    unfold dated. by rewrite len_set. }
  destruct (columns_set "Date" (Date <$> ts) raw) as (Hd & Hkeep & _).
  exists raw, (mkMetadata path (DF.len df) first last (columns df)).
  repeat split; try done.
  - rewrite <- Hlen. apply get_length in Hsq. rewrite <- Hsq.
    destruct sq; [done|simpl; lia].
  - intros c Hc. by apply Hkeep, Hreq.
  - unfold get_date_range. cbn [data].
    by rewrite Hsq, bind_Ok_l, Hfirst, !bind_Ok_l, Hlast.
Qed.

(** X5: a table that has the required columns and no row cannot be
    loaded: building the metadata reads the first quarter label, which
    raises [IndexError], and the loader is left as it was. *)
Theorem load_csv_empty path self raw :
  read_csv path = Ok raw →
  (∀ c, c ∈ Config.REQUIRED_COLUMNS → c ∈ columns raw) →
  rows raw = [] →
  load_csv read_csv argsort path self = (Err IndexError, self).
Proof using argsort_perm.
  intros Hread Hreq Hrows. unfold_loader. rewrite Hread.
  case_decide as Hmissing.
  2:{ exfalso. apply Hmissing. apply set_eq. intros c.
      rewrite elem_of_difference, !elem_of_list_to_set. set_solver. }
  assert (Hquarter : "Quarter" ∈ columns raw).
  { apply Hreq. by_compute. }
  assert (Hget : ∀ name df, name ∈ columns df → rows df = [] →
                            DF.get name df = Ok []).
  { intros name df Hin Hr. unfold DF.get.
    destruct (index_of_elem _ _ Hin) as [j ->]. by rewrite Hr. }
  rewrite (Hget _ _ Hquarter Hrows). simpl.
  set (dated := DF.set "Date" _ raw).
  assert (Hdrows : rows dated = []).
  { apply nil_length_inv. fold (DF.len dated). unfold dated.
    rewrite len_set. unfold DF.len. by rewrite Hrows. }
  destruct (columns_set "Date" [] raw) as (Hd & Hkeep & _).
  fold dated in Hd, Hkeep.
  rewrite (Hget _ _ Hd Hdrows). simpl.
  assert (Hsort : argsort [] = []).
  { apply Permutation_nil_r. apply (argsort_perm []). }
  rewrite Hsort.
  rewrite (Hget "Quarter" (DF.take_rows [] dated)); [done| |done].
  simpl. by apply Hkeep.
Qed.

End LoaderResults.

Lemma load_csv_success_witness :
  ∃ raw meta,
    Ok Sample.unsorted = Ok raw
    ∧ mkDataLoader (Some Sample.sorted)
        (Some (mkMetadata "data.csv" 3 (Str "2014 Q1") (Str "2015 Q2")
                 (columns Sample.sorted)))
      = mkDataLoader (Some Sample.sorted) (Some meta)
    ∧ file_path meta = "data.csv"
    ∧ n_records meta = DF.len Sample.sorted
    ∧ DF.len Sample.sorted = DF.len raw
    ∧ (0 < DF.len raw)%nat
    ∧ meta_columns meta = columns Sample.sorted
    ∧ "Date" ∈ columns Sample.sorted
    ∧ (∀ c, c ∈ columns raw → c ∈ columns Sample.sorted)
    ∧ (∀ c, c ∈ Config.REQUIRED_COLUMNS → c ∈ columns Sample.sorted)
    ∧ get_date_range
        (mkDataLoader (Some Sample.sorted)
           (Some (mkMetadata "data.csv" 3 (Str "2014 Q1") (Str "2015 Q2")
                    (columns Sample.sorted))))
      = Ok (Some (start_date meta), Some (end_date meta)).
Proof.
  apply (load_csv_success (fun _ => Ok Sample.unsorted) stable_argsort
           insertion_argsort_perm "data.csv" new_loader).
  vm_compute. reflexivity.
Defined.

Lemma load_csv_empty_witness :
  load_csv
    (fun _ => Ok (mkDataFrame ["Quarter"; "LFPR"; "ER"; "UR"; "UER"] []))
    stable_argsort "data.csv" new_loader
  = (Err IndexError, new_loader).
Proof.
  apply (load_csv_empty _ stable_argsort insertion_argsort_perm
           "data.csv" new_loader
           (mkDataFrame ["Quarter"; "LFPR"; "ER"; "UR"; "UER"] [])).
  - reflexivity.
  - intros c Hc. exact Hc.
  - reflexivity.
Defined.

(** X6: [get_indicator_data] raises "no data loaded" on a loader that has
    not loaded anything, whatever is asked for; after a successful load
    it rejects every name that is not one of the four indicators (so
    also [Quarter] and [Date], which are columns), and for each indicator
    it returns that column of the loaded table, with as many entries as
    the metadata counts records. *)
Theorem get_indicator_data_after_load
    read_csv argsort path self df self' indicator :
  load_csv read_csv argsort path self = (Ok df, self') →
  (indicator ∈ Config.INDICATORS →
   ∃ col meta,
     get_indicator_data self' indicator = inr col
     ∧ DF.get indicator df = Ok col
     ∧ metadata self' = Some meta
     ∧ length col = n_records meta)
  ∧ (indicator ∉ Config.INDICATORS →
     get_indicator_data self' indicator = inl (InvalidIndicator indicator))
  ∧ get_indicator_data new_loader indicator = inl NoDataLoaded.
Proof.
  intros Hload.
  apply load_csv_inv in Hload
    as (raw & quarter & ts & dates & sq & first & last & Hread & Hreq & Hq
        & Hts & Hdates & Hdf & Hsq & Hfirst & Hlast & ->).
  unfold get_indicator_data. cbn [data metadata]. repeat split.
  - intros Hin. rewrite bool_decide_eq_true_2 by done.
    assert (Hcol : indicator ∈ columns df).
    { rewrite Hdf. simpl.
      apply (columns_set "Date" (Date <$> ts) raw), Hreq.
      by apply (subseteq_drop 1 Config.REQUIRED_COLUMNS). }
    destruct (get_elem _ _ Hcol) as [col Hget]. rewrite Hget.
    do 2 eexists. repeat split. simpl. by apply get_length in Hget.
  - intros Hout. by rewrite bool_decide_eq_false_2.
Qed.

Lemma get_indicator_data_after_load_witness :
  ("UR" ∈ Config.INDICATORS →
   ∃ col meta,
     get_indicator_data
       (mkDataLoader (Some Sample.sorted)
          (Some (mkMetadata "data.csv" 3 (Str "2014 Q1") (Str "2015 Q2")
                   (columns Sample.sorted)))) "UR" = inr col
     ∧ DF.get "UR" Sample.sorted = Ok col
     ∧ metadata
         (mkDataLoader (Some Sample.sorted)
            (Some (mkMetadata "data.csv" 3 (Str "2014 Q1") (Str "2015 Q2")
                     (columns Sample.sorted)))) = Some meta
     ∧ length col = n_records meta)
  ∧ ("UR" ∉ Config.INDICATORS →
     get_indicator_data
       (mkDataLoader (Some Sample.sorted)
          (Some (mkMetadata "data.csv" 3 (Str "2014 Q1") (Str "2015 Q2")
                   (columns Sample.sorted)))) "UR"
     = inl (InvalidIndicator "UR"))
  ∧ get_indicator_data new_loader "UR" = inl NoDataLoaded.
Proof.
  apply (get_indicator_data_after_load (fun _ => Ok Sample.unsorted)
           stable_argsort "data.csv" new_loader Sample.sorted).
  vm_compute. reflexivity.
Defined.

Lemma mapM_Forall2 {A B} (f : A -> result B) (l : list A) (k : list B) :
  mapM f l = Ok k → Forall2 (fun x y => f x = Ok y) l k.
Proof.
  revert k. induction l as [|x l IH]; intros k; simpl.
  - intros [= <-]. constructor.
  - destruct (f x) as [y|] eqn:Hy; simpl; [|done].
    destruct (mapM f l) as [ys|]; simpl; [|done].
    intros [= <-]. constructor; auto.
Qed.

Lemma rectangular_take_rows indexer df :
  rectangular df = true →
  Forall (fun i => (i < DF.len df)%nat) indexer →
  rectangular (DF.take_rows indexer df) = true.
Proof.
  rewrite !rectangular_Forall. intros Hrect Hidx. simpl.
  apply Forall_fmap. eapply Forall_impl; [exact Hidx|].
  intros i Hi. simpl.
  destruct (lookup_lt_is_Some_2 (rows df) i Hi) as [row Hrow].
  rewrite nth_lookup, Hrow. simpl.
  rewrite Forall_lookup in Hrect. eauto.
Qed.

Lemma column_all_take_rows p name indexer df :
  column_all p name df = true →
  Forall (fun i => (i < DF.len df)%nat) indexer →
  column_all p name (DF.take_rows indexer df) = true.
Proof.
  intros Hcol Hidx. destruct (column_all_get _ _ _ Hcol) as (col & Hget & Hp).
  unfold column_all. rewrite (get_take_rows _ _ _ _ Hget).
  apply forallb_forall. intros c Hc%list_elem_of_In.
  apply list_elem_of_fmap in Hc as (i & -> & Hi).
  rewrite Forall_forall in Hidx. specialize (Hidx i Hi).
  rewrite <- (get_length _ _ _ Hget) in Hidx.
  destruct (lookup_lt_is_Some_2 col i Hidx) as [c Hc].
  rewrite nth_lookup, Hc. simpl.
  rewrite forallb_forall in Hp. apply Hp, list_elem_of_In.
  by eapply list_elem_of_lookup_2.
Qed.

Section LoaderInvariants.

Variable read_csv : string -> result DataFrame.
Variable argsort : list Z -> list nat.
Hypothesis argsort_perm : ∀ keys, argsort keys ≡ₚ seq 0 (length keys).

Lemma load_csv_dated path self df self' raw :
  load_csv read_csv argsort path self = (Ok df, self') →
  read_csv path = Ok raw →
  rectangular raw = true →
  ∃ quarter ts indexer,
    DF.get "Quarter" raw = Ok quarter
    ∧ mapM apply_quarter_to_date quarter = Ok ts
    ∧ Forall (fun i => (i < DF.len raw)%nat) indexer
    ∧ df = DF.take_rows indexer (DF.set "Date" (Date <$> ts) raw)
    ∧ DF.get "Date" (DF.set "Date" (Date <$> ts) raw) = Ok (Date <$> ts)
    ∧ DF.get "Quarter" (DF.set "Date" (Date <$> ts) raw) = Ok quarter
    ∧ rectangular (DF.set "Date" (Date <$> ts) raw) = true
    ∧ (0 < DF.len df)%nat.
Proof using argsort_perm.
  intros Hload Hread Hrect.
  apply load_csv_inv in Hload
    as (raw' & quarter & ts & dates & sq & first & last & Hread' & Hreq & Hq
        & Hts & Hdates & -> & Hsq & Hfirst & Hlast & ->).
  rewrite Hread in Hread'. injection Hread' as <-.
  exists quarter, ts, (argsort (date_key <$> dates)).
  assert (Hlen : length dates = DF.len raw).
  { apply get_length in Hdates. by rewrite len_set in Hdates. }
  repeat split; try done.
  - apply Forall_forall. intros i Hi.
    rewrite (argsort_perm (date_key <$> dates)) in Hi.
    apply elem_of_seq in Hi. rewrite length_fmap in Hi. lia.
  - rewrite get_set_eq by done. f_equal. apply imap_nth_same.
    rewrite length_fmap, (mapM_Ok_length _ _ _ Hts).
    by apply get_length in Hq.
  - by rewrite get_set_ne.
  - by apply rectangular_set.
  - apply get_length in Hsq. rewrite <- Hsq. destruct sq; [done|simpl; lia].
Qed.

(** X7: in a table loaded from a rectangular input, every row's [Date]
    is the date [quarter_to_date] gives for that row's own [Quarter]
    label: every label has been parsed (none skipped), and sorting moves
    whole rows. *)
Theorem load_csv_rows_dated path self df self' raw :
  load_csv read_csv argsort path self = (Ok df, self') →
  read_csv path = Ok raw →
  rectangular raw = true →
  ∃ quarter dates,
    DF.get "Quarter" df = Ok quarter
    ∧ DF.get "Date" df = Ok dates
    ∧ Forall2 (fun q d => ∃ label t,
                 q = Str label ∧ d = Date t
                 ∧ quarter_to_date label = Ok t)
              quarter dates.
Proof using argsort_perm.
  intros Hload Hread Hrect.
  destruct (load_csv_dated _ _ _ _ _ Hload Hread Hrect)
    as (quarter & ts & indexer & Hq & Hts & Hidx & -> & Hd & Hq' & _ & _).
  do 2 eexists.
  split; [by apply get_take_rows|]. split; [by apply get_take_rows|].
  apply Forall2_fmap, Forall_Forall2_diag.
  eapply Forall_impl; [exact Hidx|]. intros i Hi. simpl in Hi.
  pose proof (mapM_Forall2 _ _ _ Hts) as H2.
  assert (Hiq : (i < length quarter)%nat) by (by rewrite (get_length _ _ _ Hq)).
  destruct (lookup_lt_is_Some_2 quarter i Hiq) as [q Hqi].
  destruct (Forall2_lookup_l _ _ _ _ _ H2 Hqi) as (t & Hti & Happ).
  rewrite !nth_lookup, Hqi, list_lookup_fmap, Hti. simpl.
  destruct q as [|label|]; try done. eauto.
Qed.

Lemma load_csv_is_dataset path self df self' raw :
  load_csv read_csv argsort path self = (Ok df, self') →
  read_csv path = Ok raw →
  rectangular raw = true →
  forallb (fun name => column_all is_flt name raw) Config.INDICATORS = true →
  rectangular df = true
  ∧ is_dataset df = true
  ∧ column_all is_datetime "Date" df = true
  ∧ forallb (fun name => column_all is_flt name df) Config.INDICATORS = true.
Proof using argsort_perm.
  intros Hload Hread Hrect Hind.
  destruct (load_csv_dated _ _ _ _ _ Hload Hread Hrect)
    as (quarter & ts & indexer & Hq & Hts & Hidx & -> & Hd & Hq' & Hrect'
        & Hlen).
  set (dated := DF.set "Date" (Date <$> ts) raw) in *.
  assert (Hidx' : Forall (fun i => (i < DF.len dated)%nat) indexer).
  { unfold dated. by rewrite len_set. }
  assert (Hdate : ∀ p, (∀ t, p (Date t) = true) →
                       column_all p "Date" (DF.take_rows indexer dated) = true).
  { intros p Hp. apply column_all_take_rows; [|done].
    unfold column_all. rewrite Hd. apply forallb_forall.
    intros c Hc%list_elem_of_In. by apply list_elem_of_fmap in Hc as (t & -> & _). }
  assert (Hflt : forallb (fun name =>
                   column_all is_flt name (DF.take_rows indexer dated))
                   Config.INDICATORS = true).
  { apply forallb_forall. intros name Hname.
    rewrite forallb_forall in Hind. specialize (Hind name Hname).
    apply column_all_take_rows; [|done].
    unfold dated. rewrite column_all_set_other; [done..|].
    intros ->. unfold Config.INDICATORS, Config.REQUIRED_COLUMNS in Hname.
    simpl in Hname. intuition discriminate. }
  repeat split.
  - by apply rectangular_take_rows.
  - unfold is_dataset. rewrite Hflt, (Hdate is_date) by done.
    rewrite !andb_true_r. apply andb_true_intro. split.
    + apply column_all_take_rows; [|done].
      unfold column_all. rewrite Hq'. by apply forallb_forall.
    + apply negb_true_iff, Nat.eqb_neq. lia.
  - by apply Hdate.
  - done.
Qed.

(** X8: a table loaded from a rectangular input whose four indicator
    columns are numeric is a dataset as the validator and the
    preprocessor need it: rectangular, with at least one row, a [Quarter]
    column, numeric indicator columns and a [Date] column that holds a
    timestamp in every row. *)
Theorem load_csv_dataset path self df self' raw :
  load_csv read_csv argsort path self = (Ok df, self') →
  read_csv path = Ok raw →
  rectangular raw = true →
  forallb (fun name => column_all is_flt name raw) Config.INDICATORS = true →
  rectangular df = true
  ∧ is_dataset df = true
  ∧ column_all is_datetime "Date" df = true
  ∧ forallb (fun name => column_all is_flt name df) Config.INDICATORS = true.
Proof using argsort_perm.
  apply load_csv_is_dataset.
Qed.

End LoaderInvariants.

Lemma load_csv_rows_dated_witness :
  ∃ quarter dates,
    DF.get "Quarter" Sample.sorted = Ok quarter
    ∧ DF.get "Date" Sample.sorted = Ok dates
    ∧ Forall2 (fun q d => ∃ label t,
                 q = Str label ∧ d = Date t
                 ∧ quarter_to_date label = Ok t)
              quarter dates.
Proof.
  apply (load_csv_rows_dated (fun _ => Ok Sample.unsorted) stable_argsort
           insertion_argsort_perm "data.csv" new_loader
           Sample.sorted
           (mkDataLoader (Some Sample.sorted)
              (Some (mkMetadata "data.csv" 3 (Str "2014 Q1") (Str "2015 Q2")
                       (columns Sample.sorted))))
           Sample.unsorted).
  - vm_compute. reflexivity.
  - reflexivity.
  - reflexivity.
Defined.

Lemma load_csv_dataset_witness :
  rectangular Sample.sorted = true
  ∧ is_dataset Sample.sorted = true
  ∧ column_all is_datetime "Date" Sample.sorted = true
  ∧ forallb (fun name => column_all is_flt name Sample.sorted)
            Config.INDICATORS = true.
Proof.
  apply (load_csv_dataset (fun _ => Ok Sample.unsorted) stable_argsort
           insertion_argsort_perm "data.csv" new_loader
           Sample.sorted
           (mkDataLoader (Some Sample.sorted)
              (Some (mkMetadata "data.csv" 3 (Str "2014 Q1") (Str "2015 Q2")
                       (columns Sample.sorted))))
           Sample.unsorted).
  - vm_compute. reflexivity.
  - reflexivity.
  - reflexivity.
  - reflexivity.
Defined.

(** ** Checks of the validator *)

Lemma filter_nil_forallb {A} (p : A -> bool) (l : list A) :
  length (List.filter p l) = 0%nat ↔ forallb (fun x => negb (p x)) l = true.
Proof.
  induction l as [|x l IH]; simpl; [done|].
  destruct (p x); simpl; [split; [lia|done]|exact IH].
Qed.

Lemma sum_zero (l : list nat) :
  foldr Nat.add 0%nat l = 0%nat ↔ Forall (fun n => n = 0%nat) l.
Proof.
  induction l as [|n l IH]; simpl; [by split; [constructor|]|].
  rewrite Forall_cons, <- IH. lia.
Qed.

(** X9: [check_missing_values] succeeds exactly when all five required
    columns are present (otherwise the column access raises); it then
    reports one count per required column, and [has_missing] is false
    exactly when no cell of a required column is missing. *)
Theorem check_missing_values_spec df :
  (is_ok (Validator.check_missing_values df) = true ↔
   ∀ name, name ∈ Config.REQUIRED_COLUMNS → name ∈ columns df)
  ∧ ∀ mv, Validator.check_missing_values df = Ok mv →
      (counts mv).*1 = Config.REQUIRED_COLUMNS
      ∧ total_missing mv = foldr Nat.add 0%nat (counts mv).*2
      ∧ (has_missing mv = false ↔
         ∀ name, name ∈ Config.REQUIRED_COLUMNS →
                 column_all (fun c => negb (isna c)) name df = true).
Proof.
  unfold Validator.check_missing_values.
  set (f := fun name => col ← DF.get name df;
                        Ok (name, length (List.filter isna col))).
  assert (Hf : ∀ names k,
             mapM f names = Ok k →
             k.*1 = names
             ∧ Forall2 (fun name n =>
                          ∃ col, DF.get name df = Ok col
                                 ∧ n = length (List.filter isna col))
                       names k.*2).
  { induction names as [|name names IH]; intros k; cbn [mapM].
    - intros [= <-]. split; [done|constructor].
    - intros H. apply bind_Ok in H as (y & Hy & H).
      apply bind_Ok in H as (k' & Hk' & [= <-]).
      unfold f in Hy. apply bind_Ok in Hy as (col & Hget & [= <-]).
      destruct (IH k' Hk') as [H1 H2].
      rewrite !fmap_cons. cbn [fst snd]. split; [by rewrite H1|].
      constructor; eauto. }
  split.
  - split.
    + intros Hok name Hname.
      destruct (mapM f Config.REQUIRED_COLUMNS) as [k|] eqn:Hk; [|done].
      destruct (Hf _ _ Hk) as [_ H2].
      apply list_elem_of_lookup in Hname as [i Hi].
      destruct (Forall2_lookup_l _ _ _ _ _ H2 Hi) as (n & _ & col & Hget & _).
      by eapply get_Ok_elem.
    + intros Hall.
      destruct (mapM_total f Config.REQUIRED_COLUMNS) as (k & ->); [|done].
      apply Forall_forall. intros name Hname. unfold f.
      by destruct (get_elem _ _ (Hall name Hname)) as [col ->].
  - intros mv. destruct (mapM f Config.REQUIRED_COLUMNS) as [k|] eqn:Hk;
      [|done].
    rewrite bind_Ok_l. intros [= <-]. simpl.
    destruct (Hf _ _ Hk) as [H1 H2]. repeat split; try done.
    + rewrite Nat.ltb_ge. intros Hz name Hname.
      assert (Hsum : foldr Nat.add 0%nat k.*2 = 0%nat) by lia.
      apply sum_zero in Hsum.
      apply list_elem_of_lookup in Hname as [i Hi].
      destruct (Forall2_lookup_l _ _ _ _ _ H2 Hi)
        as (n & Hn & col & Hget & ->).
      rewrite Forall_lookup in Hsum. specialize (Hsum _ _ Hn).
      unfold column_all. rewrite Hget. by apply filter_nil_forallb.
    + intros Hall. apply Nat.ltb_ge.
      assert (Hsum : foldr Nat.add 0%nat k.*2 = 0%nat); [|lia].
      apply sum_zero, Forall_lookup. intros i n Hn.
      destruct (Forall2_lookup_r _ _ _ _ _ H2 Hn)
        as (name & Hi & col & Hget & ->).
      apply filter_nil_forallb.
      specialize (Hall name (list_elem_of_lookup_2 _ _ _ Hi)).
      unfold column_all in Hall. by rewrite Hget in Hall.
Qed.

Lemma numeric_Ok e col v : numeric e col = Ok v → col = of_floats v.
Proof.
  unfold numeric, of_floats. revert v.
  induction col as [|c col IH]; intros v; cbn [mapM].
  - by intros [= <-].
  - intros H. apply bind_Ok in H as (a & Ha & H).
    apply bind_Ok in H as (v' & Hv' & [= <-]).
    destruct c; try done. injection Ha as ->.
    rewrite fmap_cons. f_equal. by apply IH.
Qed.

Lemma is_flt_of_floats v : forallb is_flt (of_floats v) = true.
Proof. by induction v. Qed.

Lemma between_in_range v :
  Ser.all (Ser.between (Num 0) (Num 100) v) = forallb in_range (of_floats v).
Proof.
  unfold Ser.all, Ser.between, of_floats. induction v as [|a v IH]; [done|].
  rewrite !fmap_cons. cbn [forallb]. rewrite IH. f_equal.
  by destruct a as [|[]|x].
Qed.

Lemma check_data_ranges_loop_inv df names results ok dr :
  Validator.check_data_ranges_loop df names results ok = Ok dr →
  ∃ infos,
    dr = mkDataRanges (ok && forallb (fun x => valid x.2) infos)
           (results ++ infos)
    ∧ Forall2 (fun name x =>
                 x.1 = name
                 ∧ column_all is_flt name df = true
                 ∧ valid x.2 = column_all in_range name df)
              names infos.
Proof.
  revert results ok. induction names as [|name names IH]; intros results ok;
    cbn [Validator.check_data_ranges_loop].
  - intros [= <-]. exists []. rewrite app_nil_r, andb_true_r.
    split; [done|constructor].
  - intros H. apply bind_Ok in H as (col & Hget & H).
    apply bind_Ok in H as (is_valid & Hvalid & H).
    apply bind_Ok in H as (v & Hv & H).
    apply IH in H as (infos & -> & Hinfos).
    unfold validate_data_range in Hvalid.
    rewrite Hv, bind_Ok_l in Hvalid. injection Hvalid as <-.
    apply numeric_Ok in Hv as ->.
    eexists (_ :: infos). split.
    + rewrite <- app_assoc. simpl. f_equal.
      by destruct (Ser.all _), ok.
    + constructor; [|done]. simpl. unfold column_all. rewrite Hget.
      split; [done|]. split; [apply is_flt_of_floats|apply between_in_range].
Qed.

(** X10: [check_data_ranges] succeeds exactly when the four indicator
    columns exist and are numeric; it then reports one entry per
    indicator, in order, whose [valid] flag tells whether every value of
    the column is a finite number between 0 and 100 (a missing value makes
    it false), and [all_valid] is true exactly when this holds for all
    four indicators. *)
Theorem check_data_ranges_spec df :
  (is_ok (Validator.check_data_ranges df) = true ↔
   ∀ name, name ∈ Config.INDICATORS → column_all is_flt name df = true)
  ∧ ∀ dr, Validator.check_data_ranges df = Ok dr →
      (indicators dr).*1 = Config.INDICATORS
      ∧ (∀ name info, (name, info) ∈ indicators dr →
           valid info = column_all in_range name df)
      ∧ (all_valid dr = true ↔
         ∀ name, name ∈ Config.INDICATORS →
                 column_all in_range name df = true).
Proof.
  unfold Validator.check_data_ranges. split.
  - split.
    + intros Hok name Hname. apply is_ok_Ok in Hok as [dr Hdr].
      apply check_data_ranges_loop_inv in Hdr as (infos & _ & H2).
      apply list_elem_of_lookup in Hname as [i Hi].
      by destruct (Forall2_lookup_l _ _ _ _ _ H2 Hi) as (x & _ & _ & ? & _).
    + intros Hall.
      destruct (check_data_ranges_loop_spec df Config.INDICATORS [] true)
        as (infos & -> & _); [|done].
      by apply Forall_forall.
  - intros dr Hdr.
    apply check_data_ranges_loop_inv in Hdr as (infos & -> & H2).
    cbn [indicators all_valid app andb]. repeat split.
    + clear -H2. induction H2 as [|name x names infos (<- & _) _ IH]; [done|].
      rewrite fmap_cons. by f_equal.
    + intros name info Hin. apply list_elem_of_lookup in Hin as [i Hi].
      destruct (Forall2_lookup_r _ _ _ _ _ H2 Hi) as (n & _ & Hn & _ & Hv).
      simpl in Hn, Hv. by subst n.
    + intros Hall name Hname. apply list_elem_of_lookup in Hname as [i Hi].
      destruct (Forall2_lookup_l _ _ _ _ _ H2 Hi) as (x & Hx & _ & _ & Hv).
      rewrite <- Hv. rewrite forallb_forall in Hall.
      apply (Hall x), list_elem_of_In. by eapply list_elem_of_lookup_2.
    + intros Hall. apply forallb_forall. intros x Hx%list_elem_of_In.
      apply list_elem_of_lookup in Hx as [i Hi].
      destruct (Forall2_lookup_r _ _ _ _ _ H2 Hi) as (n & Hn & _ & _ & Hv).
      rewrite Hv. apply Hall. by eapply list_elem_of_lookup_2.
Qed.

(** ** Temporal continuity on quarter dates *)

Lemma days_before_year_succ y :
  Calendar.days_before_year (y + 1) - Calendar.days_before_year y
  = 365 + (if Calendar.is_leap y then 1 else 0).
Proof.
  unfold Calendar.days_before_year, Calendar.is_leap.
  replace (y + 1 - 1) with y by lia.
  destruct (Z.eqb_spec (y mod 4) 0), (Z.eqb_spec (y mod 100) 0),
    (Z.eqb_spec (y mod 400) 0); simpl; Z.div_mod_to_equations; lia.
Qed.

Lemma quarter_ordinal_step k :
  90 ≤ quarter_ordinal (k + 1) - quarter_ordinal k ≤ 92.
Proof.
  unfold quarter_ordinal, Calendar.toordinal, quarter_start.
  cbn [ts_year ts_month ts_day].
  assert (Hr : k mod 4 = 0 ∨ k mod 4 = 1 ∨ k mod 4 = 2 ∨ k mod 4 = 3)
    by (pose proof (Z.mod_pos_bound k 4); lia).
  destruct Hr as [Hr|[Hr|[Hr|Hr]]].
  - assert ((k + 1) / 4 = k / 4 ∧ (k + 1) mod 4 = 1) as [-> ->]
      by (Z.div_mod_to_equations; lia).
    rewrite Hr. unfold Calendar.days_before_month. simpl.
    destruct (Calendar.is_leap (k / 4)); lia.
  - assert ((k + 1) / 4 = k / 4 ∧ (k + 1) mod 4 = 2) as [-> ->]
      by (Z.div_mod_to_equations; lia).
    rewrite Hr. unfold Calendar.days_before_month. simpl.
    destruct (Calendar.is_leap (k / 4)); lia.
  - assert ((k + 1) / 4 = k / 4 ∧ (k + 1) mod 4 = 3) as [-> ->]
      by (Z.div_mod_to_equations; lia).
    rewrite Hr. unfold Calendar.days_before_month. simpl.
    destruct (Calendar.is_leap (k / 4)); lia.
  - assert ((k + 1) / 4 = k / 4 + 1 ∧ (k + 1) mod 4 = 0) as [-> ->]
      by (Z.div_mod_to_equations; lia).
    rewrite Hr. pose proof (days_before_year_succ (k / 4)) as Hy.
    unfold Calendar.days_before_month. simpl.
    destruct (Calendar.is_leap (k / 4)); simpl in *; lia.
Qed.

Lemma quarter_ordinal_span k j :
  0 ≤ j →
  90 * j ≤ quarter_ordinal (k + j) - quarter_ordinal k ≤ 92 * j.
Proof.
  intros Hj. pattern j. apply natlike_ind; [| |done].
  - rewrite Z.add_0_r. lia.
  - intros x Hx IH. pose proof (quarter_ordinal_step (k + x)).
    replace (k + Z.succ x) with (k + x + 1) by lia. lia.
Qed.

Lemma quarter_ordinal_gap a b :
  (135 <? quarter_ordinal b - quarter_ordinal a) = (2 <=? b - a).
Proof.
  destruct (Z.leb_spec 2 (b - a)) as [H|H].
  - pose proof (quarter_ordinal_span a (b - a)) as Hs.
    replace (a + (b - a)) with b in Hs by lia. apply Z.ltb_lt. lia.
  - apply Z.ltb_ge. destruct (Z.le_gt_cases a b) as [Hab|Hab].
    + pose proof (quarter_ordinal_span a (b - a)) as Hs.
      replace (a + (b - a)) with b in Hs by lia. lia.
    + pose proof (quarter_ordinal_span b (a - b)) as Hs.
      replace (b + (a - b)) with a in Hs by lia. lia.
Qed.

Lemma to_datetime_quarters ks :
  mapM Validator.to_datetime (quarter_dates ks)
  = Ok ((fun k => Some (quarter_ordinal k)) <$> ks).
Proof.
  unfold quarter_dates. induction ks as [|k ks IH]; [done|].
  rewrite !fmap_cons. cbn [mapM Validator.to_datetime].
  by rewrite bind_Ok_l, IH, bind_Ok_l.
Qed.

Lemma filter_imap_length {A B} (f : nat -> A -> B) (p : B -> bool)
    (q : A -> bool) (l : list A) :
  (∀ i x, p (f i x) = q x) →
  length (List.filter p (imap f l)) = length (List.filter q l).
Proof.
  revert f. induction l as [|x l IH]; intros f Hf; [done|].
  rewrite imap_cons. simpl. rewrite Hf.
  destruct (q x); simpl; rewrite (IH (f ∘ S)); auto; intros; apply Hf.
Qed.

Lemma loc_length df indices name l :
  Validator.loc df indices name = Ok l → length l = length indices.
Proof.
  unfold Validator.loc. destruct indices as [|i indices]; [by intros [= <-]|].
  intros H. apply bind_Ok in H as (col & _ & H). injection H as <-.
  cbn [length]. f_equal. apply length_fmap.
Qed.

Lemma gaps_quarters ks :
  length
    (List.filter
       (fun pc : option Z * option Z =>
          match pc with
          | (Some a, Some b) => 135 <? b - a
          | _ => false
          end)
       (zip ((fun k => Some (quarter_ordinal k)) <$> ks)
            (drop 1 ((fun k => Some (quarter_ordinal k)) <$> ks))))
  = length (List.filter skips_quarter (zip ks (drop 1 ks))).
Proof.
  destruct ks as [|a ks]; [done|]. rewrite fmap_cons.
  change (length
            (List.filter
               (fun pc : option Z * option Z =>
                  match pc with
                  | (Some a, Some b) => 135 <? b - a
                  | _ => false
                  end)
               (zip (Some (quarter_ordinal a)
                       :: ((fun k => Some (quarter_ordinal k)) <$> ks))
                    ((fun k => Some (quarter_ordinal k)) <$> ks)))
          = length (List.filter skips_quarter (zip (a :: ks) ks))).
  revert a. induction ks as [|b ks IH]; intros a; [done|].
  rewrite !fmap_cons. cbn [zip_with List.filter].
  rewrite quarter_ordinal_gap. unfold skips_quarter at 1. cbn [fst snd].
  destruct (2 <=? b - a); cbn [length]; [f_equal|]; apply IH.
Qed.

Lemma no_skip_lookup ks :
  length (List.filter skips_quarter (zip ks (drop 1 ks))) = 0%nat ↔
  ∀ i a b, ks !! i = Some a → ks !! S i = Some b → b - a ≤ 1.
Proof.
  rewrite filter_nil_forallb, forallb_forall. split.
  - intros H i a b Ha Hb.
    assert (Hz : zip ks (drop 1 ks) !! i = Some (a, b)).
    { rewrite lookup_zip_with, Ha, lookup_drop. cbn [Nat.add].
      by rewrite Hb. }
    apply list_elem_of_lookup_2, list_elem_of_In, H in Hz.
    unfold skips_quarter in Hz. simpl in Hz.
    apply negb_true_iff, Z.leb_gt in Hz. lia.
  - intros H [a b] Hin%list_elem_of_In.
    apply list_elem_of_lookup in Hin as [i Hi].
    apply lookup_zip_with_Some in Hi as (x & y & [= <- <-] & Hx & Hy).
    rewrite lookup_drop in Hy. cbn [Nat.add] in Hy.
    specialize (H i _ _ Hx Hy).
    unfold skips_quarter. simpl. apply negb_true_iff, Z.leb_gt. lia.
Qed.

(** X11: on a [Date] column of quarter start dates, the gaps that
    [check_temporal_continuity] counts are exactly the pairs of successive
    rows that lie two or more quarters apart: a step of one quarter (90
    to 92 days) is never a gap, a skipped quarter always is, and a
    repeated or an earlier quarter is not.  One quarter label is listed
    per gap, and the series is continuous exactly when no step skips a
    quarter. *)
Theorem check_temporal_continuity_gaps df ks tc :
  DF.get "Date" df = Ok (quarter_dates ks) →
  Validator.check_temporal_continuity df = Ok tc →
  actual_quarters tc = length ks
  ∧ gaps_found tc = length (List.filter skips_quarter (zip ks (drop 1 ks)))
  ∧ length (gap_locations tc) = gaps_found tc
  ∧ (is_continuous tc = true ↔
     ∀ i a b, ks !! i = Some a → ks !! S i = Some b → b - a ≤ 1).
Proof.
  intros Hget H. unfold Validator.check_temporal_continuity in H.
  rewrite Hget, bind_Ok_l, to_datetime_quarters, bind_Ok_l in H.
  apply bind_Ok in H as (expected & _ & H).
  apply bind_Ok in H as (locations & Hloc & [= <-]).
  cbn [actual_quarters gaps_found gap_locations is_continuous].
  apply loc_length in Hloc. rewrite length_fmap in Hloc.
  assert (Hgaps : ∀ l : list (option Z),
            length (List.filter (fun '(_, d) => match d with
                                                | Some days => 135 <? days
                                                | None => false
                                                end)
                      (Validator.diffs l))
            = length (List.filter
                        (fun pc : option Z * option Z =>
                           match pc with
                           | (Some a, Some b) => 135 <? b - a
                           | _ => false
                           end)
                        (zip l (drop 1 l)))).
  { intros l. unfold Validator.diffs. apply filter_imap_length.
    by intros i [[a|] [b|]]. }
  rewrite Hgaps, gaps_quarters in *.
  repeat split; try done.
  - by rewrite length_fmap.
  - intros Hc%Nat.eqb_eq. by apply no_skip_lookup.
  - intros Hc. apply Nat.eqb_eq. by apply no_skip_lookup.
Qed.

Lemma check_temporal_continuity_gaps_witness :
  ∃ tc,
    Validator.check_temporal_continuity Sample.sorted = Ok tc
    ∧ actual_quarters tc = 3%nat
    ∧ gaps_found tc = 2%nat
    ∧ length (gap_locations tc) = gaps_found tc
    ∧ (is_continuous tc = true ↔
       ∀ i a b, [8056; 8059; 8061] !! i = Some a →
                [8056; 8059; 8061] !! S i = Some b → b - a ≤ 1).
Proof.
  eexists. split; [vm_compute; reflexivity|].
  apply (check_temporal_continuity_gaps Sample.sorted [8056; 8059; 8061]);
    vm_compute; reflexivity.
Defined.

Lemma present_quarters ks :
  Validator.present ((fun k => Some (quarter_ordinal k)) <$> ks)
  = quarter_ordinal <$> ks.
Proof.
  unfold Validator.present. induction ks as [|k ks IH]; [done|].
  rewrite !fmap_cons. cbn [omap list_omap id]. by f_equal.
Qed.

Lemma quarter_ordinal_mono a b :
  a ≤ b → quarter_ordinal a ≤ quarter_ordinal b.
Proof.
  intros Hab. pose proof (quarter_ordinal_span a (b - a)) as Hs.
  replace (a + (b - a)) with b in Hs by lia. lia.
Qed.

Lemma foldl_max_quarters k ks :
  foldl Z.max (quarter_ordinal k) (quarter_ordinal <$> ks)
  = quarter_ordinal (foldl Z.max k ks).
Proof.
  revert k. induction ks as [|b ks IH]; intros k; [done|].
  rewrite fmap_cons. cbn [foldl]. rewrite <- IH. f_equal.
  destruct (Z.max_spec k b) as [[Hlt ->]|[Hle ->]].
  - apply Z.max_r, quarter_ordinal_mono. lia.
  - by apply Z.max_l, quarter_ordinal_mono.
Qed.

Lemma foldl_min_quarters k ks :
  foldl Z.min (quarter_ordinal k) (quarter_ordinal <$> ks)
  = quarter_ordinal (foldl Z.min k ks).
Proof.
  revert k. induction ks as [|b ks IH]; intros k; [done|].
  rewrite fmap_cons. cbn [foldl]. rewrite <- IH. f_equal.
  destruct (Z.min_spec k b) as [[Hlt ->]|[Hle ->]].
  - apply Z.min_l, quarter_ordinal_mono. lia.
  - by apply Z.min_r, quarter_ordinal_mono.
Qed.

Lemma foldl_min_max k ks : foldl Z.min k ks ≤ k ≤ foldl Z.max k ks.
Proof.
  revert k. induction ks as [|b ks IH]; intros k; [simpl; lia|].
  cbn [foldl]. pose proof (IH (Z.min k b)). pose proof (IH (Z.max k b)). lia.
Qed.

(** X12: on a [Date] column of quarter start dates, the
    [expected_quarters] that [check_temporal_continuity] reports is the
    number of quarters from the earliest to the latest date, both
    included, when they are fewer than 46; for a longer series the
    division of the day count by 90 can report up to one more quarter
    per 45 quarters spanned. *)
Theorem check_temporal_continuity_expected df k ks tc :
  DF.get "Date" df = Ok (quarter_dates (k :: ks)) →
  Validator.check_temporal_continuity df = Ok tc →
  let span := foldl Z.max k ks - foldl Z.min k ks in
  span + 1 ≤ expected_quarters tc ≤ span + 1 + span / 45
  ∧ (span < 45 → expected_quarters tc = span + 1).
Proof.
  intros Hget H. unfold Validator.check_temporal_continuity in H.
  rewrite Hget, bind_Ok_l, to_datetime_quarters, bind_Ok_l in H.
  rewrite present_quarters, !fmap_cons in H. cbv beta iota zeta in H.
  rewrite bind_Ok_l, foldl_max_quarters, foldl_min_quarters in H.
  apply bind_Ok in H as (locations & _ & [= <-]).
  cbn [expected_quarters].
  pose proof (foldl_min_max k ks) as Hmm.
  set (lo := foldl Z.min k ks) in *. set (hi := foldl Z.max k ks) in *.
  pose proof (quarter_ordinal_span lo (hi - lo)) as Hs.
  replace (lo + (hi - lo)) with hi in Hs by lia.
  split; [|intros Hshort]; Z.div_mod_to_equations; lia.
Qed.

Lemma check_temporal_continuity_expected_witness :
  ∃ tc,
    Validator.check_temporal_continuity Sample.sorted = Ok tc
    ∧ let span := foldl Z.max 8056 [8059; 8061]
                  - foldl Z.min 8056 [8059; 8061] in
      span + 1 ≤ expected_quarters tc ≤ span + 1 + span / 45
      ∧ (span < 45 → expected_quarters tc = span + 1).
Proof.
  eexists. split; [vm_compute; reflexivity|].
  apply (check_temporal_continuity_expected Sample.sorted 8056 [8059; 8061]);
    vm_compute; reflexivity.
Defined.

(** ** Consistency of ER and UR *)

Lemma length_where_true l : length (Ser.where_true l) = Ser.count_true l.
Proof.
  unfold Ser.where_true, Ser.count_true. rewrite length_fmap.
  by apply filter_imap_length.
Qed.

Lemma count_true_le l : (Ser.count_true l ≤ length l)%nat.
Proof.
  unfold Ser.count_true. induction l as [|[] l IH]; simpl; lia.
Qed.

Lemma any_count_true l : Ser.any l = negb (Ser.count_true l =? 0)%nat.
Proof.
  unfold Ser.any, Ser.count_true. induction l as [|[] l IH]; try done.
Qed.

Lemma inconsistent_notnan e u :
  Float.gt (Float.abs (Float.sub (Float.add e u) (Num 100))) (Num 2) = true →
  Float.isnan e = false ∧ Float.isnan u = false.
Proof. by destruct e as [|[]|x], u as [|[]|y]. Qed.

Lemma count_inconsistent_present er ur :
  (Ser.count_true
     ((fun s => Float.gt (Float.abs (Float.sub s (Num 100))) (Num 2))
        <$> zip_with Float.add er ur)
   ≤ length (List.filter
               (fun r : float * float =>
                  negb (Float.isnan r.1) && negb (Float.isnan r.2))
               (zip er ur)))%nat.
Proof.
  unfold Ser.count_true. revert ur.
  induction er as [|e er IH]; intros [|u ur]; try (simpl; lia).
  specialize (IH ur). cbn [zip_with]. rewrite fmap_cons.
  cbn [List.filter fst snd].
  destruct (id (Float.gt (Float.abs (Float.sub (Float.add e u) (Num 100)))
                  (Num 2))) eqn:Hflag.
  - apply inconsistent_notnan in Hflag as [-> ->]. cbn [negb andb length].
    lia.
  - destruct (negb (Float.isnan e) && negb (Float.isnan u)); cbn [length]; lia.
Qed.

(** X13: when [check_consistency] returns, it lists one quarter label
    per row it counts and reports consistency exactly when it counts
    none; a row that misses ER or UR is never counted, so the count is at
    most the number of rows where both are present. *)
Theorem check_consistency_spec df er ur cs :
  DF.get "ER" df = Ok (of_floats er) →
  DF.get "UR" df = Ok (of_floats ur) →
  Validator.check_consistency df = Ok cs →
  length (inconsistent_quarters cs) = inconsistent_count cs
  ∧ (er_ur_consistent cs = true ↔ inconsistent_count cs = 0%nat)
  ∧ (inconsistent_count cs
     ≤ length (List.filter
                 (fun r : float * float =>
                    negb (Float.isnan r.1) && negb (Float.isnan r.2))
                 (zip er ur)))%nat
  ∧ (inconsistent_count cs ≤ DF.len df)%nat.
Proof.
  intros Hger Hgur H. unfold Validator.check_consistency in H.
  rewrite Hger, bind_Ok_l, Hgur, bind_Ok_l in H.
  rewrite (numeric_of_floats _ er), bind_Ok_l in H.
  rewrite (numeric_of_floats _ ur), bind_Ok_l in H.
  cbv zeta in H.
  pose proof (count_inconsistent_present er ur) as Hle.
  set (flags := _ <$> zip_with Float.add er ur) in *.
  apply bind_Ok in H as (qs & Hqs & [= <-]).
  cbn [inconsistent_count inconsistent_quarters er_ur_consistent].
  assert (Hlen : length qs = Ser.count_true flags).
  { rewrite any_count_true in Hqs.
    destruct (Ser.count_true flags =? 0)%nat eqn:Hc; simpl in Hqs.
    - injection Hqs as <-. by apply Nat.eqb_eq in Hc.
    - apply loc_length in Hqs. by rewrite length_where_true in Hqs. }
  split; [done|]. split.
  { rewrite any_count_true, negb_involutive. apply Nat.eqb_eq. }
  split; [done|].
  etransitivity; [apply count_true_le|]. unfold flags.
  rewrite length_fmap, length_zip_with.
  apply get_length in Hger. unfold of_floats in Hger.
  rewrite length_fmap in Hger. lia.
Qed.

Lemma check_consistency_spec_witness :
  let er := Num <$> [93; 93; 93; 93; 93; 93]%Q in
  let ur := Num <$> [7; 7; 0; 7; 7; 7]%Q in
  let cs := mkConsistency false 1 [Str "2014 Q3"] in
  length (inconsistent_quarters cs) = inconsistent_count cs
  ∧ (er_ur_consistent cs = true ↔ inconsistent_count cs = 0%nat)
  ∧ (inconsistent_count cs
     ≤ length (List.filter
                 (fun r : float * float =>
                    negb (Float.isnan r.1) && negb (Float.isnan r.2))
                 (zip er ur)))%nat
  ∧ (inconsistent_count cs ≤ DF.len Sample.with_outlier)%nat.
Proof.
  apply (check_consistency_spec Sample.with_outlier);
    vm_compute; reflexivity.
Defined.

(** ** Validation of an empty table *)

Lemma get_empty name df :
  name ∈ columns df → rows df = [] → DF.get name df = Ok [].
Proof.
  intros Hin Hrows. unfold DF.get.
  destruct (index_of_elem _ _ Hin) as [j ->]. by rewrite Hrows.
Qed.

(** X14: a validator built over a table that has the columns but no row
    cannot validate it: the missing-value and range checks pass, then
    [check_temporal_continuity] has no date to take a range from and the
    conversion of its expected quarter count raises; [validate_all]
    raises with it and stores no result. *)
Theorem validate_all_empty self :
  rows (v_data self) = [] →
  (∀ c, c ∈ Config.REQUIRED_COLUMNS → c ∈ columns (v_data self)) →
  "Date" ∈ columns (v_data self) →
  is_ok (Validator.check_missing_values (v_data self)) = true
  ∧ is_ok (Validator.check_data_ranges (v_data self)) = true
  ∧ Validator.check_temporal_continuity (v_data self) = Err IntNaN
  ∧ Validator.validate_all self = (Err IntNaN, self).
Proof.
  intros Hrows Hreq Hdate. set (df := v_data self) in *.
  assert (Hmv : ∃ mv, Validator.check_missing_values df = Ok mv).
  { unfold Validator.check_missing_values.
    match goal with
    | |- context [mapM ?f Config.REQUIRED_COLUMNS] =>
        destruct (mapM_total f Config.REQUIRED_COLUMNS) as (k & ->)
    end; [|rewrite bind_Ok_l; eauto].
    apply Forall_forall. intros name Hname.
    by rewrite (get_empty _ _ (Hreq name Hname) Hrows). }
  assert (Hdr : ∃ dr, Validator.check_data_ranges df = Ok dr).
  { unfold Validator.check_data_ranges.
    destruct (check_data_ranges_loop_spec df Config.INDICATORS [] true)
      as (infos & -> & _); [|eauto].
    apply Forall_forall. intros name Hname. unfold column_all.
    rewrite (get_empty name df); [done| |done].
    by apply Hreq, (subseteq_drop 1 Config.REQUIRED_COLUMNS). }
  assert (Htc : Validator.check_temporal_continuity df = Err IntNaN).
  { unfold Validator.check_temporal_continuity.
    by rewrite (get_empty _ _ Hdate Hrows). }
  destruct Hmv as [mv Hmv], Hdr as [dr Hdr].
  rewrite Hmv, Hdr. repeat split; try done.
  unfold Validator.validate_all, Validator.run_checks. fold df.
  by rewrite Hmv, bind_Ok_l, Hdr, bind_Ok_l, Htc.
Qed.

Lemma validate_all_empty_witness :
  let self :=
    mkDataValidator
      (mkDataFrame ["Quarter"; "LFPR"; "ER"; "UR"; "UER"; "Date"] []) None in
  is_ok (Validator.check_missing_values (v_data self)) = true
  ∧ is_ok (Validator.check_data_ranges (v_data self)) = true
  ∧ Validator.check_temporal_continuity (v_data self) = Err IntNaN
  ∧ Validator.validate_all self = (Err IntNaN, self).
Proof.
  apply (validate_all_empty
           (mkDataValidator
              (mkDataFrame ["Quarter"; "LFPR"; "ER"; "UR"; "UER"; "Date"] [])
              None)).
  - reflexivity.
  - intros c Hc. apply list_elem_of_In. apply list_elem_of_In in Hc.
    simpl in *. tauto.
  - by_compute.
Defined.

(** ** Lag features *)

Lemma nat_to_string_inj m n : nat_to_string m = nat_to_string n → m = n.
Proof.
  unfold nat_to_string. intros H. apply DecimalNat.Unsigned.to_uint_inj.
  apply (f_equal NilEmpty.uint_of_string) in H.
  rewrite !NilEmpty.usu in H. by injection H.
Qed.

Lemma get_set_same name s df :
  rectangular df = true → length s = DF.len df →
  DF.get name (DF.set name s df) = Ok s.
Proof.
  intros Hrect Hlen. rewrite get_set_eq by done. f_equal.
  by apply imap_nth_same.
Qed.

Lemma lag_columns data lags df :
  rectangular df = true → DF.len df = length data →
  let step := fun df lag =>
    DF.set ("lag_" +:+ nat_to_string lag) (Ser.shift (Flt NaN) lag data) df in
  rectangular (foldl step df lags) = true
  ∧ DF.len (foldl step df lags) = length data
  ∧ (∀ lag, lag ∈ lags →
       DF.get ("lag_" +:+ nat_to_string lag) (foldl step df lags)
       = Ok (Ser.shift (Flt NaN) lag data))
  ∧ (∀ name, (∀ lag, lag ∈ lags → name ≠ "lag_" +:+ nat_to_string lag) →
       DF.get name (foldl step df lags) = DF.get name df).
Proof.
  intros Hrect Hlen step. revert df Hrect Hlen.
  induction lags as [|l lags IH]; intros df Hrect Hlen.
  - repeat split; try done. by intros lag ?%elem_of_nil.
  - cbn [foldl].
    assert (Hrect' : rectangular (step df l) = true)
      by (by apply rectangular_set).
    assert (Hlen' : DF.len (step df l) = length data)
      by (unfold step; by rewrite len_set).
    destruct (IH _ Hrect' Hlen') as (H1 & H2 & H3 & H4).
    repeat split; try done.
    + intros lag Hin. destruct (decide (lag ∈ lags)) as [Hlag|Hlag]; [eauto|].
      apply elem_of_cons in Hin as [->|Hin]; [|done].
      rewrite H4.
      * unfold step. apply get_set_same; [done|].
        by rewrite length_shift.
      * intros lag Hin [= Heq]. apply nat_to_string_inj in Heq. by subst.
    + intros name Hname. rewrite H4.
      * unfold step. rewrite get_set_ne; [done..|].
        apply Hname. by left.
      * intros lag Hin. apply Hname. by right.
Qed.

(** X15: for each requested lag [k], the frame built by
    [create_lag_features] has a column [lag_k] that is the data moved
    down by [k] rows: its first [k] entries are missing and entry [i] is
    entry [i - k] of the data; the frame has as many rows as the data,
    whatever the order of the lags and however often one is repeated. *)
Theorem create_lag_features_spec data lags lag :
  lag ∈ lags →
  ∃ col,
    DF.get ("lag_" +:+ nat_to_string lag) (create_lag_features data lags)
    = Ok col
    ∧ DF.len (create_lag_features data lags) = length data
    ∧ length col = length data
    ∧ ∀ i, (i < length data)%nat →
           col !! i = if decide (i < lag)%nat then Some (Flt NaN)
                      else data !! (i - lag)%nat.
Proof.
  intros Hin. unfold create_lag_features.
  destruct (lag_columns data lags (mkDataFrame [] (replicate (length data) [])))
    as (_ & Hlen & Hget & _).
  { unfold rectangular. simpl. by induction (length data). }
  { unfold DF.len. simpl. by rewrite length_replicate. }
  exists (Ser.shift (Flt NaN) lag data). repeat split; auto.
  - apply length_shift.
  - intros i Hi. case_decide.
    + by apply shift_lookup_lt.
    + apply shift_lookup_ge; [lia|done].
Qed.

Lemma create_lag_features_spec_witness :
  ∃ col,
    DF.get ("lag_" +:+ nat_to_string 2)
      (create_lag_features [Sample.num 7; Sample.num 6; Sample.num 5]
         [1; 2; 1]%nat)
    = Ok col
    ∧ DF.len (create_lag_features [Sample.num 7; Sample.num 6; Sample.num 5]
                [1; 2; 1]%nat)
      = length [Sample.num 7; Sample.num 6; Sample.num 5]
    ∧ length col = length [Sample.num 7; Sample.num 6; Sample.num 5]
    ∧ ∀ i, (i < length [Sample.num 7; Sample.num 6; Sample.num 5])%nat →
           col !! i = if decide (i < 2)%nat then Some (Flt NaN)
                      else [Sample.num 7; Sample.num 6; Sample.num 5]
                             !! (i - 2)%nat.
Proof.
  apply (create_lag_features_spec
           [Sample.num 7; Sample.num 6; Sample.num 5] [1; 2; 1]%nat 2%nat).
  by_compute.
Defined.

Lemma index_of_app_l name cols cols' j :
  DF.index_of name cols = Some j → DF.index_of name (cols ++ cols') = Some j.
Proof.
  revert j. induction cols as [|c cols IH]; intros j; [done|]. simpl.
  destruct (String.eqb c name); [done|].
  destruct (DF.index_of name cols) as [i|]; [|done].
  intros [= <-]. by rewrite (IH i).
Qed.

Lemma index_of_app_r name cols cols' :
  DF.index_of name cols = None →
  DF.index_of name (cols ++ cols')
  = (fun j => (length cols + j)%nat) <$> DF.index_of name cols'.
Proof.
  induction cols as [|c cols IH]; simpl.
  - intros _. by destruct (DF.index_of name cols').
  - destruct (String.eqb c name); [done|].
    destruct (DF.index_of name cols) as [i|]; [done|]. intros _.
    rewrite IH by done. by destruct (DF.index_of name cols').
Qed.

Lemma index_of_fmap (f : string -> string) name cols :
  (∀ a b, f a = f b → a = b) →
  DF.index_of (f name) (f <$> cols) = DF.index_of name cols.
Proof.
  intros Hinj. induction cols as [|c cols IH]; [done|].
  rewrite fmap_cons. simpl. rewrite IH.
  destruct (String.eqb_spec c name) as [->|Hne].
  - by rewrite String.eqb_refl.
  - destruct (String.eqb_spec (f c) (f name)) as [Heq|]; [|done].
    by apply Hinj in Heq.
Qed.

Lemma append_inj (a b c : string) : a +:+ b = a +:+ c → b = c.
Proof. induction a as [|x a IH]; simpl; [done|]. intros [= H]. by apply IH. Qed.

Lemma get_concat_l name df1 df2 :
  rectangular df1 = true → DF.len df1 = DF.len df2 →
  name ∈ columns df1 →
  DF.get name (DF.concat df1 df2) = DF.get name df1.
Proof.
  intros Hrect Hlen Hin. unfold DF.get, DF.concat. simpl.
  destruct (index_of_elem _ _ Hin) as [j Hj].
  rewrite (index_of_app_l _ _ _ _ Hj), Hj. f_equal.
  apply index_of_Some, lookup_lt_Some in Hj.
  rewrite rectangular_Forall in Hrect. unfold DF.len in Hlen.
  revert Hrect Hlen. generalize (rows df2).
  induction (rows df1) as [|r1 rows1 IH]; intros [|r2 rows2] Hrect Hlen;
    try done.
  apply Forall_cons in Hrect as [Hr1 Hrect].
  cbn [zip_with]. rewrite !fmap_cons. f_equal.
  - unfold DF.cell_at. apply app_nth1. lia.
  - apply IH; [done|]. simpl in Hlen. lia.
Qed.

Lemma get_concat_r name df1 df2 col :
  rectangular df1 = true → DF.len df1 = DF.len df2 →
  name ∉ columns df1 →
  DF.get name df2 = Ok col →
  DF.get name (DF.concat df1 df2) = Ok col.
Proof.
  intros Hrect Hlen Hout. unfold DF.get, DF.concat. simpl.
  destruct (DF.index_of name (columns df1)) as [j|] eqn:Hj.
  { exfalso. apply Hout. eapply list_elem_of_lookup_2.
    by apply index_of_Some. }
  rewrite (index_of_app_r _ _ _ Hj).
  destruct (DF.index_of name (columns df2)) as [i|]; [|done]. simpl.
  intros [= <-]. f_equal.
  rewrite rectangular_Forall in Hrect. unfold DF.len in Hlen.
  revert Hrect Hlen. generalize (rows df2).
  induction (rows df1) as [|r1 rows1 IH]; intros [|r2 rows2] Hrect Hlen;
    try done.
  apply Forall_cons in Hrect as [Hr1 Hrect].
  cbn [zip_with]. rewrite !fmap_cons. f_equal.
  - unfold DF.cell_at. rewrite <- Hr1. apply app_nth2_plus.
  - apply IH; [done|]. simpl in Hlen. lia.
Qed.

(** X16: on a rectangular table, [add_lag_features] for one indicator
    keeps every row and every column of the stored table as it is and,
    for each lag [k] whose column name is not taken yet, adds the column
    [<indicator>_lag_<k>] holding the indicator moved down by [k] rows. *)
Theorem add_lag_features_spec self indicator lags col :
  rectangular (p_data self) = true →
  DF.get indicator (p_data self) = Ok col →
  (∀ k, k ∈ lags →
        indicator +:+ "_" +:+ "lag_" +:+ nat_to_string k
        ∉ columns (p_data self)) →
  ∃ out,
    add_lag_features self [indicator] lags = Ok out
    ∧ DF.len out = DF.len (p_data self)
    ∧ (∀ name, name ∈ columns (p_data self) →
               DF.get name out = DF.get name (p_data self))
    ∧ (∀ k, k ∈ lags →
            DF.get (indicator +:+ "_" +:+ "lag_" +:+ nat_to_string k) out
            = Ok (Ser.shift (Flt NaN) k col)).
Proof.
  intros Hrect Hget Hfresh. unfold add_lag_features.
  cbn [add_lag_features_loop]. rewrite Hget, bind_Ok_l. cbv zeta.
  eexists. split; [done|].
  destruct (lag_columns col lags
              (mkDataFrame [] (replicate (length col) [])))
    as (_ & Hlen & Hlag & _).
  { unfold rectangular. simpl. by induction (length col). }
  { unfold DF.len. simpl. by rewrite length_replicate. }
  fold (create_lag_features col lags) in Hlen, Hlag.
  set (lag_df := create_lag_features col lags) in *.
  set (renamed := mkDataFrame _ (rows lag_df)).
  assert (Hlen' : DF.len (p_data self) = DF.len renamed).
  { transitivity (DF.len lag_df); [|done].
    by rewrite Hlen, (get_length _ _ _ Hget). }
  repeat split.
  - unfold DF.len, renamed in *. cbn [rows DF.concat] in *.
    rewrite length_zip_with. lia.
  - intros name Hname. by apply get_concat_l.
  - intros k Hk. apply get_concat_r; [done|done|by apply Hfresh|].
    specialize (Hlag k Hk). unfold DF.get in Hlag |- *.
    unfold renamed. cbn [columns rows].
    rewrite (index_of_fmap (fun c => indicator +:+ "_" +:+ c));
      [by destruct (DF.index_of _ _)|].
    intros a b Hab. by apply append_inj, append_inj in Hab.
Qed.

Lemma add_lag_features_spec_witness :
  ∃ out,
    add_lag_features (mkDataPreprocessor Sample.loaded) ["UER"] [1; 2; 4]%nat
    = Ok out
    ∧ DF.len out = DF.len Sample.loaded
    ∧ (∀ name, name ∈ columns Sample.loaded →
               DF.get name out = DF.get name Sample.loaded)
    ∧ (∀ k, k ∈ [1; 2; 4]%nat →
            DF.get ("UER" +:+ "_" +:+ "lag_" +:+ nat_to_string k) out
            = Ok (Ser.shift (Flt NaN) k
                    [Sample.num 19; Sample.num 18; Sample.num 17;
                     Sample.num 18; Sample.num 19; Sample.num 20])).
Proof.
  apply (add_lag_features_spec (mkDataPreprocessor Sample.loaded) "UER"
           [1; 2; 4]%nat).
  - reflexivity.
  - reflexivity.
  - intros k Hk. repeat (apply elem_of_cons in Hk as [->|Hk]);
      [by_compute..|by apply elem_of_nil in Hk].
Defined.

(** ** Rate of change *)

Lemma length_ffill_from prev l : length (Ser.ffill_from prev l) = length l.
Proof.
  revert prev. induction l as [|a l IH]; intros prev; [done|].
  simpl. by rewrite IH.
Qed.

Lemma length_pct_change pad p v : length (Ser.pct_change pad p v) = length v.
Proof.
  unfold Ser.pct_change. rewrite length_zip_with, length_shift.
  destruct pad; [|lia]. unfold Ser.ffill. rewrite length_ffill_from. lia.
Qed.

Lemma pct_change_lookup pad p v i a :
  forallb (fun x => negb (Float.isnan x)) v = true →
  v !! i = Some a →
  Ser.pct_change pad p v !! i
  = Some (Float.sub
            (Float.div a (if decide (i < p)%nat then NaN
                          else default NaN (v !! (i - p)%nat)))
            (Num 1)).
Proof.
  intros Hv Ha. unfold Ser.pct_change.
  assert ((if pad then Ser.ffill v else v) = v) as ->.
  { destruct pad; [|done]. by apply ffill_from_id. }
  rewrite lookup_zip_with, Ha. simpl.
  pose proof (lookup_lt_Some _ _ _ Ha) as Hi. case_decide as Hip.
  - by rewrite shift_lookup_lt.
  - rewrite shift_lookup_ge by lia.
    destruct (lookup_lt_is_Some_2 v (i - p)%nat) as [b Hb]; [lia|].
    by rewrite Hb.
Qed.

Lemma add_rate_of_change_inner_spec pad df indicator v periods :
  rectangular df = true →
  DF.get indicator df = Ok (of_floats v) →
  ∃ out,
    add_rate_of_change_inner pad df indicator periods = Ok out
    ∧ rectangular out = true
    ∧ DF.len out = DF.len df
    ∧ (∀ name,
         (∀ p, p ∈ periods →
               name ≠ indicator +:+ "_change" +:+ nat_to_string p) →
         DF.get name out = DF.get name df)
    ∧ (∀ p, p ∈ periods →
         DF.get (indicator +:+ "_change" +:+ nat_to_string p) out
         = Ok (of_floats ((fun a => Float.mul a (Num 100))
                            <$> Ser.pct_change pad p v))).
Proof.
  revert df. induction periods as [|q periods IH]; intros df Hrect Hget.
  - exists df. repeat split; try done. by intros p ?%elem_of_nil.
  - cbn [add_rate_of_change_inner]. unfold change_column.
    rewrite Hget, bind_Ok_l, numeric_of_floats, !bind_Ok_l.
    set (change := of_floats _).
    set (df' := DF.set _ change df).
    assert (Hrect' : rectangular df' = true) by (by apply rectangular_set).
    assert (Hget' : DF.get indicator df' = Ok (of_floats v)).
    { unfold df'. rewrite get_set_ne; [done..|]. apply append_neq. }
    destruct (IH df' Hrect' Hget') as (out & -> & H1 & H2 & H3 & H4).
    assert (Hlen : length change = DF.len df).
    { unfold change, of_floats. rewrite !length_fmap, length_pct_change.
      apply get_length in Hget. unfold of_floats in Hget.
      by rewrite length_fmap in Hget. }
    exists out. split; [done|]. split; [done|].
    split; [by rewrite H2; apply len_set|]. split.
    + intros name Hname. rewrite H3.
      * unfold df'. rewrite get_set_ne; [done..|]. apply Hname. by left.
      * intros p Hp. apply Hname. by right.
    + intros p Hin. destruct (decide (p ∈ periods)) as [Hp|Hp]; [eauto|].
      apply elem_of_cons in Hin as [->|Hin]; [|done].
      rewrite H3.
      * unfold df'. by apply get_set_same.
      * intros p Hin Heq. apply append_inj, append_inj in Heq.
        apply nat_to_string_inj in Heq. by subst.
Qed.

Lemma zero_denominator_not_finite a b :
  Float.is_zero b = true →
  let c := Float.mul (Float.sub (Float.div (Num a) (Num b)) (Num 1))
                     (Num 100) in
  c = NaN ∨ ∃ s, c = Inf s.
Proof.
  intros Hb. simpl. rewrite Hb.
  destruct (Float.is_zero a); [by left|]. right.
  destruct (Float.is_neg a); eauto.
Qed.

(** X17: on a rectangular table whose indicator column is numeric
    without missing values, [add_rate_of_change] for one indicator
    succeeds, keeps the row count and every other column, and for each
    period [p] stores in [<indicator>_change<p>] a column that is missing
    in its first [p] rows and, from row [p] on, is [(a / b - 1) * 100]
    for the current value [a] and the value [b] of [p] rows earlier when
    [b] is not zero.  Where [b] is zero the entry is NaN or an infinity:
    nothing is raised and no finite default is substituted. *)
Theorem add_rate_of_change_spec pad self indicator v periods :
  rectangular (p_data self) = true →
  DF.get indicator (p_data self) = Ok (of_floats v) →
  forallb (fun x => negb (Float.isnan x)) v = true →
  ∃ out,
    add_rate_of_change pad self [indicator] periods = Ok out
    ∧ DF.len out = DF.len (p_data self)
    ∧ (∀ name,
         (∀ p, p ∈ periods →
               name ≠ indicator +:+ "_change" +:+ nat_to_string p) →
         DF.get name out = DF.get name (p_data self))
    ∧ ∀ p, p ∈ periods →
        ∃ change,
          DF.get (indicator +:+ "_change" +:+ nat_to_string p) out
          = Ok (of_floats change)
          ∧ length change = length v
          ∧ (∀ i, (i < p)%nat → (i < length v)%nat →
                  change !! i = Some NaN)
          ∧ (∀ i a b, (p ≤ i)%nat →
                      v !! i = Some (Num a) →
                      v !! (i - p)%nat = Some (Num b) →
                      Float.is_zero b = false →
                      change !! i = Some (Num ((a / b - 1) * 100)))
          ∧ (∀ i a b, (p ≤ i)%nat →
                      v !! i = Some (Num a) →
                      v !! (i - p)%nat = Some (Num b) →
                      Float.is_zero b = true →
                      ∃ c, change !! i = Some c
                           ∧ (c = NaN ∨ ∃ s, c = Inf s)).
Proof.
  intros Hrect Hget Hv. unfold add_rate_of_change.
  cbn [add_rate_of_change_loop].
  destruct (add_rate_of_change_inner_spec pad (p_data self) indicator v
              periods Hrect Hget) as (out & -> & _ & Hlen & Hother & Hp).
  exists out. rewrite bind_Ok_l. repeat split; try done.
  intros p Hin. eexists. split; [by apply Hp|].
  split; [by rewrite length_fmap, length_pct_change|].
  assert (Hcell : ∀ i a b, (p ≤ i)%nat →
            v !! i = Some a → v !! (i - p)%nat = Some b →
            ((fun x => Float.mul x (Num 100)) <$> Ser.pct_change pad p v) !! i
            = Some (Float.mul (Float.sub (Float.div a b) (Num 1)) (Num 100))).
  { intros i a b Hip Ha Hb.
    rewrite list_lookup_fmap, (pct_change_lookup pad p v i _ Hv Ha).
    rewrite decide_False by lia. by rewrite Hb. }
  split; [|split].
  - intros i Hip Hi. destruct (lookup_lt_is_Some_2 v i Hi) as [a Ha].
    rewrite list_lookup_fmap, (pct_change_lookup pad p v i a Hv Ha).
    rewrite decide_True by done. by destruct a as [|[]|x].
  - intros i a b Hip Ha Hb Hz. rewrite (Hcell i _ _ Hip Ha Hb).
    simpl. by rewrite Hz.
  - intros i a b Hip Ha Hb Hz. eexists. split; [by apply Hcell|].
    by apply zero_denominator_not_finite.
Qed.

Lemma add_rate_of_change_spec_witness :
  let v := Num <$> [7; 6; 5; 0; 5; 6]%Q in
  ∃ out,
    add_rate_of_change true (mkDataPreprocessor Sample.with_zero) ["UR"]
      [1; 4]%nat = Ok out
    ∧ DF.len out = DF.len Sample.with_zero
    ∧ (∀ name,
         (∀ p, p ∈ [1; 4]%nat →
               name ≠ "UR" +:+ "_change" +:+ nat_to_string p) →
         DF.get name out = DF.get name Sample.with_zero)
    ∧ ∀ p, p ∈ [1; 4]%nat →
        ∃ change,
          DF.get ("UR" +:+ "_change" +:+ nat_to_string p) out
          = Ok (of_floats change)
          ∧ length change = length v
          ∧ (∀ i, (i < p)%nat → (i < length v)%nat →
                  change !! i = Some NaN)
          ∧ (∀ i a b, (p ≤ i)%nat →
                      v !! i = Some (Num a) →
                      v !! (i - p)%nat = Some (Num b) →
                      Float.is_zero b = false →
                      change !! i = Some (Num ((a / b - 1) * 100)))
          ∧ (∀ i a b, (p ≤ i)%nat →
                      v !! i = Some (Num a) →
                      v !! (i - p)%nat = Some (Num b) →
                      Float.is_zero b = true →
                      ∃ c, change !! i = Some c
                           ∧ (c = NaN ∨ ∃ s, c = Inf s)).
Proof.
  apply (add_rate_of_change_spec true (mkDataPreprocessor Sample.with_zero)
           "UR" (Num <$> [7; 6; 5; 0; 5; 6]%Q) [1; 4]%nat);
    reflexivity.
Defined.

(** ** Moving averages *)

Lemma sum_Num qs : Ser.sum (Num <$> qs) = Num (foldr Qplus 0%Q qs).
Proof.
  unfold Ser.sum. induction qs as [|q qs IH]; [done|].
  rewrite fmap_cons. cbn [foldr]. by rewrite IH.
Qed.

Lemma of_nat_nonzero w :
  (1 ≤ w)%nat →
  Float.is_zero (inject_Z (Z.of_nat w)) = false
  ∧ (0 < inject_Z (Z.of_nat w))%Q.
Proof.
  intros Hw. split.
  - unfold Float.is_zero. destruct (Qeq_bool _ 0) eqn:E; [|done].
    apply Qeq_bool_iff in E. unfold Qeq in E. simpl in E. lia.
  - unfold Qlt. simpl. lia.
Qed.

Lemma rolling_mean_lookup w qs i :
  (1 ≤ w)%nat → (i < length qs)%nat →
  Ser.rolling_mean w (Num <$> qs) !! i
  = Some (if (S i <? w)%nat then NaN
          else Num (foldr Qplus 0%Q (take w (drop (S i - w) qs))
                    / inject_Z (Z.of_nat w))).
Proof.
  intros Hw Hi. unfold Ser.rolling_mean.
  destruct (lookup_lt_is_Some_2 qs i Hi) as [q Hq].
  rewrite list_lookup_imap, list_lookup_fmap, Hq. simpl.
  destruct (S i <? w)%nat; [done|].
  rewrite <- fmap_drop, <- fmap_take, sum_Num. unfold Float.of_nat. simpl.
  by destruct (of_nat_nonzero w Hw) as [-> _].
Qed.






Lemma add_moving_averages_inner_spec df indicator v windows :
  rectangular df = true →
  DF.get indicator df = Ok (of_floats v) →
  ∃ out,
    add_moving_averages_inner df indicator windows = Ok out
    ∧ rectangular out = true
    ∧ DF.len out = DF.len df
    ∧ (∀ name,
         (∀ w, w ∈ windows → name ≠ indicator +:+ "_ma" +:+ nat_to_string w) →
         DF.get name out = DF.get name df)
    ∧ (∀ w, w ∈ windows →
         DF.get (indicator +:+ "_ma" +:+ nat_to_string w) out
         = Ok (of_floats (Ser.rolling_mean w v))).
Proof.
  revert df. induction windows as [|q windows IH]; intros df Hrect Hget.
  - exists df. repeat split; try done. by intros w ?%elem_of_nil.
  - cbn [add_moving_averages_inner]. unfold calculate_moving_average.
    rewrite Hget, bind_Ok_l, numeric_of_floats, !bind_Ok_l.
    set (ma := of_floats _).
    set (df' := DF.set _ ma df).
    assert (Hrect' : rectangular df' = true) by (by apply rectangular_set).
    assert (Hget' : DF.get indicator df' = Ok (of_floats v)).
    { unfold df'. rewrite get_set_ne; [done..|]. apply append_neq. }
    destruct (IH df' Hrect' Hget') as (out & -> & H1 & H2 & H3 & H4).
    assert (Hlen : length ma = DF.len df).
    { unfold ma, of_floats, Ser.rolling_mean. rewrite length_fmap, length_imap.
      apply get_length in Hget. unfold of_floats in Hget.
      by rewrite length_fmap in Hget. }
    exists out. split; [done|]. split; [done|].
    split; [by rewrite H2; apply len_set|]. split.
    + intros name Hname. rewrite H3.
      * unfold df'. rewrite get_set_ne; [done..|]. apply Hname. by left.
      * intros w Hw. apply Hname. by right.
    + intros w Hin. destruct (decide (w ∈ windows)) as [Hw|Hw]; [eauto|].
      apply elem_of_cons in Hin as [->|Hin]; [|done].
      rewrite H3.
      * unfold df'. by apply get_set_same.
      * intros w Hin Heq. apply append_inj, append_inj in Heq.
        apply nat_to_string_inj in Heq. by subst.
Qed.

(** X19: on a rectangular table whose indicator column holds finite
    numbers, [add_moving_averages] for one indicator succeeds, keeps the
    row count and every other column, and for each window [w >= 1]
    stores in [<indicator>_ma<w>] what [calculate_moving_average] returns
    for the column: missing in the first [w - 1] rows, then the mean of
    the [w] values ending at the row. *)
Theorem add_moving_averages_spec self indicator qs windows :
  rectangular (p_data self) = true →
  DF.get indicator (p_data self) = Ok (of_floats (Num <$> qs)) →
  (∀ w, w ∈ windows → (1 ≤ w)%nat) →
  ∃ out,
    add_moving_averages self [indicator] windows = Ok out
    ∧ DF.len out = DF.len (p_data self)
    ∧ (∀ name,
         (∀ w, w ∈ windows → name ≠ indicator +:+ "_ma" +:+ nat_to_string w) →
         DF.get name out = DF.get name (p_data self))
    ∧ ∀ w, w ∈ windows →
        ∃ ma,
          DF.get (indicator +:+ "_ma" +:+ nat_to_string w) out = Ok ma
          ∧ calculate_moving_average (of_floats (Num <$> qs)) w = Ok ma
          ∧ ∀ i, (i < length qs)%nat →
              ma !! i
              = Some (Flt (if (S i <? w)%nat then NaN
                           else Num (foldr Qplus 0%Q
                                       (take w (drop (S i - w) qs))
                                     / inject_Z (Z.of_nat w)))).
Proof.
  intros Hrect Hget Hw. unfold add_moving_averages.
  cbn [add_moving_averages_loop].
  destruct (add_moving_averages_inner_spec (p_data self) indicator
              (Num <$> qs) windows Hrect Hget)
    as (out & -> & _ & Hlen & Hother & Hma).
  exists out. rewrite bind_Ok_l. repeat split; try done.
  intros w Hin. eexists. split; [by apply Hma|]. split.
  - unfold calculate_moving_average. by rewrite numeric_of_floats, bind_Ok_l.
  - intros i Hi. unfold of_floats at 1. unfold Series.
    rewrite list_lookup_fmap.
    rewrite rolling_mean_lookup; [done|auto|done].
Qed.

Lemma add_moving_averages_spec_witness :
  let qs := [19; 18; 17; 18; 19; 20]%Q in
  ∃ out,
    add_moving_averages (mkDataPreprocessor Sample.loaded) ["UER"]
      [2; 4]%nat = Ok out
    ∧ DF.len out = DF.len Sample.loaded
    ∧ (∀ name,
         (∀ w, w ∈ [2; 4]%nat → name ≠ "UER" +:+ "_ma" +:+ nat_to_string w) →
         DF.get name out = DF.get name Sample.loaded)
    ∧ ∀ w, w ∈ [2; 4]%nat →
        ∃ ma,
          DF.get ("UER" +:+ "_ma" +:+ nat_to_string w) out = Ok ma
          ∧ calculate_moving_average (of_floats (Num <$> qs)) w = Ok ma
          ∧ ∀ i, (i < length qs)%nat →
              ma !! i
              = Some (Flt (if (S i <? w)%nat then NaN
                           else Num (foldr Qplus 0%Q
                                       (take w (drop (S i - w) qs))
                                     / inject_Z (Z.of_nat w)))).
Proof.
  apply (add_moving_averages_spec (mkDataPreprocessor Sample.loaded) "UER"
           [19; 18; 17; 18; 19; 20]%Q [2; 4]%nat).
  - reflexivity.
  - reflexivity.
  - intros w Hw. repeat (apply elem_of_cons in Hw as [->|Hw]); [lia..|].
    by apply elem_of_nil in Hw.
Defined.

(** ** Min-max normalisation *)

Lemma dropnan_Num qs : Ser.dropnan (Num <$> qs) = Num <$> qs.
Proof.
  unfold Ser.dropnan. induction qs as [|q qs IH]; [done|].
  rewrite fmap_cons. simpl. by rewrite IH.
Qed.

Lemma foldl_fmin_Num a qs :
  ∃ m, foldl Ser.fmin (Num a) (Num <$> qs) = Num m
       ∧ m ∈ a :: qs
       ∧ ∀ q, q ∈ a :: qs → (m <= q)%Q.
Proof.
  revert a. induction qs as [|b qs IH]; intros a.
  - exists a. split; [done|]. split; [by left|].
    intros q ->%list_elem_of_singleton. apply Qle_refl.
  - rewrite fmap_cons. cbn [foldl]. unfold Ser.fmin at 2. cbn [Float.le].
    destruct (Qle_bool a b) eqn:Hab.
    + destruct (IH a) as (m & -> & Hin & Hle). exists m. split; [done|].
      apply Qle_bool_iff in Hab. split; [set_solver|].
      intros q Hq. apply elem_of_cons in Hq as [->|Hq]; [apply Hle; by left|].
      apply elem_of_cons in Hq as [->|Hq]; [|apply Hle; by right].
      eapply Qle_trans; [apply Hle; by left|done].
    + destruct (IH b) as (m & -> & Hin & Hle). exists m. split; [done|].
      assert (Hba : (b <= a)%Q).
      { apply Qlt_le_weak, Qnot_le_lt. intros H%Qle_bool_iff. congruence. }
      split; [set_solver|].
      intros q Hq. apply elem_of_cons in Hq as [->|Hq]; [|by apply Hle].
      eapply Qle_trans; [apply Hle; by left|done].
Qed.

Lemma foldl_fmax_Num a qs :
  ∃ m, foldl Ser.fmax (Num a) (Num <$> qs) = Num m
       ∧ m ∈ a :: qs
       ∧ ∀ q, q ∈ a :: qs → (q <= m)%Q.
Proof.
  revert a. induction qs as [|b qs IH]; intros a.
  - exists a. split; [done|]. split; [by left|].
    intros q ->%list_elem_of_singleton. apply Qle_refl.
  - rewrite fmap_cons. cbn [foldl]. unfold Ser.fmax at 2. cbn [Float.le].
    destruct (Qle_bool a b) eqn:Hab.
    + destruct (IH b) as (m & -> & Hin & Hle). exists m. split; [done|].
      apply Qle_bool_iff in Hab. split; [set_solver|].
      intros q Hq. apply elem_of_cons in Hq as [->|Hq]; [|by apply Hle].
      eapply Qle_trans; [done|apply Hle; by left].
    + destruct (IH a) as (m & -> & Hin & Hle). exists m. split; [done|].
      assert (Hba : (b <= a)%Q).
      { apply Qlt_le_weak, Qnot_le_lt. intros H%Qle_bool_iff. congruence. }
      split; [set_solver|].
      intros q Hq. apply elem_of_cons in Hq as [->|Hq]; [apply Hle; by left|].
      apply elem_of_cons in Hq as [->|Hq]; [|apply Hle; by right].
      eapply Qle_trans; [done|apply Hle; by left].
Qed.

Lemma smin_smax_Num qs :
  qs ≠ [] →
  ∃ lo hi,
    Ser.smin (Num <$> qs) = Num lo ∧ Ser.smax (Num <$> qs) = Num hi
    ∧ lo ∈ qs ∧ hi ∈ qs ∧ ∀ q, q ∈ qs → (lo <= q <= hi)%Q.
Proof.
  destruct qs as [|a qs]; [done|]. intros _.
  unfold Ser.smin, Ser.smax. rewrite dropnan_Num, fmap_cons.
  destruct (foldl_fmin_Num a qs) as (lo & -> & Hlo & Hle).
  destruct (foldl_fmax_Num a qs) as (hi & -> & Hhi & Hge).
  exists lo, hi. repeat split; auto.
Qed.

(** X20: min-max normalisation of one indicator whose column holds
    finite numbers adds the column [<indicator>_norm] and leaves the
    other columns as they are.  Every normalised value is
    [(q - min) / (max - min)] for the least and the greatest value of the
    column.  When all values of the column are equal, every normalised
    value is NaN (0 / 0); otherwise the rows holding the minimum get 0.
    Nothing is raised. *)
Theorem normalize_indicators_minmax sqrt self indicator qs :
  rectangular (p_data self) = true →
  DF.get indicator (p_data self) = Ok (of_floats (Num <$> qs)) →
  qs ≠ [] →
  ∃ out norm lo hi,
    normalize_indicators sqrt self [indicator] "minmax" = Ok out
    ∧ DF.get (indicator +:+ "_norm") out = Ok (of_floats norm)
    ∧ length norm = length qs
    ∧ (∀ name, name ≠ indicator +:+ "_norm" →
               DF.get name out = DF.get name (p_data self))
    ∧ lo ∈ qs ∧ hi ∈ qs ∧ (∀ q, q ∈ qs → (lo <= q <= hi)%Q)
    ∧ (∀ i q, qs !! i = Some q →
              norm !! i
              = Some (Float.div (Float.sub (Num q) (Num lo))
                                (Float.sub (Num hi) (Num lo))))
    ∧ ((lo == hi)%Q → ∀ i, (i < length qs)%nat → norm !! i = Some NaN)
    ∧ (¬ (lo == hi)%Q →
       ∀ i q, qs !! i = Some q → (q == lo)%Q →
              ∃ r, norm !! i = Some (Num r) ∧ (r == 0)%Q).
Proof.
  intros Hrect Hget Hne.
  destruct (smin_smax_Num qs Hne) as (lo & hi & Hmin & Hmax & Hlo & Hhi & Hb).
  unfold normalize_indicators. cbn [normalize_loop]. unfold normalize_step.
  change (String.eqb "minmax" "zscore") with false.
  change (String.eqb "minmax" "minmax") with true. cbv iota.
  rewrite Hget, bind_Ok_l, numeric_of_floats, !bind_Ok_l. cbv zeta.
  rewrite Hmin, Hmax.
  set (norm := (fun a => Float.div (Float.sub a (Num lo))
                           (Float.sub (Num hi) (Num lo)))
                 <$> (Num <$> qs)).
  assert (Hlen : length norm = length qs)
    by (unfold norm; by rewrite !length_fmap).
  assert (Hcell : ∀ i q, qs !! i = Some q →
            norm !! i
            = Some (Float.div (Float.sub (Num q) (Num lo))
                              (Float.sub (Num hi) (Num lo)))).
  { intros i q Hq. unfold norm. by rewrite !list_lookup_fmap, Hq. }
  exists (DF.set (indicator +:+ "_norm") (of_floats norm) (p_data self)),
    norm, lo, hi.
  split; [done|]. split.
  { apply get_set_same; [done|]. unfold of_floats.
    rewrite length_fmap, Hlen. apply get_length in Hget.
    unfold of_floats in Hget. by rewrite !length_fmap in Hget. }
  split; [done|]. split; [by intros name Hname; apply get_set_ne|].
  split; [done|]. split; [done|]. split; [done|]. split; [done|]. split.
  - intros Heq i Hi. destruct (lookup_lt_is_Some_2 qs i Hi) as [q Hq].
    rewrite (Hcell i q Hq). simpl.
    destruct (Hb q (list_elem_of_lookup_2 _ _ _ Hq)) as [H1 H2].
    assert (Float.is_zero (hi + - lo) = true) as ->.
    { apply is_zero_spec. Lqa.lra. }
    assert (Float.is_zero (q + - lo) = true) as ->.
    { apply is_zero_spec. Lqa.lra. }
    done.
  - intros Hneq i q Hq Hqlo. rewrite (Hcell i q Hq). simpl.
    assert (Hlt : (lo < hi)%Q).
    { destruct (Hb hi Hhi) as [H _].
      apply Qle_lteq in H as [H|H]; [done|by destruct Hneq]. }
    assert (Float.is_zero (hi + - lo) = false) as ->.
    { apply is_zero_spec. Lqa.lra. }
    eexists. split; [done|]. rewrite Hqlo. field. Lqa.lra.
Qed.

Lemma normalize_indicators_minmax_witness :
  ∃ out norm lo hi,
    normalize_indicators Sample.sqrt (mkDataPreprocessor Sample.loaded) ["UER"] "minmax" = Ok out
    ∧ DF.get ("UER" +:+ "_norm") out = Ok (of_floats norm)
    ∧ length norm = length [19; 18; 17; 18; 19; 20]%Q
    ∧ (∀ name, name ≠ "UER" +:+ "_norm" →
               DF.get name out = DF.get name (Sample.loaded))
    ∧ lo ∈ [19; 18; 17; 18; 19; 20]%Q ∧ hi ∈ [19; 18; 17; 18; 19; 20]%Q ∧ (∀ q, q ∈ [19; 18; 17; 18; 19; 20]%Q → (lo <= q <= hi)%Q)
    ∧ (∀ i q, [19; 18; 17; 18; 19; 20]%Q !! i = Some q →
              norm !! i
              = Some (Float.div (Float.sub (Num q) (Num lo))
                                (Float.sub (Num hi) (Num lo))))
    ∧ ((lo == hi)%Q → ∀ i, (i < length [19; 18; 17; 18; 19; 20]%Q)%nat → norm !! i = Some NaN)
    ∧ (¬ (lo == hi)%Q →
       ∀ i q, [19; 18; 17; 18; 19; 20]%Q !! i = Some q → (q == lo)%Q →
              ∃ r, norm !! i = Some (Num r) ∧ (r == 0)%Q).
Proof.
  apply (normalize_indicators_minmax Sample.sqrt
           (mkDataPreprocessor Sample.loaded) "UER"
           [19; 18; 17; 18; 19; 20]%Q).
  - reflexivity.
  - reflexivity.
  - discriminate.
Defined.

(** ** Temporal features *)

Lemma columns_set_self name s df : name ∈ columns (DF.set name s df).
Proof. by destruct (columns_set name s df) as [H _]. Qed.

Lemma columns_set_keep name s df c :
  c ∈ columns df → c ∈ columns (DF.set name s df).
Proof. destruct (columns_set name s df) as (_ & H & _). apply H. Qed.

Lemma dt_dates ts : mapM dt (Date <$> ts) = Ok (Some <$> ts).
Proof.
  induction ts as [|t ts IH]; [done|].
  rewrite !fmap_cons. cbn [mapM dt]. by rewrite bind_Ok_l, IH, bind_Ok_l.
Qed.

Lemma dt_field_dates f ts :
  dt_field f <$> (Some <$> ts) = of_floats ((fun t => Float.of_Z (f t)) <$> ts).
Proof.
  unfold of_floats. rewrite <- !list_fmap_compose. by apply list_fmap_ext.
Qed.

(** X21: on a rectangular table whose [Date] column holds a timestamp in
    every row, [create_temporal_features] succeeds, keeps the row count
    and every column other than the five it writes, and the columns
    [Year], [QuarterNum] and [Month] hold, row by row, the year, the
    quarter [(month - 1) / 3 + 1] and the month of the row's date; the
    columns [Quarter_sin] and [Quarter_cos] are present. *)
Theorem create_temporal_features_spec self ts :
  rectangular (p_data self) = true →
  DF.get "Date" (p_data self) = Ok (Date <$> ts) →
  ∃ out,
    create_temporal_features self = Ok out
    ∧ DF.len out = DF.len (p_data self)
    ∧ (∀ name,
         name ∉ ["Year"; "QuarterNum"; "Month"; "Quarter_sin"; "Quarter_cos"] →
         DF.get name out = DF.get name (p_data self))
    ∧ DF.get "Year" out
      = Ok (of_floats ((fun t => Float.of_Z (ts_year t)) <$> ts))
    ∧ DF.get "QuarterNum" out
      = Ok (of_floats ((fun t => Float.of_Z ((ts_month t - 1) / 3 + 1)) <$> ts))
    ∧ DF.get "Month" out
      = Ok (of_floats ((fun t => Float.of_Z (ts_month t)) <$> ts))
    ∧ "Quarter_sin" ∈ columns out
    ∧ "Quarter_cos" ∈ columns out.
Proof.
  intros Hrect Hget. unfold create_temporal_features.
  assert (Hlen : length ts = DF.len (p_data self)).
  { apply get_length in Hget. by rewrite length_fmap in Hget. }
  assert (Hflen : ∀ f : Timestamp -> float,
            length (of_floats (f <$> ts)) = DF.len (p_data self)).
  { intros f. unfold of_floats. by rewrite !length_fmap. }
  rewrite Hget, bind_Ok_l, dt_dates, bind_Ok_l, dt_field_dates.
  set (df1 := DF.set "Year" _ _).
  assert (Hrect1 : rectangular df1 = true) by by apply rectangular_set.
  assert (Hlen1 : DF.len df1 = DF.len (p_data self)) by apply len_set.
  assert (Hget1 : DF.get "Date" df1 = Ok (Date <$> ts)).
  { unfold df1. by rewrite get_set_ne. }
  rewrite Hget1, bind_Ok_l, dt_dates, bind_Ok_l, dt_field_dates.
  set (df2 := DF.set "QuarterNum" _ _).
  assert (Hrect2 : rectangular df2 = true) by by apply rectangular_set.
  assert (Hlen2 : DF.len df2 = DF.len (p_data self))
    by (unfold df2; by rewrite len_set).
  assert (Hget2 : DF.get "Date" df2 = Ok (Date <$> ts)).
  { unfold df2. by rewrite get_set_ne. }
  rewrite Hget2, bind_Ok_l, dt_dates, bind_Ok_l, dt_field_dates.
  set (df3 := DF.set "Month" _ _).
  assert (Hrect3 : rectangular df3 = true) by by apply rectangular_set.
  assert (Hlen3 : DF.len df3 = DF.len (p_data self))
    by (unfold df3; by rewrite len_set).
  assert (Hq2 : DF.get "QuarterNum" df2
                = Ok (of_floats ((fun t => Float.of_Z (Calendar.quarter t))
                                   <$> ts))).
  { unfold df2. apply get_set_same; [done|]. by rewrite Hflen, Hlen1. }
  assert (Hq3 : DF.get "QuarterNum" df3
                = Ok (of_floats ((fun t => Float.of_Z (Calendar.quarter t))
                                   <$> ts))).
  { unfold df3. by rewrite get_set_ne. }
  rewrite Hq3, bind_Ok_l, numeric_of_floats, bind_Ok_l.
  set (df4 := DF.set "Quarter_sin" _ _).
  assert (Hrect4 : rectangular df4 = true) by by apply rectangular_set.
  assert (Hlen4 : DF.len df4 = DF.len (p_data self))
    by (unfold df4; by rewrite len_set).
  assert (Hq4 : DF.get "QuarterNum" df4
                = Ok (of_floats ((fun t => Float.of_Z (Calendar.quarter t))
                                   <$> ts))).
  { unfold df4. by rewrite get_set_ne. }
  rewrite Hq4, bind_Ok_l, numeric_of_floats, bind_Ok_l.
  set (df5 := DF.set "Quarter_cos" _ _).
  exists df5. split; [done|].
  split; [by unfold df5; rewrite len_set|]. split.
  { intros name Hname.
    unfold df5, df4, df3, df2, df1.
    rewrite !get_set_ne; first done; try done;
      try (intros ->; apply Hname; by_compute). }
  split.
  { unfold df5, df4, df3, df2. rewrite !get_set_ne by done.
    unfold df1. apply get_set_same; [done|]. apply Hflen. }
  split.
  { unfold df5. by rewrite get_set_ne. }
  split.
  { unfold df5, df4. rewrite !get_set_ne by done.
    unfold df3. apply get_set_same; [done|]. by rewrite Hflen, Hlen2. }
  split.
  - unfold df5. apply columns_set_keep. unfold df4. apply columns_set_self.
  - unfold df5. apply columns_set_self.
Qed.

Lemma create_temporal_features_spec_witness :
  let ts := [mkTimestamp 2014 1 1; mkTimestamp 2014 10 1;
             mkTimestamp 2015 4 1] in
  ∃ out,
    create_temporal_features (mkDataPreprocessor Sample.sorted) = Ok out
    ∧ DF.len out = DF.len Sample.sorted
    ∧ (∀ name,
         name ∉ ["Year"; "QuarterNum"; "Month"; "Quarter_sin"; "Quarter_cos"] →
         DF.get name out = DF.get name Sample.sorted)
    ∧ DF.get "Year" out
      = Ok (of_floats ((fun t => Float.of_Z (ts_year t)) <$> ts))
    ∧ DF.get "QuarterNum" out
      = Ok (of_floats ((fun t => Float.of_Z ((ts_month t - 1) / 3 + 1)) <$> ts))
    ∧ DF.get "Month" out
      = Ok (of_floats ((fun t => Float.of_Z (ts_month t)) <$> ts))
    ∧ "Quarter_sin" ∈ columns out
    ∧ "Quarter_cos" ∈ columns out.
Proof.
  apply (create_temporal_features_spec (mkDataPreprocessor Sample.sorted)
           [mkTimestamp 2014 1 1; mkTimestamp 2014 10 1;
            mkTimestamp 2015 4 1]);
    reflexivity.
Defined.

(** ** Modeling table *)

Lemma filter_sublist {A} (p : A -> bool) (l : list A) :
  List.filter p l `sublist_of` l.
Proof.
  induction l as [|x l IH]; simpl; [constructor|].
  destruct (p x); by constructor.
Qed.

Lemma forallb_filter {A} (p : A -> bool) (l : list A) :
  forallb p (List.filter p l) = true.
Proof.
  apply forallb_forall. intros x Hx. by apply filter_In in Hx as [_ ?].
Qed.

(** X22: whatever the three flags, the table [prepare_for_modeling]
    returns for a numeric target has no missing value in any cell: it has
    the columns of the rate-of-change table and exactly its complete
    rows, in their order; no complete row is lost and none is made up. *)
Theorem prepare_for_modeling_complete pad self target lags ma temporal :
  rectangular (p_data self) = true →
  column_all is_datetime "Date" (p_data self) = true →
  column_all is_flt target (p_data self) = true →
  ∃ changed table,
    add_rate_of_change pad self [target] default_periods = Ok changed
    ∧ prepare_for_modeling pad self target lags ma temporal = Ok table
    ∧ columns table = columns changed
    ∧ rectangular table = true
    ∧ complete table = true
    ∧ rows table `sublist_of` rows changed
    ∧ (∀ row, row ∈ rows changed → DF.row_complete row = true →
              row ∈ rows table).
Proof.
  intros Hrect Hdate Hcol.
  destruct (column_all_get _ _ _ Hcol) as (col & Hget & Hflt).
  destruct (add_rate_of_change_default pad self target col Hrect Hget Hflt)
    as (c1 & c4 & _ & _ & Hroc).
  rewrite prepare_for_modeling_eq by done. rewrite Hroc, bind_Ok_l.
  do 2 eexists. split; [done|]. split; [done|].
  set (changed := DF.set _ c4 _).
  assert (Hrect' : rectangular changed = true).
  { unfold changed. by do 2 apply rectangular_set. }
  split; [done|]. split.
  { apply rectangular_Forall. apply rectangular_Forall in Hrect'.
    simpl. rewrite Forall_forall in Hrect' |- *.
    intros row Hrow%list_elem_of_In%filter_In. apply Hrect', list_elem_of_In, Hrow. }
  split; [apply forallb_filter|]. split; [apply filter_sublist|].
  intros row Hrow Hc. simpl. apply list_elem_of_In, filter_In.
  split; [by apply list_elem_of_In|done].
Qed.

Lemma prepare_for_modeling_complete_witness :
  ∃ changed table,
    add_rate_of_change true (mkDataPreprocessor Sample.with_notes) ["UER"]
      default_periods = Ok changed
    ∧ prepare_for_modeling true (mkDataPreprocessor Sample.with_notes) "UER"
        true false true = Ok table
    ∧ columns table = columns changed
    ∧ rectangular table = true
    ∧ complete table = true
    ∧ rows table `sublist_of` rows changed
    ∧ (∀ row, row ∈ rows changed → DF.row_complete row = true →
              row ∈ rows table).
Proof.
  apply (prepare_for_modeling_complete true
           (mkDataPreprocessor Sample.with_notes) "UER" true false true);
    reflexivity.
Defined.

(** ** Outliers *)

Lemma where_true_lookup l i : i ∈ Ser.where_true l → l !! i = Some true.
Proof.
  unfold Ser.where_true. intros Hin.
  apply list_elem_of_fmap in Hin as ([j b] & -> & Hin).
  apply list_elem_of_In, filter_In in Hin as [Hin Hb]. simpl in Hb. subst b.
  apply list_elem_of_In, elem_of_lookup_imap in Hin
    as (k & x & [= -> ->] & Hk).
  done.
Qed.

Lemma outlier_flag_notnan a lo hi :
  Float.lt a lo || Float.gt a hi = true → Float.isnan a = false.
Proof. destruct a as [|[]|x]; try done. by destruct hi as [|[]|y]. Qed.

Lemma detect_outliers_loop_inv df names results out :
  Validator.detect_outliers_loop df names results = Ok out →
  ∃ infos,
    out = results ++ infos
    ∧ Forall2 (fun name x =>
                 x.1 = name
                 ∧ length (quarters x.2) = count x.2
                 ∧ length (values x.2) = count x.2
                 ∧ (count x.2 ≤ DF.len df)%nat
                 ∧ percentage x.2
                   = Float.mul (Float.div (Float.of_nat (count x.2))
                                          (Float.of_nat (DF.len df)))
                               (Num 100)
                 ∧ Forall (fun c => ∃ a, c = Flt a ∧ Float.isnan a = false)
                          (values x.2))
              names infos.
Proof.
  revert results. induction names as [|name names IH]; intros results;
    cbn [Validator.detect_outliers_loop].
  - intros [= <-]. exists []. rewrite app_nil_r. split; [done|constructor].
  - intros H. apply bind_Ok in H as (col & Hget & H).
    apply bind_Ok in H as (flags & Hflags & H).
    apply bind_Ok in H as (qs & Hqs & H).
    apply bind_Ok in H as (vs & Hvs & H).
    apply IH in H as (infos & -> & Hinfos).
    unfold detect_outliers_iqr in Hflags.
    apply bind_Ok in Hflags as (v & Hv & Hflags). injection Hflags as <-.
    apply numeric_Ok in Hv as ->.
    set (lower := Float.sub _ _) in *. set (upper := Float.add _ _) in *.
    eexists (_ :: infos). split; [by rewrite <- app_assoc|].
    constructor; [|done]. cbn [fst snd count quarters values percentage].
    split; [done|].
    split; [by rewrite (loc_length _ _ _ _ Hqs), length_where_true|].
    split; [by rewrite (loc_length _ _ _ _ Hvs), length_where_true|].
    split.
    { etransitivity; [apply count_true_le|]. rewrite length_fmap.
      apply get_length in Hget. unfold of_floats in Hget.
      rewrite length_fmap in Hget. lia. }
    split; [done|].
    assert (Hvals : vs = (fun i => nth i (of_floats v) (Flt NaN))
                           <$> Ser.where_true
                                 ((fun a => Float.lt a lower
                                            || Float.gt a upper) <$> v)).
    { unfold Validator.loc in Hvs. fold lower upper in Hvs.
      destruct (Ser.where_true _); [by injection Hvs as <-|].
      rewrite Hget, bind_Ok_l in Hvs. by injection Hvs as <-. }
    rewrite Hvals.
    apply Forall_fmap, Forall_forall. intros j Hj. simpl.
    apply where_true_lookup in Hj.
    rewrite list_lookup_fmap in Hj.
    destruct (v !! j) as [a|] eqn:Ha; [|done]. simpl in Hj.
    injection Hj as Hj. exists a. split.
    + unfold of_floats. by rewrite nth_lookup, list_lookup_fmap, Ha.
    + by eapply outlier_flag_notnan.
Qed.

(** X23: when [detect_outliers] returns, it has one entry per indicator,
    in order; each entry lists one quarter label and one value per
    counted outlier, counts no more outliers than there are rows, gives
    the count as a percentage of the rows, and every listed value is a
    number of the column that is not missing: a missing value is never
    reported as an outlier. *)
Theorem detect_outliers_spec df out :
  Validator.detect_outliers df = Ok out →
  out.*1 = Config.INDICATORS
  ∧ ∀ name info, (name, info) ∈ out →
      length (quarters info) = count info
      ∧ length (values info) = count info
      ∧ (count info ≤ DF.len df)%nat
      ∧ percentage info
        = Float.mul (Float.div (Float.of_nat (count info))
                               (Float.of_nat (DF.len df)))
                    (Num 100)
      ∧ Forall (fun c => ∃ a, c = Flt a ∧ Float.isnan a = false)
               (values info).
Proof.
  unfold Validator.detect_outliers. intros H.
  apply detect_outliers_loop_inv in H as (infos & -> & H2).
  cbn [app]. split.
  - clear -H2. induction H2 as [|name x names infos (<- & _) _ IH]; [done|].
    rewrite fmap_cons. by f_equal.
  - intros name info Hin. apply list_elem_of_lookup in Hin as [i Hi].
    destruct (Forall2_lookup_r _ _ _ _ _ H2 Hi) as (n & _ & _ & H).
    exact H.
Qed.

Lemma detect_outliers_spec_witness :
  ∃ out,
    Validator.detect_outliers Sample.with_outlier = Ok out
    ∧ out.*1 = Config.INDICATORS
    ∧ ∀ name info, (name, info) ∈ out →
        length (quarters info) = count info
        ∧ length (values info) = count info
        ∧ (count info ≤ DF.len Sample.with_outlier)%nat
        ∧ percentage info
          = Float.mul (Float.div (Float.of_nat (count info))
                                 (Float.of_nat (DF.len Sample.with_outlier)))
                      (Num 100)
        ∧ Forall (fun c => ∃ a, c = Flt a ∧ Float.isnan a = false)
                 (values info).
Proof.
  eexists. split; [vm_compute; reflexivity|].
  apply (detect_outliers_spec Sample.with_outlier). vm_compute. reflexivity.
Defined.

(** ** From the loader to the validator *)

Lemma run_checks_total df :
  is_dataset df = true → ∃ r, Validator.run_checks df = Ok r.
Proof.
  intros Hds.
  destruct (is_dataset_columns _ Hds) as ((qcol & Hq) & Hind & Hdate & Hlen).
  assert (∃ mv, Validator.check_missing_values df = Ok mv) as (mv & Hmv).
  { unfold Validator.check_missing_values.
    match goal with
    | |- context [mapM ?f Config.REQUIRED_COLUMNS] =>
        destruct (mapM_total f Config.REQUIRED_COLUMNS) as (k & ->)
    end; [|rewrite bind_Ok_l; eauto].
    constructor; [by rewrite Hq|].
    eapply Forall_impl; [exact Hind|]. intros name Hname. simpl in Hname.
    by destruct (column_all_get _ _ _ Hname) as (? & -> & _). }
  destruct (check_data_ranges_loop_spec df Config.INDICATORS [] true Hind)
    as (infos & Hdr & _).
  destruct (column_all_get _ _ _ Hdate) as (dcol & Hdget & Hdcol).
  destruct (to_datetime_total _ Hdcol) as (dates & Hdates & Hpresent).
  assert (∃ tc, Validator.check_temporal_continuity df = Ok tc) as (tc & Htc).
  { unfold Validator.check_temporal_continuity.
    rewrite Hdget, bind_Ok_l, Hdates, bind_Ok_l.
    destruct (Validator.present dates) as [|d ds] eqn:Hp.
    { apply get_length in Hdget. simpl in Hpresent. lia. }
    rewrite bind_Ok_l.
    match goal with
    | |- context [Validator.loc df ?idx "Quarter"] =>
        destruct (is_ok_Ok _ (loc_total df idx "Quarter" _ Hq)) as (qs & ->)
    end.
    rewrite bind_Ok_l. eauto. }
  destruct (is_ok_Ok _ (detect_outliers_loop_total df Config.INDICATORS []
                          qcol Hq Hind)) as (ol & Hol).
  assert (∃ cs, Validator.check_consistency df = Ok cs) as (cs & Hcs).
  { unfold Validator.check_consistency.
    assert (Her : column_all is_flt "ER" df = true).
    { rewrite Forall_forall in Hind. apply Hind.
      apply list_elem_of_In. by_compute. }
    assert (Hur : column_all is_flt "UR" df = true).
    { rewrite Forall_forall in Hind. apply Hind.
      apply list_elem_of_In. by_compute. }
    destruct (column_all_get _ _ _ Her) as (er & Hger & Herf).
    destruct (column_all_get _ _ _ Hur) as (ur & Hgur & Hurf).
    destruct (numeric_total TypeError _ Herf) as (ev & Hev & _).
    destruct (numeric_total TypeError _ Hurf) as (uv & Huv & _).
    rewrite Hger, bind_Ok_l, Hgur, bind_Ok_l, Hev, bind_Ok_l, Huv, bind_Ok_l.
    match goal with
    | |- context [if ?b then Validator.loc df ?idx "Quarter" else Ok []] =>
        destruct (is_ok_Ok _ (loc_total df idx "Quarter" _ Hq)) as (qs & ->);
        destruct b
    end; rewrite bind_Ok_l; eauto. }
  unfold Validator.run_checks, Validator.check_data_ranges,
    Validator.detect_outliers in *.
  rewrite Hmv, Hdr, Htc, Hol, Hcs, !bind_Ok_l. eauto.
Qed.

Lemma quarter_to_date_quarter_start label t :
  quarter_to_date label = Ok t →
  ∃ year quarter,
    parse_quarter label = Ok (year, quarter)
    ∧ 1 ≤ quarter ≤ 4
    ∧ t = quarter_start (4 * year + (quarter - 1)).
Proof.
  unfold quarter_to_date.
  destruct (parse_quarter label) as [[year quarter]|e]; [|done].
  rewrite bind_Ok_l. unfold Calendar.make.
  destruct (_ && _) eqn:Hc; [|done]. intros [= <-].
  repeat (apply andb_prop in Hc as [Hc ?]).
  exists year, quarter. split; [done|]. split; [lia|].
  unfold quarter_start.
  assert ((4 * year + (quarter - 1)) / 4 = year
          ∧ (4 * year + (quarter - 1)) mod 4 = quarter - 1) as [-> ->]
    by (Z.div_mod_to_equations; lia).
  f_equal. lia.
Qed.

Lemma indexed_quarters (quarter dates : list cell) (indexer : list nat) :
  (∀ i, i ∈ indexer →
     ∃ label year qn,
       nth i quarter (Flt NaN) = Str label
       ∧ parse_quarter label = Ok (year, qn)
       ∧ 1 ≤ qn ≤ 4
       ∧ nth i dates (Flt NaN) = Date (quarter_start (4 * year + (qn - 1)))) →
  ∃ ks,
    (fun i => nth i dates (Flt NaN)) <$> indexer = quarter_dates ks
    ∧ Forall2 (fun q k => ∃ label year quarter,
                 q = Str label
                 ∧ parse_quarter label = Ok (year, quarter)
                 ∧ 1 ≤ quarter ≤ 4
                 ∧ k = 4 * year + (quarter - 1))
              ((fun i => nth i quarter (Flt NaN)) <$> indexer) ks.
Proof.
  induction indexer as [|i indexer IH]; intros Hrow.
  - exists []. split; [done|constructor].
  - destruct IH as (ks & Hks & Hrel).
    { intros j Hj. apply Hrow. by right. }
    destruct (Hrow i) as (label & y & qn & Hl & Hp & Hqn & Ht); [by left|].
    exists ((4 * y + (qn - 1)) :: ks). rewrite !fmap_cons. split.
    + unfold quarter_dates. rewrite fmap_cons. f_equal; [done|].
      exact Hks.
    + constructor; [|done]. eauto 10.
Qed.

Section LoaderValidator.

Variable read_csv : string -> result DataFrame.
Variable argsort : list Z -> list nat.
Hypothesis argsort_perm : ∀ keys, argsort keys ≡ₚ seq 0 (length keys).

(** X24: a table loaded from a rectangular file with numeric indicator
    columns can always be validated: [validate_all] on it raises nothing
    and stores its results.  Its [Date] column holds quarter start dates
    numbered [4 * year + (quarter - 1)] from the year and the quarter
    that [parse_quarter] reads in the label of the same row, with the
    quarter between 1 and 4. *)
Theorem load_csv_then_validate path self df self' raw :
  load_csv read_csv argsort path self = (Ok df, self') →
  read_csv path = Ok raw →
  rectangular raw = true →
  forallb (fun name => column_all is_flt name raw) Config.INDICATORS = true →
  ∃ labels ks r,
    DF.get "Quarter" df = Ok labels
    ∧ DF.get "Date" df = Ok (quarter_dates ks)
    ∧ Forall2 (fun q k => ∃ label year quarter,
                 q = Str label
                 ∧ parse_quarter label = Ok (year, quarter)
                 ∧ 1 ≤ quarter ≤ 4
                 ∧ k = 4 * year + (quarter - 1))
              labels ks
    ∧ Validator.validate_all (mkDataValidator df None)
      = (Ok r, mkDataValidator df (Some r)).
Proof using argsort_perm.
  intros Hload Hread Hrect Hind.
  destruct (load_csv_is_dataset _ _ argsort_perm _ _ _ _ _
              Hload Hread Hrect Hind) as (_ & Hds & _).
  destruct (run_checks_total df Hds) as (r & Hr).
  destruct (load_csv_dated _ _ argsort_perm _ _ _ _ _ Hload Hread Hrect)
    as (quarter & ts & indexer & Hq & Hts & Hidx & -> & Hd & Hq' & _ & _).
  pose proof (mapM_Forall2 _ _ _ Hts) as H2.
  assert (Hlen : length quarter = DF.len raw) by (by apply get_length in Hq).
  assert (Hrow : ∀ i, i ∈ indexer →
            ∃ label year qn,
              nth i quarter (Flt NaN) = Str label
              ∧ parse_quarter label = Ok (year, qn)
              ∧ 1 ≤ qn ≤ 4
              ∧ nth i (Date <$> ts) (Flt NaN)
                = Date (quarter_start (4 * year + (qn - 1)))).
  { intros i Hi. rewrite Forall_forall in Hidx. specialize (Hidx i Hi).
    simpl in Hidx. rewrite <- Hlen in Hidx.
    destruct (lookup_lt_is_Some_2 quarter i Hidx) as [q Hqi].
    destruct (Forall2_lookup_l _ _ _ _ _ H2 Hqi) as (t & Hti & Happ).
    rewrite !nth_lookup, Hqi, list_lookup_fmap, Hti. simpl.
    destruct q as [|label|]; try done. simpl in Happ.
    apply quarter_to_date_quarter_start in Happ as (y & qn & Hp & Hqn & ->).
    eauto 10. }
  destruct (indexed_quarters quarter (Date <$> ts) indexer Hrow)
    as (ks & Hks & Hrel).
  exists ((fun i => nth i quarter (Flt NaN)) <$> indexer), ks, r.
  split; [by apply get_take_rows|].
  split; [by rewrite <- Hks; apply get_take_rows|].
  split; [done|].
  unfold Validator.validate_all. cbn [v_data]. by rewrite Hr.
Qed.

End LoaderValidator.

Lemma load_csv_then_validate_witness :
  ∃ labels ks r,
    DF.get "Quarter" Sample.sorted = Ok labels
    ∧ DF.get "Date" Sample.sorted = Ok (quarter_dates ks)
    ∧ Forall2 (fun q k => ∃ label year quarter,
                 q = Str label
                 ∧ parse_quarter label = Ok (year, quarter)
                 ∧ 1 ≤ quarter ≤ 4
                 ∧ k = 4 * year + (quarter - 1))
              labels ks
    ∧ Validator.validate_all (mkDataValidator Sample.sorted None)
      = (Ok r, mkDataValidator Sample.sorted (Some r)).
Proof.
  apply (load_csv_then_validate (fun _ => Ok Sample.unsorted) stable_argsort
           insertion_argsort_perm "data.csv" new_loader
           Sample.sorted
           (mkDataLoader (Some Sample.sorted)
              (Some (mkMetadata "data.csv" 3 (Str "2014 Q1") (Str "2015 Q2")
                       (columns Sample.sorted))))
           Sample.unsorted).
  - vm_compute. reflexivity.
  - reflexivity.
  - reflexivity.
  - reflexivity.
Defined.

(** ** Loading again *)

(** X25: what [load_csv] returns does not depend on what the loader held
    before, and after a success neither does the loader itself: a load
    replaces the earlier table and metadata completely, so loading the
    same file into a fresh or a used loader gives the same loader. *)
Theorem load_csv_replaces_state read_csv argsort path self1 self2 :
  (load_csv read_csv argsort path self1).1
  = (load_csv read_csv argsort path self2).1
  ∧ (is_ok (load_csv read_csv argsort path self1).1 = true →
     (load_csv read_csv argsort path self1).2
     = (load_csv read_csv argsort path self2).2).
Proof.
  unfold_loader.
  destruct (read_csv path) as [raw|]; [|done].
  case_decide; [|done].
  cbn beta iota.
  repeat match goal with
         | |- context [match ?x with Ok _ => _ | Err _ => _ end] =>
             destruct x; cbn beta iota
         end; done.
Qed.

(** ** From the loader to the preprocessor *)

Section LoaderPreprocessor.

Variable read_csv : string -> result DataFrame.
Variable argsort : list Z -> list nat.
Hypothesis argsort_perm : ∀ keys, argsort keys ≡ₚ seq 0 (length keys).

(** X26: on a table loaded from a rectangular file with numeric
    indicator columns, no feature step of the preprocessor raises: for
    each of the four indicators the temporal features, the lag features,
    the moving averages and the rates of change are computed, and
    [prepare_for_modeling] returns a table without any missing value,
    whatever the flags, lags and windows. *)
Theorem load_csv_then_prepare path self df self' raw pad target :
  load_csv read_csv argsort path self = (Ok df, self') →
  read_csv path = Ok raw →
  rectangular raw = true →
  forallb (fun name => column_all is_flt name raw) Config.INDICATORS = true →
  target ∈ Config.INDICATORS →
  let p := mkDataPreprocessor df in
  is_ok (create_temporal_features p) = true
  ∧ (∀ lags, is_ok (add_lag_features p [target] lags) = true)
  ∧ (∀ windows, is_ok (add_moving_averages p [target] windows) = true)
  ∧ (∀ periods, is_ok (add_rate_of_change pad p [target] periods) = true)
  ∧ ∀ include_lags include_ma include_temporal,
      ∃ table,
        prepare_for_modeling pad p target include_lags include_ma
          include_temporal = Ok table
        ∧ complete table = true.
Proof using argsort_perm.
  intros Hload Hread Hrect Hind Htarget p.
  destruct (load_csv_is_dataset _ _ argsort_perm _ _ _ _ _
              Hload Hread Hrect Hind) as (Hrect' & _ & Hdate & Hflt).
  assert (Hcol : column_all is_flt target df = true).
  { rewrite forallb_forall in Hflt. by apply Hflt, list_elem_of_In. }
  destruct (column_all_get _ _ _ Hcol) as (col & Hget & Hfl).
  destruct (numeric_total TypeError _ Hfl) as (v & _ & ->).
  split; [by apply create_temporal_features_total|].
  split; [by intros lags; apply add_lag_features_total|].
  split; [by intros windows; apply add_moving_averages_total|].
  split.
  { intros periods. unfold add_rate_of_change.
    cbn [add_rate_of_change_loop].
    destruct (add_rate_of_change_inner_spec pad df target v periods
                Hrect' Hget) as (out & Hout & _).
    cbn [p_data p]. by rewrite Hout. }
  intros lags ma temporal.
  destruct (add_rate_of_change_default pad p target _ Hrect' Hget Hfl)
    as (c1 & c4 & _ & _ & Hroc).
  rewrite prepare_for_modeling_eq by done. rewrite Hroc, bind_Ok_l.
  eexists. split; [done|]. apply forallb_filter.
Qed.

End LoaderPreprocessor.

Lemma load_csv_then_prepare_witness :
  let p := mkDataPreprocessor Sample.sorted in
  is_ok (create_temporal_features p) = true
  ∧ (∀ lags, is_ok (add_lag_features p ["UER"] lags) = true)
  ∧ (∀ windows, is_ok (add_moving_averages p ["UER"] windows) = true)
  ∧ (∀ periods, is_ok (add_rate_of_change true p ["UER"] periods) = true)
  ∧ ∀ include_lags include_ma include_temporal,
      ∃ table,
        prepare_for_modeling true p "UER" include_lags include_ma
          include_temporal = Ok table
        ∧ complete table = true.
Proof.
  apply (load_csv_then_prepare (fun _ => Ok Sample.unsorted) stable_argsort
           insertion_argsort_perm "data.csv" new_loader
           Sample.sorted
           (mkDataLoader (Some Sample.sorted)
              (Some (mkMetadata "data.csv" 3 (Str "2014 Q1") (Str "2015 Q2")
                       (columns Sample.sorted))))
           Sample.unsorted true "UER").
  - vm_compute. reflexivity.
  - reflexivity.
  - reflexivity.
  - reflexivity.
  - by_compute.
Defined.

(** ** Labels that cannot be dated *)

Lemma mapM_first_error {A B} (f : A -> result B) (l : list A) i x e :
  l !! i = Some x → f x = Err e →
  (∀ j y, (j < i)%nat → l !! j = Some y → is_ok (f y) = true) →
  mapM f l = Err e.
Proof.
  revert i. induction l as [|a l IH]; intros i Hi He Hbefore; [done|].
  cbn [mapM]. destruct i as [|i].
  - injection Hi as ->. by rewrite He.
  - destruct (is_ok_Ok _ (Hbefore 0%nat a ltac:(lia) eq_refl)) as [b ->].
    rewrite bind_Ok_l, (IH i); [done..|].
    intros j y Hj Hy. apply (Hbefore (S j) y); [lia|done].
Qed.

(** X27: one quarter label that cannot be turned into a date makes the
    whole load fail: [load_csv] raises the error of the first such label
    in file order (the parser's error, or the timestamp error for a
    quarter number outside 1..4; a cell that is not a string counts as
    unparsable), returns no table and leaves the loader as it was. *)
Theorem load_csv_bad_label read_csv argsort path self raw quarter i c e :
  read_csv path = Ok raw →
  (∀ name, name ∈ Config.REQUIRED_COLUMNS → name ∈ columns raw) →
  DF.get "Quarter" raw = Ok quarter →
  quarter !! i = Some c →
  apply_quarter_to_date c = Err e →
  (∀ j c', (j < i)%nat → quarter !! j = Some c' →
           is_ok (apply_quarter_to_date c') = true) →
  load_csv read_csv argsort path self = (Err e, self)
  ∧ (e = InvalidQuarterFormat ∨ e = TimestampOutOfRange).
Proof.
  intros Hread Hreq Hq Hi He Hbefore. split.
  - unfold_loader. rewrite Hread.
    case_decide as Hmissing.
    2:{ exfalso. apply Hmissing. apply set_eq. intros name.
        rewrite elem_of_difference, !elem_of_list_to_set. set_solver. }
    rewrite Hq. cbn beta iota.
    by rewrite (mapM_first_error _ _ _ _ _ Hi He Hbefore).
  - destruct c as [|label|]; simpl in He; [left; congruence| |left; congruence].
    unfold quarter_to_date, parse_quarter in He.
    repeat (case_match; simplify_eq/=; auto).
    unfold Calendar.make in He. case_match; simplify_eq/=; auto.
Qed.

Lemma load_csv_bad_label_witness :
  load_csv (fun _ => Ok Sample.bad_label) stable_argsort "data.csv" new_loader
  = (Err InvalidQuarterFormat, new_loader)
  ∧ (InvalidQuarterFormat = InvalidQuarterFormat
     ∨ InvalidQuarterFormat = TimestampOutOfRange).
Proof.
  apply (load_csv_bad_label (fun _ => Ok Sample.bad_label) stable_argsort
           "data.csv" new_loader Sample.bad_label
           [Str "2014 Q1"; Str "2014-Q2"] 1%nat (Str "2014-Q2")).
  - reflexivity.
  - intros name Hname. exact Hname.
  - reflexivity.
  - reflexivity.
  - reflexivity.
  - intros j c' Hj Hc'. destruct j as [|j]; [|lia].
    injection Hc' as <-. reflexivity.
Defined.

(** ** Order of the dates *)

Lemma quarter_ordinal_lt a b :
  quarter_ordinal a < quarter_ordinal b ↔ a < b.
Proof.
  split.
  - intros H. destruct (Z.lt_ge_cases a b) as [|Hge]; [done|].
    pose proof (quarter_ordinal_mono b a Hge). lia.
  - intros H. pose proof (quarter_ordinal_span a (b - a)) as Hs.
    replace (a + (b - a)) with b in Hs by lia. lia.
Qed.

(** X28: the dates that [quarter_to_date] gives are ordered as the
    (year, quarter) pairs read from the labels: one date is earlier than
    another exactly when its year is smaller, or the year is the same and
    its quarter is smaller, and two labels get the same date exactly when
    they have the same year and quarter.  Sorting on [Date] is therefore
    sorting chronologically on the labels. *)
Theorem quarter_to_date_order label1 label2 t1 t2 :
  quarter_to_date label1 = Ok t1 →
  quarter_to_date label2 = Ok t2 →
  ∃ y1 q1 y2 q2,
    parse_quarter label1 = Ok (y1, q1)
    ∧ parse_quarter label2 = Ok (y2, q2)
    ∧ (date_key (Date t1) < date_key (Date t2) ↔
       y1 < y2 ∨ (y1 = y2 ∧ q1 < q2))
    ∧ (date_key (Date t1) = date_key (Date t2) ↔ y1 = y2 ∧ q1 = q2)
    ∧ (t1 = t2 ↔ y1 = y2 ∧ q1 = q2).
Proof.
  intros (y1 & q1 & Hp1 & Hq1 & ->)%quarter_to_date_quarter_start
         (y2 & q2 & Hp2 & Hq2 & ->)%quarter_to_date_quarter_start.
  exists y1, q1, y2, q2. split; [done|]. split; [done|].
  cbn [date_key].
  fold (quarter_ordinal (4 * y1 + (q1 - 1))).
  fold (quarter_ordinal (4 * y2 + (q2 - 1))).
  pose proof (quarter_ordinal_lt (4 * y1 + (q1 - 1)) (4 * y2 + (q2 - 1))) as H12.
  pose proof (quarter_ordinal_lt (4 * y2 + (q2 - 1)) (4 * y1 + (q1 - 1))) as H21.
  split; [rewrite H12; lia|]. split.
  - split; [lia|]. by intros [-> ->].
  - split; [|by intros [-> ->]].
    intros Heq. apply (f_equal (fun t => Calendar.toordinal t)) in Heq.
    fold (quarter_ordinal (4 * y1 + (q1 - 1))) in Heq.
    fold (quarter_ordinal (4 * y2 + (q2 - 1))) in Heq. lia.
Qed.

Lemma quarter_to_date_order_witness :
  ∃ y1 q1 y2 q2,
    parse_quarter "2014 Q4" = Ok (y1, q1)
    ∧ parse_quarter "2015 Q1" = Ok (y2, q2)
    ∧ (date_key (Date (mkTimestamp 2014 10 1))
       < date_key (Date (mkTimestamp 2015 1 1)) ↔
       y1 < y2 ∨ (y1 = y2 ∧ q1 < q2))
    ∧ (date_key (Date (mkTimestamp 2014 10 1))
       = date_key (Date (mkTimestamp 2015 1 1)) ↔ y1 = y2 ∧ q1 = q2)
    ∧ (mkTimestamp 2014 10 1 = mkTimestamp 2015 1 1 ↔ y1 = y2 ∧ q1 = q2).
Proof.
  apply (quarter_to_date_order "2014 Q4" "2015 Q1"); reflexivity.
Defined.

(** ** Z-score normalisation *)

(** X29: z-score normalisation of one indicator whose column holds
    finite numbers raises nothing: it adds the column [<indicator>_norm]
    of the same length and leaves the other columns as they are.  With
    fewer than two rows the standard deviation is undefined, and every
    normalised value is NaN. *)
Theorem normalize_indicators_zscore sqrt self indicator qs :
  rectangular (p_data self) = true →
  DF.get indicator (p_data self) = Ok (of_floats (Num <$> qs)) →
  ∃ out norm,
    normalize_indicators sqrt self [indicator] "zscore" = Ok out
    ∧ DF.get (indicator +:+ "_norm") out = Ok (of_floats norm)
    ∧ length norm = length qs
    ∧ (∀ name, name ≠ indicator +:+ "_norm" →
               DF.get name out = DF.get name (p_data self))
    ∧ ((length qs ≤ 1)%nat → Forall (fun a => a = NaN) norm).
Proof.
  intros Hrect Hget.
  unfold normalize_indicators. cbn [normalize_loop]. unfold normalize_step.
  change (String.eqb "zscore" "zscore") with true. cbv iota.
  rewrite Hget, bind_Ok_l, numeric_of_floats, !bind_Ok_l. cbv zeta.
  set (mean := Ser.mean (Num <$> qs)).
  set (sd := std sqrt (Num <$> qs)).
  set (norm := (fun a => Float.div (Float.sub a mean) sd) <$> (Num <$> qs)).
  assert (Hlen : length norm = length qs)
    by (unfold norm; by rewrite !length_fmap).
  exists (DF.set (indicator +:+ "_norm") (of_floats norm) (p_data self)), norm.
  split; [done|]. split.
  { apply get_set_same; [done|]. unfold of_floats.
    rewrite length_fmap, Hlen. apply get_length in Hget.
    unfold of_floats in Hget. by rewrite !length_fmap in Hget. }
  split; [done|]. split; [by intros name Hname; apply get_set_ne|].
  intros Hshort.
  assert (Hsd : sd = NaN).
  { unfold sd, std. rewrite dropnan_Num, length_fmap.
    by apply Nat.leb_le in Hshort as ->. }
  unfold norm. rewrite Hsd. apply Forall_fmap, Forall_forall.
  intros a _. simpl. by destruct (Float.sub a mean).
Qed.

Lemma normalize_indicators_zscore_witness :
  let one_row :=
    mkDataFrame ["Quarter"; "LFPR"; "ER"; "UR"; "UER"; "Date"]
      [[Str "2014 Q1"; Sample.num 63; Sample.num 93; Sample.num 7;
        Sample.num 19; Sample.day1 2014 1]] in
  ∃ out norm,
    normalize_indicators Sample.sqrt (mkDataPreprocessor one_row)
      ["UER"] "zscore" = Ok out
    ∧ DF.get ("UER" +:+ "_norm") out = Ok (of_floats norm)
    ∧ length norm = length [19%Q]
    ∧ (∀ name, name ≠ "UER" +:+ "_norm" →
               DF.get name out = DF.get name one_row)
    ∧ ((length [19%Q] ≤ 1)%nat → Forall (fun a => a = NaN) norm).
Proof.
  apply (normalize_indicators_zscore Sample.sqrt
           (mkDataPreprocessor
              (mkDataFrame ["Quarter"; "LFPR"; "ER"; "UR"; "UER"; "Date"]
                 [[Str "2014 Q1"; Sample.num 63; Sample.num 93; Sample.num 7;
                   Sample.num 19; Sample.day1 2014 1]]))
           "UER" [19%Q]);
    reflexivity.
Defined.
